(** * Octopus short-link service: the generation and resolution engine

    A shallow embedding of the Go sources of the service
    ([internal/encoder], [internal/model], [internal/repository],
    [internal/service]) together with the properties of the engine that
    the design specification states.

    Conventions.
    - A Go [uint64] is a [Z] in [0, 2^64); every arithmetic result is
      reduced with [u64].  A Go [int] or [int64] that only counts is a [Z].
    - A Go [string] is a Rocq [string] (a sequence of bytes).
    - A Go [map[string]T] is a [gmap string T].
    - A Go result pair [(v, err)] is a pair [(v, o)] with [o : option error]
      when the code reads [v] whatever [err] is, and a sum [T + error] when
      [v] is only read after [err == nil].
    - A backend (MySQL, Redis, the Bloom filter) is a state; a read is a
      function of the state, a write returns the next state. *)

From Stdlib Require Import ZArith Lia Ascii String List Bool Permutation.
From stdpp Require Import base option list gmap strings fin_maps.

Local Open Scope Z_scope.
Local Open Scope string_scope.
Local Open Scope list_scope.

(** ** Machine integers *)

Definition u64 (z : Z) : Z := z mod 2 ^ 64.

(** ** Go's [strings] package, on byte strings *)

Module strings.

(** [strings.HasPrefix(s, prefix)]. *)
Fixpoint HasPrefix (s prefix : string) : bool :=
  match prefix, s with
  | EmptyString, _ => true
  | String _ _, EmptyString => false
  | String p prefix', String c s' =>
      if Ascii.eqb p c then HasPrefix s' prefix' else false
  end.

(** [strings.Contains(s, substr)]: [substr] starts at some offset of [s]. *)
Fixpoint Contains (s substr : string) : bool :=
  HasPrefix s substr ||
  match s with
  | EmptyString => false
  | String _ s' => Contains s' substr
  end.

(** [strings.Split(s, sep)] for a separator of one byte: the fields
    between the separators, at least one field. *)
Fixpoint Split (s : string) (sep : ascii) : list string :=
  match s with
  | EmptyString => [EmptyString]
  | String c s' =>
      if Ascii.eqb c sep then EmptyString :: Split s' sep
      else match Split s' sep with
           | [] => [String c EmptyString]
           | f :: fs => String c f :: fs
           end
  end.

(** [s[n:]]. *)
Fixpoint drop (n : nat) (s : string) : string :=
  match n, s with
  | O, _ => s
  | S _, EmptyString => EmptyString
  | S n', String _ s' => drop n' s'
  end.

(** The byte-wise upper-casing [strings.ToUpper] performs on ASCII
    letters.  Bytes from 0x80 on belong to multi-byte runes, whose case
    mapping is not part of this development: they are left as they are. *)
Definition upperByte (c : ascii) : ascii :=
  let n := N_of_ascii c in
  if ((97 <=? n) && (n <=? 122))%N then ascii_of_N (n - 32) else c.

Fixpoint ToUpper (s : string) : string :=
  match s with
  | EmptyString => EmptyString
  | String c s' => String (upperByte c) (ToUpper s')
  end.

End strings.

(** ** [internal/encoder]: the Base32 encoder *)

Module encoder.

Definition Base32Alphabet : string := "ABCDEFGHIJKLMNOPQRSTUVWXYZ234567".
Definition MinLength : Z := 4.
Definition MaxLength : Z := 6.

Definition alphabetLen : Z := Z.of_nat (String.length Base32Alphabet).

(** [Base32Alphabet[i]]; the index is always below 32 where it is used. *)
Definition alphabetAt (i : Z) : ascii :=
  match String.get (Z.to_nat i) Base32Alphabet with
  | Some c => c
  | None => Ascii.zero
  end.

(** The loop of [Encode]: [k] positions are still to be filled, from the
    right; [result] holds the positions already written. *)
Fixpoint encodeLoop (k : nat) (n : Z) (result : string) : string :=
  match k with
  | O => result
  | S k' =>
      encodeLoop k' (n / alphabetLen)
        (String (alphabetAt (n mod alphabetLen)) result)
  end.

Definition clampLength (length : Z) : Z :=
  if ((length <? MinLength) || (length >? MaxLength))%Z then MinLength else length.

Definition Encode (n : Z) (length : Z) : string :=
  encodeLoop (Z.to_nat (clampLength length)) n EmptyString.

Record InvalidCharacterError := { Char : ascii }.

(** The inner loop of [Decode] and [IsValid]: the first index [i] with
    [c == Base32Alphabet[i]]. *)
Fixpoint indexFrom (alphabet : string) (c : ascii) (i : Z) : option Z :=
  match alphabet with
  | EmptyString => None
  | String a alphabet' =>
      if Ascii.eqb c a then Some i else indexFrom alphabet' c (i + 1)
  end.

Definition alphabetIndex (c : ascii) : option Z := indexFrom Base32Alphabet c 0.

Fixpoint decodeLoop (s : string) (result : Z) : Z + InvalidCharacterError :=
  match s with
  | EmptyString => inl result
  | String c s' =>
      match alphabetIndex c with
      | Some index => decodeLoop s' (u64 (u64 (result * alphabetLen) + index))
      | None => inr {| Char := c |}
      end
  end.

Definition Decode (s : string) : Z + InvalidCharacterError :=
  decodeLoop (strings.ToUpper s) 0.

Fixpoint allInAlphabet (s : string) : bool :=
  match s with
  | EmptyString => true
  | String c s' =>
      match alphabetIndex c with
      | Some _ => allInAlphabet s'
      | None => false
      end
  end.

Definition IsValid (s : string) : bool :=
  let len := Z.of_nat (String.length s) in
  if ((len <? MinLength) || (len >? MaxLength))%Z then false
  else allInAlphabet (strings.ToUpper s).

Fixpoint capacityLoop (k : nat) (capacity : Z) : Z :=
  match k with
  | O => capacity
  | S k' => capacityLoop k' (u64 (capacity * alphabetLen))
  end.

Definition MaxCapacity (length : Z) : Z := capacityLoop (Z.to_nat length) 1.

End encoder.

(** ** Errors and time *)

(** The sentinel errors of [internal/service], the wrapping done by
    [fmt.Errorf("...: %w", err)], and the errors that come from a driver or
    from the standard library. *)
Inductive error : Type :=
| ErrInvalidURL
| ErrShortLinkNotFound
| ErrShortLinkExpired
| ErrMaxCapacityReached
| Errorf (msg : string) (cause : error)
| DriverError (msg : string).

#[global] Instance error_eq_dec : EqDecision error.
Proof. solve_decision. Defined.

(** A [time.Time] is an instant, counted from Go's zero [Time]. *)
Definition Time : Type := Z.
Definition zeroTime : Time := 0.

(** ** [internal/model] *)

Module model.

Record ShortLink := {
  ID : Z;
  ShortCode : string;
  OriginalURL : string;
  Params : option string;        (* json.RawMessage, nil when absent *)
  CreatedAt : Time;
  ExpireAt : option Time;        (* *time.Time *)
  Status : Z                     (* 1-active, 0-disabled *)
}.

(** [IsActive], with [time.Now()] as [now]. *)
Definition IsActive (now : Time) (sl : ShortLink) : bool :=
  if negb (Status sl =? 1)%Z then false
  else match ExpireAt sl with
       | Some t => if (now >? t)%Z then false else true
       | None => true
       end.

Record GenerateResponse := {
  resp_ShortLink : string;
  resp_ShortCode : string;
  resp_OriginalURL : string;
  resp_ExpireAt : Time
}.

Record SourceStat := { Source : string; Count : Z }.

Record Stats := { PV : Z; UV : Z }.

Record AnalyticsResponse := {
  an_ShortCode : string;
  an_PV : Z;
  an_UV : Z;
  TopSources : list SourceStat
}.

End model.
Import model.

(** ** What the services use of Go's standard library

    [fmt], [encoding/json], [time] and [net/url] are not part of the
    repository: the services are stated over any implementation of the
    functions they call.  [url.Values] is a [map[string][]string], and
    [Values.Set] is written out below. *)
Class GoStdlib := {
  JSONValue : Type;                                   (* interface{} *)
  fmt_v : gmap string JSONValue -> string;            (* fmt.Sprintf("%v", m) *)
  json_Marshal : gmap string JSONValue -> option string;
  time_Parse_RFC3339 : string -> Time + error;
  URL : Type;                                         (* *url.URL *)
  url_Parse : string -> option URL;                   (* None: err != nil *)
  url_Host : URL -> string;                           (* u.Host *)
  url_Query : URL -> gmap string (list string);       (* u.Query() *)
  url_Values_Encode : gmap string (list string) -> string;
  url_setRawQuery : URL -> string -> URL;             (* u.RawQuery = q *)
  url_String : URL -> string                          (* u.String() *)
}.

(** [v.Set(key, value)]: [v[key] = []string{value}]. *)
Definition Values_Set (v : gmap string (list string)) (key value : string)
  : gmap string (list string) := <[key := [value]]> v.

Record GenerateRequest `{GoStdlib} := {
  req_URL : string;
  req_Params : option (gmap string JSONValue);   (* nil or a map *)
  req_ExpireAt : string
}.

(** ** [hash/fnv]: the 64-bit FNV-1a hash behind [hashString] *)

Definition fnv_offset64 : Z := 14695981039346656037.
Definition fnv_prime64 : Z := 1099511628211.

Fixpoint fnv1a (s : string) (h : Z) : Z :=
  match s with
  | EmptyString => h
  | String c s' =>
      fnv1a s' (u64 (Z.lxor h (Z.of_N (N_of_ascii c)) * fnv_prime64))
  end.

Definition hashString (s : string) : Z := fnv1a s fnv_offset64.

(** ** [internal/service/interfaces.go]

    The methods of the three repository interfaces that the services call. *)

Class MySQLRepositoryInterface (M : Type) := {
  mysql_SaveShortLink : M -> ShortLink -> M * option error;
  GetShortLinkByCode : M -> string -> ShortLink + error;
  GetShortLinkByURL : M -> string -> ShortLink + error;
  CheckExistsByCode : M -> string -> bool * option error
}.

Class RedisRepositoryInterface (R : Type) := {
  SaveShortLink : R -> string -> string -> Z -> R * option error;
  GetShortLink : R -> string -> string * option error;
  IncrementPV : R -> string -> R * (Z * option error);
  GetPV : R -> string -> Z * option error;
  AddUV : R -> string -> string -> R * (bool * option error);
  GetUV : R -> string -> Z * option error;
  AddSource : R -> string -> string -> R * option error;
  GetSources : R -> string -> gmap string Z * option error
}.

Class BloomServiceInterface (B : Type) := {
  Add : B -> string -> B * option error;
  Exists : B -> string -> bool * option error
}.

(** [repository.ShortLinkCacheTTL]: 24 hours, in nanoseconds. *)
Definition ShortLinkCacheTTL : Z := 24 * 3600 * 1000000000.

(** A call the collision loop makes to a backend. *)
Inductive Call : Type :=
| CallBloomExists (shortCode : string)
| CallCheckExistsByCode (shortCode : string).

#[global] Instance Call_eq_dec : EqDecision Call.
Proof. solve_decision. Defined.

(** ** [internal/service/shortlink.go] *)

Section ShortLinkService.
Context `{GoStdlib} {M R B : Type}.
Context `{MySQLRepositoryInterface M, RedisRepositoryInterface R,
          BloomServiceInterface B}.

Record ShortLinkService := {
  mysqlRepo : M;
  redisRepo : R;
  bloomSvc : B;
  domain : string
}.

(** [buildCacheKey]; [len] of a nil map is 0. *)
Definition buildCacheKey (url : string)
    (params : option (gmap string JSONValue)) : string :=
  match params with
  | None => url
  | Some p => if decide (size p = 0%nat) then url else url +:+ ":" +:+ fmt_v p
  end.

Definition buildResponse (s : ShortLinkService) (sl : ShortLink)
  : GenerateResponse :=
  {| resp_ShortLink := domain s +:+ "/" +:+ ShortCode sl;
     resp_ShortCode := ShortCode sl;
     resp_OriginalURL := OriginalURL sl;
     resp_ExpireAt := match ExpireAt sl with
                      | Some t => t
                      | None => zeroTime
                      end |}.

(** The body of the inner loop of [generateWithCollision] for one candidate:
    whether the candidate is returned, and the backend calls made. *)
Definition tryCode (s : ShortLinkService) (shortCode : string)
  : bool * list Call :=
  let '(exists_, err) := Exists (bloomSvc s) shortCode in
  if bool_decide (err <> None) || negb exists_ then
    let '(actualExists, _) := CheckExistsByCode (mysqlRepo s) shortCode in
    (negb actualExists,
     [CallBloomExists shortCode; CallCheckExistsByCode shortCode])
  else (false, [CallBloomExists shortCode]).

(** [for i := 0; i < 1000; i++]: [k] iterations are left, the next one
    is iteration [i]. *)
Fixpoint attemptLoop (s : ShortLinkService) (hash length : Z)
    (k : nat) (i : Z) : option string * list Call :=
  match k with
  | O => (None, [])
  | S k' =>
      let shortCode := encoder.Encode (u64 (hash + i)) length in
      let '(free, calls) := tryCode s shortCode in
      if free then (Some shortCode, calls)
      else
        let '(r, calls') := attemptLoop s hash length k' (i + 1) in
        (r, (calls ++ calls')%list)
  end.

Definition retryBudget : nat := 1000.

(** [for length := MinLength; length <= MaxLength; length++]. *)
Fixpoint lengthLoop (s : ShortLinkService) (url : string)
    (k : nat) (length : Z) : (string + error) * list Call :=
  match k with
  | O => (inr ErrMaxCapacityReached, [])
  | S k' =>
      let hash := hashString url in
      match attemptLoop s hash length retryBudget 0 with
      | (Some shortCode, calls) => (inl shortCode, calls)
      | (None, calls) =>
          let '(r, calls') := lengthLoop s url k' (length + 1) in
          (r, (calls ++ calls')%list)
      end
  end.

(** [generateWithCollision]: the result and the log of the backend calls. *)
Definition generateWithCollision (s : ShortLinkService) (url : string)
  : (string + error) * list Call :=
  lengthLoop s url (Z.to_nat (encoder.MaxLength - encoder.MinLength + 1))
    encoder.MinLength.

Definition parseExpireAt (expireAt : string) : option Time + error :=
  if decide (expireAt = "") then inl None
  else match time_Parse_RFC3339 expireAt with
       | inl t => inl (Some t)
       | inr err => inr err
       end.

(** The cache fast path of [Generate]: the cached code, when it is found
    and resolves in MySQL. *)
Definition cachedShortLink (s : ShortLinkService) (cacheKey : string)
  : option ShortLink :=
  let '(cachedCode, err) := GetShortLink (redisRepo s) cacheKey in
  if bool_decide (err = None) && negb (String.eqb cachedCode "") then
    match GetShortLinkByCode (mysqlRepo s) cachedCode with
    | inl sl => Some sl
    | inr _ => None
    end
  else None.

(** [Generate], with [time.Now()] as [now]. *)
Definition Generate (now : Time) (s : ShortLinkService) (req : GenerateRequest)
  : (GenerateResponse + error) * ShortLinkService :=
  if decide (req_URL req = "") then (inr ErrInvalidURL, s) else
  match parseExpireAt (req_ExpireAt req) with
  | inr err => (inr (Errorf "invalid expire_at format" err), s)
  | inl expireAt =>
    let cacheKey := buildCacheKey (req_URL req) (req_Params req) in
    match cachedShortLink s cacheKey with
    | Some sl => (inl (buildResponse s sl), s)
    | None =>
      match GetShortLinkByURL (mysqlRepo s) (req_URL req) with
      | inl existing =>
          let '(redis1, _) :=
            SaveShortLink (redisRepo s) cacheKey (ShortCode existing)
              ShortLinkCacheTTL in
          (inl (buildResponse s existing),
           {| mysqlRepo := mysqlRepo s; redisRepo := redis1;
              bloomSvc := bloomSvc s; domain := domain s |})
      | inr _ =>
        match fst (generateWithCollision s (req_URL req)) with
        | inr err => (inr err, s)
        | inl shortCode =>
          let paramsJSON :=
            match req_Params req with
            | Some p => json_Marshal p
            | None => None
            end in
          let sl := {| ID := 0; ShortCode := shortCode;
                       OriginalURL := req_URL req; Params := paramsJSON;
                       CreatedAt := now; ExpireAt := expireAt;
                       Status := 1 |} in
          match mysql_SaveShortLink (mysqlRepo s) sl with
          | (mysql1, Some err) =>
              (inr (Errorf "failed to save short link" err),
               {| mysqlRepo := mysql1; redisRepo := redisRepo s;
                  bloomSvc := bloomSvc s; domain := domain s |})
          | (mysql1, None) =>
              let '(redis1, _) :=
                SaveShortLink (redisRepo s) cacheKey shortCode
                  ShortLinkCacheTTL in
              let '(redis2, _) :=
                SaveShortLink redis1 shortCode (req_URL req)
                  ShortLinkCacheTTL in
              let '(bloom1, _) := Add (bloomSvc s) shortCode in
              (inl (buildResponse s sl),
               {| mysqlRepo := mysql1; redisRepo := redis2;
                  bloomSvc := bloom1; domain := domain s |})
          end
        end
      end
    end
  end.

(** [Get], with [time.Now()] as [now]. *)
Definition Get (now : Time) (s : ShortLinkService) (shortCode : string)
  : (ShortLink + error) * ShortLinkService :=
  let '(url, err) := GetShortLink (redisRepo s) shortCode in
  if bool_decide (err = None) && negb (String.eqb url "") then
    (inl {| ID := 0; ShortCode := shortCode; OriginalURL := url;
            Params := None; CreatedAt := zeroTime; ExpireAt := None;
            Status := 0 |}, s)
  else
    match GetShortLinkByCode (mysqlRepo s) shortCode with
    | inr _ => (inr ErrShortLinkNotFound, s)
    | inl sl =>
        if negb (IsActive now sl) then (inr ErrShortLinkExpired, s)
        else
          let '(redis1, _) :=
            SaveShortLink (redisRepo s) shortCode (OriginalURL sl)
              ShortLinkCacheTTL in
          (inl sl,
           {| mysqlRepo := mysqlRepo s; redisRepo := redis1;
              bloomSvc := bloomSvc s; domain := domain s |})
    end.

(** [for key, value := range queryParams { query.Set(key, value) }], the
    entries visited in the order [entries]. *)
Definition setAll (entries : list (string * string))
    (query : gmap string (list string)) : gmap string (list string) :=
  fold_left (fun q kv => Values_Set q (fst kv) (snd kv)) entries query.

(** [ExpandURL]; Go visits the entries of [queryParams] in an order of its
    choice, here the order of [map_to_list]. *)
Definition ExpandURL (now : Time) (s : ShortLinkService) (shortCode : string)
    (queryParams : gmap string string) : (string + error) * ShortLinkService :=
  match Get now s shortCode with
  | (inr err, s1) => (inr err, s1)
  | (inl sl, s1) =>
      let targetURL := OriginalURL sl in
      match url_Parse targetURL with
      | None => (inl targetURL, s1)
      | Some u =>
          let query := setAll (map_to_list queryParams) (url_Query u) in
          (inl (url_String (url_setRawQuery u (url_Values_Encode query))), s1)
      end
  end.

End ShortLinkService.

(** ** [internal/service/analytics.go] *)

Section AnalyticsService.
Context `{GoStdlib} {R : Type} `{RedisRepositoryInterface R}.

Record AnalyticsService := { as_redisRepo : R }.

(** [extractSource]. *)
Definition extractSource (referer : string) : string :=
  if decide (referer = "") then "direct"
  else
    match url_Parse referer with
    | None => "unknown"
    | Some u =>
        let host := url_Host u in
        let host :=
          if strings.HasPrefix host "www." then strings.drop 4 host else host in
        if strings.Contains host "google" then "google"
        else if strings.Contains host "baidu" then "baidu"
        else if strings.Contains host "bing" then "bing"
        else if strings.Contains host "weibo" then "weibo"
        else if strings.Contains host "weixin"
                || strings.Contains host "mp.weixin.qq.com" then "wechat"
        else if strings.Contains host "qq" then "qq"
        else if strings.Contains host "zhihu" then "zhihu"
        else
          let parts := strings.Split host "." in
          if (2 <=? length parts)%nat
          then nth (length parts - 2) parts EmptyString
          else host
    end.

(** [RecordAccess], with [time.Now().Format("2006-01-02")] as [today].
    The errors of the three updates are logged and dropped. *)
Definition RecordAccess (today : string) (svc : AnalyticsService)
    (shortCode clientIP userAgent referer : string)
  : AnalyticsService * option error :=
  let '(r1, _) := IncrementPV (as_redisRepo svc) shortCode in
  let visitorID := today +:+ ":" +:+ clientIP in
  let '(r2, _) := AddUV r1 shortCode visitorID in
  let source := extractSource referer in
  if negb (String.eqb source "") then
    let '(r3, _) := AddSource r2 shortCode source in
    ({| as_redisRepo := r3 |}, None)
  else ({| as_redisRepo := r2 |}, None).

(** [GetStats]. *)
Definition GetStats (svc : AnalyticsService) (shortCode : string)
  : Stats * option error :=
  let '(pv, err) := GetPV (as_redisRepo svc) shortCode in
  let pv := if bool_decide (err <> None) then 0 else pv in
  let '(uv, err) := GetUV (as_redisRepo svc) shortCode in
  let uv := if bool_decide (err <> None) then 0 else uv in
  ({| PV := pv; UV := uv |}, None).

(** [if stats[j].Count > stats[i].Count { stats[i], stats[j] = stats[j], stats[i] }]. *)
Definition swapIfGreater (stats : list SourceStat) (i j : nat)
  : list SourceStat :=
  match stats !! i, stats !! j with
  | Some a, Some b =>
      if (Count b >? Count a)%Z then <[i := b]> (<[j := a]> stats) else stats
  | _, _ => stats
  end.

(** [for j := ...; j < len(stats); j++], with [k] iterations left. *)
Fixpoint sortInner (k : nat) (i j : nat) (stats : list SourceStat)
  : list SourceStat :=
  match k with
  | O => stats
  | S k' => sortInner k' i (S j) (swapIfGreater stats i j)
  end.

(** [for i := ...; i < len(stats); i++], with [k] iterations left. *)
Fixpoint sortOuter (k : nat) (i : nat) (stats : list SourceStat)
  : list SourceStat :=
  match k with
  | O => stats
  | S k' =>
      sortOuter k' (S i) (sortInner (length stats - S i) i (S i) stats)
  end.

(** [getTopSources]; the map is ranged over in the order of [map_to_list]. *)
Definition getTopSources (sources : gmap string Z) (limit : Z)
  : list SourceStat :=
  if decide (size sources = 0%nat) then []
  else
    let stats :=
      map (fun kv => {| Source := fst kv; Count := snd kv |})
        (map_to_list sources) in
    let stats := sortOuter (length stats) 0 stats in
    if (Z.of_nat (length stats) >? limit)%Z
    then take (Z.to_nat limit) stats
    else stats.

(** [GetAnalytics]. *)
Definition GetAnalytics (svc : AnalyticsService) (shortCode : string)
  : AnalyticsResponse + error :=
  match GetStats svc shortCode with
  | (_, Some err) => inr err
  | (stats, None) =>
      let '(sources, err) := GetSources (as_redisRepo svc) shortCode in
      let sources := if bool_decide (err <> None) then ∅ else sources in
      let topSources := getTopSources sources 10 in
      inl {| an_ShortCode := shortCode; an_PV := PV stats; an_UV := UV stats;
             TopSources := topSources |}
  end.

End AnalyticsService.

(** ** [internal/repository/mysql.go]

    The table [short_links] as the list of its rows.  Strings are compared
    byte by byte.  [db_error = Some e] is a database that cannot be reached:
    every statement fails with [e]. *)

Module repository.

Record MySQLRepository := {
  short_links : list ShortLink;
  auto_increment : Z;
  db_error : option error
}.

Definition ErrRecordNotFound : error := DriverError "record not found".
Definition ErrDuplicateEntry : error := DriverError "Error 1062: Duplicate entry".

(** [First] ([ORDER BY id LIMIT 1]) among the rows that satisfy [cond]. *)
Fixpoint firstByID (cond : ShortLink -> bool) (rows : list ShortLink)
  : option ShortLink :=
  match rows with
  | [] => None
  | row :: rows' =>
      if cond row then
        match firstByID cond rows' with
        | Some best => if (ID best <? ID row)%Z then Some best else Some row
        | None => Some row
        end
      else firstByID cond rows'
  end.

(** [Count] of the rows that satisfy [cond]. *)
Definition countRows (cond : ShortLink -> bool) (rows : list ShortLink) : Z :=
  Z.of_nat (length (filter (fun row => cond row = true) rows)).

(** [Create]: a zero [ID] is drawn from the auto-increment counter, a zero
    [Status] takes the column default 1, and the unique index on
    [short_code] rejects a second row with the same code.  ([Generate]
    always supplies [CreatedAt].)  The widths of the columns, their
    character set and collation, and inserts by other clients are outside
    the model. *)
Definition MySQL_SaveShortLink (r : MySQLRepository) (sl : ShortLink)
  : MySQLRepository * option error :=
  match db_error r with
  | Some e => (r, Some e)
  | None =>
      if existsb (fun row => String.eqb (ShortCode row) (ShortCode sl))
           (short_links r)
      then (r, Some ErrDuplicateEntry)
      else
        let row :=
          {| ID := if (ID sl =? 0)%Z then auto_increment r else ID sl;
             ShortCode := ShortCode sl;
             OriginalURL := OriginalURL sl;
             Params := Params sl;
             CreatedAt := CreatedAt sl;
             ExpireAt := ExpireAt sl;
             Status := if (Status sl =? 0)%Z then 1 else Status sl |} in
        ({| short_links := short_links r ++ [row];
            auto_increment := auto_increment r + 1;
            db_error := None |}, None)
  end.

(** [Where("short_code = ? AND status = 1", shortCode).First(&sl)]. *)
Definition MySQL_GetShortLinkByCode (r : MySQLRepository) (shortCode : string)
  : ShortLink + error :=
  match db_error r with
  | Some e => inr e
  | None =>
      match firstByID
              (fun row => String.eqb (ShortCode row) shortCode
                          && (Status row =? 1)%Z) (short_links r) with
      | Some sl => inl sl
      | None => inr ErrRecordNotFound
      end
  end.

(** [Where("original_url = ? AND status = 1", url).First(&sl)]. *)
Definition MySQL_GetShortLinkByURL (r : MySQLRepository) (url : string)
  : ShortLink + error :=
  match db_error r with
  | Some e => inr e
  | None =>
      match firstByID
              (fun row => String.eqb (OriginalURL row) url
                          && (Status row =? 1)%Z) (short_links r) with
      | Some sl => inl sl
      | None => inr ErrRecordNotFound
      end
  end.

(** [Where("short_code = ?", shortCode).Count(&count)]; [count] stays 0
    when the query fails. *)
Definition MySQL_CheckExistsByCode (r : MySQLRepository) (shortCode : string)
  : bool * option error :=
  match db_error r with
  | Some e => (false, Some e)
  | None =>
      ((countRows (fun row => String.eqb (ShortCode row) shortCode)
          (short_links r) >? 0)%Z, None)
  end.

#[global] Instance MySQLRepository_impl : MySQLRepositoryInterface MySQLRepository :=
  {| mysql_SaveShortLink := MySQL_SaveShortLink;
     GetShortLinkByCode := MySQL_GetShortLinkByCode;
     GetShortLinkByURL := MySQL_GetShortLinkByURL;
     CheckExistsByCode := MySQL_CheckExistsByCode |}.

(** ** [internal/repository/redis.go]

    The keyspace by type of value: strings written by [SET], counters
    driven by [INCR], sets filled by [SADD].  Keys do not expire within the
    runs considered.  [redis_error = Some e] is a server that cannot be
    reached.  The three maps stand for the one keyspace of the server as
    long as no key is written with two types; the statements about the
    counters assume it ([separateKeyspace]). *)

Record RedisRepository := {
  strs : gmap string string;
  ints : gmap string Z;
  sets : gmap string (gset string);
  clock_day : string;            (* time.Now().Format("2006-01-02") *)
  redis_error : option error
}.

Definition redis_Nil : error := DriverError "redis: nil".

Definition ShortLinkKeyPrefix : string := "sl:".
Definition PVKeyPrefix : string := "sl:pv:".
Definition UVKeyPrefix : string := "sl:uv:".
Definition SourceKeyPrefix : string := "sl:source:".

Definition shortLinkKey (shortCode : string) : string :=
  ShortLinkKeyPrefix +:+ shortCode.
Definition pvKey (shortCode : string) : string := PVKeyPrefix +:+ shortCode.
Definition uvKey (shortCode : string) : string := UVKeyPrefix +:+ shortCode.
Definition sourceKey (shortCode : string) : string :=
  SourceKeyPrefix +:+ shortCode.

Definition Redis_SaveShortLink (r : RedisRepository)
    (shortCode originalURL : string) (ttl : Z) : RedisRepository * option error :=
  match redis_error r with
  | Some e => (r, Some e)
  | None =>
      ({| strs := <[shortLinkKey shortCode := originalURL]> (strs r);
          ints := ints r; sets := sets r; clock_day := clock_day r;
          redis_error := None |}, None)
  end.

Definition Redis_GetShortLink (r : RedisRepository) (shortCode : string)
  : string * option error :=
  match redis_error r with
  | Some e => (EmptyString, Some e)
  | None =>
      match strs r !! shortLinkKey shortCode with
      | Some v => (v, None)
      | None => (EmptyString, Some redis_Nil)
      end
  end.

(** [INCR key]. *)
Definition incr (r : RedisRepository) (key : string)
  : RedisRepository * (Z * option error) :=
  match redis_error r with
  | Some e => (r, (0, Some e))
  | None =>
      let count := default 0 (ints r !! key) + 1 in
      ({| strs := strs r; ints := <[key := count]> (ints r); sets := sets r;
          clock_day := clock_day r; redis_error := None |}, (count, None))
  end.

Definition Redis_IncrementPV (r : RedisRepository) (shortCode : string)
  : RedisRepository * (Z * option error) := incr r (pvKey shortCode).

Definition Redis_GetPV (r : RedisRepository) (shortCode : string)
  : Z * option error :=
  match redis_error r with
  | Some e => (0, Some e)
  | None =>
      match ints r !! pvKey shortCode with
      | Some n => (n, None)
      | None => (0, Some redis_Nil)
      end
  end.

Definition Redis_AddUV (r : RedisRepository) (shortCode visitorID : string)
  : RedisRepository * (bool * option error) :=
  let dailyKey := uvKey shortCode +:+ ":" +:+ clock_day r in
  match redis_error r with
  | Some e => (r, (false, Some e))
  | None =>
      let members := default ∅ (sets r !! dailyKey) in
      ({| strs := strs r; ints := ints r;
          sets := <[dailyKey := {[visitorID]} ∪ members]> (sets r);
          clock_day := clock_day r; redis_error := None |},
       (bool_decide (visitorID ∉ members), None))
  end.

(** [SCAN] with the pattern [prefix*], then [SCARD] of every key found. *)
Definition Redis_GetUV (r : RedisRepository) (shortCode : string)
  : Z * option error :=
  match redis_error r with
  | Some e => (0, Some e)
  | None =>
      (map_fold (fun key members total =>
                   if strings.HasPrefix key (uvKey shortCode +:+ ":")
                   then total + Z.of_nat (size members) else total)
         0 (sets r), None)
  end.

Definition Redis_AddSource (r : RedisRepository) (shortCode source : string)
  : RedisRepository * option error :=
  let dailyKey := sourceKey shortCode +:+ ":" +:+ source +:+ ":" +:+ clock_day r in
  let '(r1, (_, err)) := incr r dailyKey in (r1, err).

(** [strings.LastIndex(s, ":")], [None] for -1. *)
Fixpoint lastIndexColon (s : string) (i : nat) (found : option nat) : option nat :=
  match s with
  | EmptyString => found
  | String c s' =>
      lastIndexColon s' (S i) (if Ascii.eqb c ":" then Some i else found)
  end.

Definition sourceNameOfKey (shortCode key : string) : string :=
  let sourceName :=
    strings.drop (String.length (sourceKey shortCode) + 1) key in
  match lastIndexColon sourceName 0 None with
  | Some (S idx) => String.substring 0 (S idx) sourceName
  | _ => sourceName
  end.

Definition Redis_GetSources (r : RedisRepository) (shortCode : string)
  : gmap string Z * option error :=
  match redis_error r with
  | Some e => (∅, Some e)
  | None =>
      (map_fold (fun key count (sources : gmap string Z) =>
                   if strings.HasPrefix key (sourceKey shortCode +:+ ":")
                   then
                     let name := sourceNameOfKey shortCode key in
                     <[name := default 0 (sources !! name) + count]> sources
                   else sources)
         ∅ (ints r), None)
  end.

#[global] Instance RedisRepository_impl : RedisRepositoryInterface RedisRepository :=
  {| SaveShortLink := Redis_SaveShortLink;
     GetShortLink := Redis_GetShortLink;
     IncrementPV := Redis_IncrementPV;
     GetPV := Redis_GetPV;
     AddUV := Redis_AddUV;
     GetUV := Redis_GetUV;
     AddSource := Redis_AddSource;
     GetSources := Redis_GetSources |}.

End repository.
Import repository.

(** ** [internal/service/bloom.go]

    [reported] holds the codes for which [BF.EXISTS] answers 1: the codes
    added and the false positives of the filter.  [module_loaded = false]
    is a server without the RedisBloom module ([BF.*] commands fail), on
    which the service falls back to plain keys.  The module is there or
    not for a whole run; a [BF.*] command that fails alone is outside the
    model. *)

Record BloomService := {
  reported : gset string;
  fallback_keys : gset string;
  module_loaded : bool;
  bloom_error : option error
}.

Definition Bloom_Add (bs : BloomService) (shortCode : string)
  : BloomService * option error :=
  match bloom_error bs with
  | Some e => (bs, Some e)
  | None =>
      if module_loaded bs then
        ({| reported := {[shortCode]} ∪ reported bs;
            fallback_keys := fallback_keys bs;
            module_loaded := true; bloom_error := None |}, None)
      else
        ({| reported := reported bs;
            fallback_keys := {[shortCode]} ∪ fallback_keys bs;
            module_loaded := false; bloom_error := None |}, None)
  end.

Definition Bloom_Exists (bs : BloomService) (shortCode : string)
  : bool * option error :=
  match bloom_error bs with
  | Some e => (false, Some e)
  | None =>
      if module_loaded bs
      then (bool_decide (shortCode ∈ reported bs), None)
      else (bool_decide (shortCode ∈ fallback_keys bs), None)
  end.

#[global] Instance BloomService_impl : BloomServiceInterface BloomService :=
  {| Add := Bloom_Add; Exists := Bloom_Exists |}.

(** ** A small standard library, to run the services on examples

    A stand-in for [net/url], [fmt], [encoding/json] and [time] on the
    inputs of the examples: URLs of the shape [scheme://host/path?query]
    without escapes, parameter maps with string values.  A reference that
    starts with a colon has no scheme and does not parse. *)

Module examplelib.

Record SimpleURL := {
  Scheme : string;
  Host : string;
  Path : string;
  RawQuery : string
}.

(** [s] up to the first [sep], and what follows it. *)
Fixpoint cut (s : string) (sep : ascii) : string * option string :=
  match s with
  | EmptyString => (EmptyString, None)
  | String c s' =>
      if Ascii.eqb c sep then (EmptyString, Some s')
      else let '(before, after) := cut s' sep in (String c before, after)
  end.

Definition Parse (rawURL : string) : option SimpleURL :=
  let '(rest, query) := cut rawURL "?" in
  let query := default EmptyString query in
  match rest with
  | String ":" _ => None
  | _ =>
      match cut rest ":" with
      | (scheme, Some (String "/" (String "/" authority))) =>
          let '(host, path) := cut authority "/" in
          Some {| Scheme := scheme; Host := host;
                  Path := match path with
                          | Some p => String "/" p
                          | None => EmptyString
                          end;
                  RawQuery := query |}
      | _ => Some {| Scheme := EmptyString; Host := EmptyString;
                     Path := rest; RawQuery := query |}
      end
  end.

Definition String_ (u : SimpleURL) : string :=
  (if decide (Scheme u = "") then "" else Scheme u +:+ "://")
  +:+ Host u +:+ Path u
  +:+ (if decide (RawQuery u = "") then "" else "?" +:+ RawQuery u).

(** [ParseQuery]: the pairs [key=value] between the ampersands. *)
Definition ParseQuery (query : string) : gmap string (list string) :=
  fold_left
    (fun (m : gmap string (list string)) (pair : string) =>
       if decide (pair = "") then m
       else let '(key, value) := cut pair "=" in
            <[key := (default [] (m !! key) ++ [default EmptyString value])%list]> m)
    (strings.Split query "&") ∅.

(** Insertion into a list of pairs sorted by key. *)
Fixpoint insertSorted (kv : string * list string)
    (l : list (string * list string)) : list (string * list string) :=
  match l with
  | [] => [kv]
  | kv' :: l' =>
      if String.leb (fst kv) (fst kv') then kv :: l
      else kv' :: insertSorted kv l'
  end.

(** [Values.Encode]: [key=value] pairs sorted by key. *)
Definition Encode (v : gmap string (list string)) : string :=
  let sorted := fold_right insertSorted [] (map_to_list v) in
  let pairs :=
    concat (map (fun kv => map (fun value => fst kv +:+ "=" +:+ value) (snd kv))
              sorted) in
  match pairs with
  | [] => EmptyString
  | first :: others =>
      fold_left (fun acc pair => acc +:+ "&" +:+ pair) others first
  end.

#[global] Instance lib : GoStdlib :=
  {| JSONValue := string;
     fmt_v := fun m => "map[" +:+ Encode ((fun v => [v]) <$> m) +:+ "]";
     json_Marshal := fun m => Some ("{" +:+ Encode ((fun v => [v]) <$> m) +:+ "}");
     time_Parse_RFC3339 := fun _ => inr (DriverError "parsing time");
     URL := SimpleURL;
     url_Parse := Parse;
     url_Host := Host;
     url_Query := fun u => ParseQuery (RawQuery u);
     url_Values_Encode := Encode;
     url_setRawQuery := fun u q =>
       {| Scheme := Scheme u; Host := Host u; Path := Path u; RawQuery := q |};
     url_String := String_ |}.

End examplelib.

(** ** Vocabulary of the statements about the collision loop *)

Section CollisionLoopVocabulary.
Context `{GoStdlib} {M R B : Type}.
Context `{MySQLRepositoryInterface M, RedisRepositoryInterface R,
          BloomServiceInterface B}.

(** The candidate of attempt [i] at [length]. *)
Definition candidate (url : string) (length i : Z) : string :=
  encoder.Encode (u64 (hashString url + i)) length.

(** The candidates in the order in which the loop derives them. *)
Definition candidates (url : string) : list string :=
  flat_map (fun length => map (candidate url length) (seqZ 0 1000)) [4; 5; 6].

(** The Bloom filter answers "possibly exists", without error. *)
Definition indexReportsPresent (s : ShortLinkService (M:=M) (R:=R) (B:=B))
    (shortCode : string) : bool :=
  bool_decide (Exists (bloomSvc s) shortCode = (true, None)).

(** The existence check of MySQL answers [true], with or without error. *)
Definition storeReportsPresent (s : ShortLinkService (M:=M) (R:=R) (B:=B))
    (shortCode : string) : bool :=
  fst (CheckExistsByCode (mysqlRepo s) shortCode).

(** The loop finds a candidate used: the filter reports it, or else the
    existence check does. *)
Definition foundUsed (s : ShortLinkService (M:=M) (R:=R) (B:=B))
    (shortCode : string) : bool :=
  indexReportsPresent s shortCode || storeReportsPresent s shortCode.

(** The loop as a search through a list of candidates. *)
Fixpoint searchFree (s : ShortLinkService (M:=M) (R:=R) (B:=B))
    (cs : list string) : option string * list Call :=
  match cs with
  | [] => (None, [])
  | c :: cs' =>
      let '(free, calls) := tryCode s c in
      if free then (Some c, calls)
      else let '(r, calls') := searchFree s cs' in (r, (calls ++ calls')%list)
  end.

(** The backend calls made for the candidates [cs], one after the other. *)
Definition callsOf (s : ShortLinkService (M:=M) (R:=R) (B:=B))
    (cs : list string) : list Call :=
  flat_map (fun c => snd (tryCode s c)) cs.

(** [Generate] gets as far as the collision loop: the request is well
    formed and neither the cache nor the URL lookup yields an entry. *)
Definition reachesCollisionLoop (s : ShortLinkService (M:=M) (R:=R) (B:=B))
    (req : GenerateRequest) : Prop :=
  req_URL req <> ""
  /\ (exists expireAt, parseExpireAt (req_ExpireAt req) = inl expireAt)
  /\ cachedShortLink s (buildCacheKey (req_URL req) (req_Params req)) = None
  /\ (exists err, GetShortLinkByURL (mysqlRepo s) (req_URL req) = inr err).

(** The rule for one candidate as the specification words it: the store is
    asked when the filter reports the candidate or fails, and a candidate
    the filter reports absent is taken without asking the store. *)
Definition tryCode_as_specified (s : ShortLinkService (M:=M) (R:=R) (B:=B))
    (shortCode : string) : bool * list Call :=
  let '(exists_, err) := Exists (bloomSvc s) shortCode in
  if bool_decide (err <> None) || exists_ then
    let '(actualExists, _) := CheckExistsByCode (mysqlRepo s) shortCode in
    (negb actualExists,
     [CallBloomExists shortCode; CallCheckExistsByCode shortCode])
  else (true, [CallBloomExists shortCode]).

(** The cache does not answer for [shortCode]: an error, or an empty value. *)
Definition cacheMiss (s : ShortLinkService (M:=M) (R:=R) (B:=B))
    (shortCode : string) : Prop :=
  snd (GetShortLink (redisRepo s) shortCode) <> None
  \/ fst (GetShortLink (redisRepo s) shortCode) = "".

End CollisionLoopVocabulary.

(** A MySQL repository whose [Count] query fails with [count_error] while
    its other statements work: a timeout on the existence check. *)
Record MySQLWithFaults := {
  base : MySQLRepository;
  count_error : option error
}.

#[global] Instance MySQLWithFaults_impl : MySQLRepositoryInterface MySQLWithFaults :=
  {| mysql_SaveShortLink := fun r sl =>
       let '(b, err) := MySQL_SaveShortLink (base r) sl in
       ({| base := b; count_error := count_error r |}, err);
     GetShortLinkByCode := fun r => MySQL_GetShortLinkByCode (base r);
     GetShortLinkByURL := fun r => MySQL_GetShortLinkByURL (base r);
     CheckExistsByCode := fun r shortCode =>
       match count_error r with
       | Some e => (false, Some e)
       | None => MySQL_CheckExistsByCode (base r) shortCode
       end |}.

(** ** Vocabulary of the statements about sources and query parameters *)

(** The platforms [extractSource] knows, in the order in which it tests
    them: the keywords looked for in the host, and the label returned. *)
Definition knownSources : list (list string * string) :=
  [ (["google"], "google");
    (["baidu"], "baidu");
    (["bing"], "bing");
    (["weibo"], "weibo");
    (["weixin"; "mp.weixin.qq.com"], "wechat");
    (["qq"], "qq");
    (["zhihu"], "zhihu") ].

(** The host without a leading [www.]. *)
Definition stripWWW (host : string) : string :=
  if strings.HasPrefix host "www." then strings.drop 4 host else host.

(** The second-to-last of the labels that the dots separate, or the host
    itself when it has a single label. *)
Definition secondToLastLabel (host : string) : string :=
  match rev (strings.Split host ".") with
  | _ :: label :: _ => label
  | _ => host
  end.

(** The source of a host, as the specification words it: the label of the
    first known platform one of whose keywords occurs in the host, and the
    second-to-last label when there is none. *)
Definition sourceOfHost (host : string) : string :=
  let h := stripWWW host in
  match find (fun entry => existsb (strings.Contains h) (fst entry))
          knownSources with
  | Some entry => snd entry
  | None => secondToLastLabel h
  end.

(** The supplied parameters laid over the parameters of the stored URL:
    a supplied key carries the supplied value alone, any other key keeps
    its values. *)
Definition overlayQuery (queryParams : gmap string string)
    (query : gmap string (list string)) : gmap string (list string) :=
  ((fun value => [value]) <$> queryParams) ∪ query.

(** A Redis repository on which reading the source counters fails with
    [sources_error] while its other commands work. *)
Record RedisWithFaults := {
  rbase : RedisRepository;
  sources_error : option error
}.

Definition withBase {A : Type} (r : RedisWithFaults)
    (res : RedisRepository * A) : RedisWithFaults * A :=
  ({| rbase := fst res; sources_error := sources_error r |}, snd res).

#[global] Instance RedisWithFaults_impl : RedisRepositoryInterface RedisWithFaults :=
  {| SaveShortLink := fun r shortCode originalURL ttl =>
       withBase r (Redis_SaveShortLink (rbase r) shortCode originalURL ttl);
     GetShortLink := fun r => Redis_GetShortLink (rbase r);
     IncrementPV := fun r shortCode =>
       withBase r (Redis_IncrementPV (rbase r) shortCode);
     GetPV := fun r => Redis_GetPV (rbase r);
     AddUV := fun r shortCode visitorID =>
       withBase r (Redis_AddUV (rbase r) shortCode visitorID);
     GetUV := fun r => Redis_GetUV (rbase r);
     AddSource := fun r shortCode source =>
       withBase r (Redis_AddSource (rbase r) shortCode source);
     GetSources := fun r shortCode =>
       match sources_error r with
       | Some e => (∅, Some e)
       | None => Redis_GetSources (rbase r) shortCode
       end |}.

(** A membership index that reports every code, as a saturated filter
    does. *)
Inductive FullBloom : Type := fullBloom.

#[global] Instance FullBloom_impl : BloomServiceInterface FullBloom :=
  {| Add := fun b _ => (b, None);
     Exists := fun _ _ => (true, None) |}.

(** ** Example states *)

Module examples.
Export examplelib.

Definition emptyMySQL : MySQLRepository :=
  {| short_links := []; auto_increment := 1; db_error := None |}.

Definition emptyRedis : RedisRepository :=
  {| strs := ∅; ints := ∅; sets := ∅; clock_day := "2024-05-01";
     redis_error := None |}.

Definition emptyBloom : BloomService :=
  {| reported := ∅; fallback_keys := ∅; module_loaded := true;
     bloom_error := None |}.

(** A service that has not issued any code yet. *)
Definition freshService
  : ShortLinkService (M:=MySQLRepository) (R:=RedisRepository) (B:=BloomService) :=
  {| mysqlRepo := emptyMySQL; redisRepo := emptyRedis; bloomSvc := emptyBloom;
     domain := "https://s.example.com" |}.

Definition requestA : GenerateRequest :=
  {| req_URL := "https://a.com"; req_Params := None; req_ExpireAt := "" |}.

(** The filter reports the first candidate of [requestA], which no row of
    the table uses: a false positive, or the code of a row deleted since. *)
Definition staleBloomService
  : ShortLinkService (M:=MySQLRepository) (R:=RedisRepository) (B:=BloomService) :=
  {| mysqlRepo := emptyMySQL; redisRepo := emptyRedis;
     bloomSvc := {| reported := {["CG62"]}; fallback_keys := ∅;
                    module_loaded := true; bloom_error := None |};
     domain := "https://s.example.com" |}.

Definition rowOther (status : Z) : ShortLink :=
  {| ID := 1; ShortCode := "CG62"; OriginalURL := "https://other.com";
     Params := None; CreatedAt := 100; ExpireAt := None; Status := status |}.

(** The table holds a row with the first candidate of [requestA], and the
    filter does not know the code: it was emptied, or [Add] failed. *)
Definition emptiedBloomService
  : ShortLinkService (M:=MySQLRepository) (R:=RedisRepository) (B:=BloomService) :=
  {| mysqlRepo := {| short_links := [rowOther 1]; auto_increment := 2;
                     db_error := None |};
     redisRepo := emptyRedis; bloomSvc := emptyBloom;
     domain := "https://s.example.com" |}.

(** The only row with code CG62 is disabled, and the cache is empty. *)
Definition disabledService
  : ShortLinkService (M:=MySQLRepository) (R:=RedisRepository) (B:=BloomService) :=
  {| mysqlRepo := {| short_links := [rowOther 0]; auto_increment := 2;
                     db_error := None |};
     redisRepo := emptyRedis; bloomSvc := emptyBloom;
     domain := "https://s.example.com" |}.

Definition timeout : error := DriverError "context deadline exceeded".

(** Nothing is stored, and the filter reports every code. *)
Definition fullBloomService
  : ShortLinkService (M:=MySQLRepository) (R:=RedisRepository) (B:=FullBloom) :=
  {| mysqlRepo := emptyMySQL; redisRepo := emptyRedis; bloomSvc := fullBloom;
     domain := "https://s.example.com" |}.

(** The cache holds the URL of the code ABCD. *)
Definition cachedService
  : ShortLinkService (M:=MySQLRepository) (R:=RedisRepository) (B:=BloomService) :=
  {| mysqlRepo := emptyMySQL;
     redisRepo := {| strs := {["sl:ABCD" := "https://x.com?a=0&c=3"]};
                     ints := ∅; sets := ∅; clock_day := "2024-05-01";
                     redis_error := None |};
     bloomSvc := emptyBloom; domain := "https://s.example.com" |}.

Definition suppliedParams : gmap string string :=
  {["a" := "1"; "b" := "2"]}.

(** Counters of the code CG62 after seven visits of two visitors, five of
    them from a search engine. *)
Definition visitedRedis : RedisRepository :=
  {| strs := ∅;
     ints := {["sl:pv:CG62" := 7; "sl:source:CG62:google:2024-05-01" := 5;
               "sl:source:CG62:direct:2024-05-01" := 2]};
     sets := {["sl:uv:CG62:2024-05-01" :=
                 {["2024-05-01:10.0.0.1"; "2024-05-01:10.0.0.2"]}]};
     clock_day := "2024-05-01"; redis_error := None |}.

(** The same counters, on a server where reading the sources times out. *)
Definition sourcesDownService : AnalyticsService (R:=RedisWithFaults) :=
  {| as_redisRepo := {| rbase := visitedRedis; sources_error := Some timeout |} |}.

Definition visitedService : AnalyticsService (R:=RedisRepository) :=
  {| as_redisRepo := visitedRedis |}.

(** The existence check times out, everything else works. *)
Definition timeoutService
  : ShortLinkService (M:=MySQLWithFaults) (R:=RedisRepository) (B:=BloomService) :=
  {| mysqlRepo := {| base := emptyMySQL; count_error := Some timeout |};
     redisRepo := emptyRedis; bloomSvc := emptyBloom;
     domain := "https://s.example.com" |}.

End examples.

(** ** More of the repository *)



(** The number that a string of symbols denotes in base 32, most
    significant symbol first, continuing from [acc] and without bound;
    [None] when a byte is not a symbol of the alphabet. *)
Fixpoint base32Value (s : string) (acc : Z) : option Z :=
  match s with
  | EmptyString => Some acc
  | String c s' =>
      match encoder.alphabetIndex c with
      | Some index => base32Value s' (acc * 32 + index)
      | None => None
      end
  end.

(** The string holds ASCII characters only: every byte is below 0x80, so
    that its runes are its bytes and [strings.ToUpper] maps it byte by
    byte. *)
Fixpoint isASCII (s : string) : bool :=
  match s with
  | EmptyString => true
  | String c s' => (N_of_ascii c <? 128)%N && isASCII s'
  end.

(** The three maps of the Redis repository stand for one keyspace when
    every key is of the kind that its prefix names: an entry of a short
    link (under [sl:] and a code or a cache key) does not lie under a
    prefix of the counters, a counter lies under [sl:pv:] or [sl:source:]
    and is positive (it exists from its first [INCR] on), and a set of
    visitors lies under [sl:uv:].  In such a keyspace no [INCR] or [SADD]
    of the analytics meets a value of another type, and the scans of
    [GetUV] and [GetSources] meet the keys of their own kind only. *)
Definition separateKeyspace (r : RedisRepository) : Prop :=
  map_Forall (fun key (_ : string) =>
                strings.HasPrefix key PVKeyPrefix = false
                /\ strings.HasPrefix key UVKeyPrefix = false
                /\ strings.HasPrefix key SourceKeyPrefix = false) (strs r)
  /\ map_Forall (fun key (n : Z) =>
                   (strings.HasPrefix key PVKeyPrefix = true
                    \/ strings.HasPrefix key SourceKeyPrefix = true)
                   /\ 0 < n) (ints r)
  /\ map_Forall (fun key (_ : gset string) =>
                   strings.HasPrefix key UVKeyPrefix = true) (sets r).

(** The largest [int64]: [INCR] fails on a counter that holds it. *)
Definition maxInt64 : Z := 2 ^ 63 - 1.

(** [expire_at IS NOT NULL AND expire_at < now]. *)
Definition expiredBefore (now : Time) (row : ShortLink) : bool :=
  match ExpireAt row with
  | Some t => (t <? now)%Z
  | None => false
  end.

(** [MySQLRepository.CleanupExpiredLinks], with [time.Now()] as [now]: the
    rows deleted are counted in [RowsAffected]. *)
Definition MySQL_CleanupExpiredLinks (now : Time) (r : MySQLRepository)
  : MySQLRepository * (Z * option error) :=
  match db_error r with
  | Some e => (r, (0, Some e))
  | None =>
      ({| short_links :=
            filter (fun row => expiredBefore now row = false) (short_links r);
          auto_increment := auto_increment r;
          db_error := None |},
       (countRows (expiredBefore now) (short_links r), None))
  end.

(** [MySQLRepository.GetTotalLinksCount]. *)
Definition MySQL_GetTotalLinksCount (r : MySQLRepository) : Z * option error :=
  match db_error r with
  | Some e => (0, Some e)
  | None => (Z.of_nat (length (short_links r)), None)
  end.

(** ** More example states *)

Module examples2.
Export examples.

Definition rowExpired : ShortLink :=
  {| ID := 2; ShortCode := "AAAB"; OriginalURL := "https://b.com";
     Params := None; CreatedAt := 100; ExpireAt := Some 150; Status := 1 |}.

(** A table with a link without expiry and a link that expired at 150. *)
Definition sweepTable : MySQLRepository :=
  {| short_links := [rowOther 1; rowExpired]; auto_increment := 3;
     db_error := None |}.

Definition sweepService
  : ShortLinkService (M:=MySQLRepository) (R:=RedisRepository) (B:=BloomService) :=
  {| mysqlRepo := sweepTable; redisRepo := emptyRedis; bloomSvc := emptyBloom;
     domain := "https://s.example.com" |}.

(** A request for the URL of [requestA], with a parameter template. *)
Definition requestB : GenerateRequest :=
  {| req_URL := "https://a.com"; req_Params := Some {["utm" := "mail"]};
     req_ExpireAt := "" |}.

(** The visits of a code by source. *)
Definition threeSources : gmap string Z :=
  {["google" := 5; "direct" := 2; "bing" := 9]}.

End examples2.

(** ** Theorems *)



Section EncoderFacts.
Import encoder.

Lemma alphabetLen_32 : alphabetLen = 32.
Proof. reflexivity. Qed.

(** Every digit below 32 is written as a symbol that upper-casing leaves
    alone and that the decoder maps back to the digit. *)
Lemma digit_symbol_index (d : Z) :
  0 <= d < 32 ->
  alphabetIndex (strings.upperByte (alphabetAt d)) = Some d.
Proof.
  intros Hd.
  assert (Hn : d = Z.of_nat (Z.to_nat d)) by lia.
  assert (Hlt : (Z.to_nat d < 32)%nat) by lia.
  rewrite Hn. generalize dependent (Z.to_nat d). intros n _ Hlt.
  do 32 (destruct n as [|n]; [reflexivity|]). lia.
Qed.

Lemma u64_step (a d : Z) : u64 (u64 (u64 a * 32) + d) = u64 (a * 32 + d).
Proof.
  unfold u64.
  rewrite Z.add_mod_idemp_l by lia.
  rewrite <- (Z.add_mod_idemp_l (a * 32)) by lia.
  rewrite <- (Z.add_mod_idemp_l (a mod 2 ^ 64 * 32)) by lia.
  rewrite Z.mul_mod_idemp_l by lia. reflexivity.
Qed.

Lemma decode_encodeLoop (k : nat) :
  forall (n : Z) (rest : string) (r : Z),
    0 <= n -> 0 <= r < 2 ^ 64 ->
    decodeLoop (strings.ToUpper (encodeLoop k n rest)) r =
    decodeLoop (strings.ToUpper rest)
      (u64 (r * 32 ^ Z.of_nat k + n mod 32 ^ Z.of_nat k)).
Proof.
  induction k as [|k IH]; intros n rest r Hn Hr.
  - cbn [encodeLoop]. change (32 ^ Z.of_nat 0) with 1.
    rewrite Z.mod_1_r, Z.mul_1_r, Z.add_0_r.
    unfold u64. rewrite Z.mod_small by lia. reflexivity.
  - cbn [encodeLoop]. rewrite alphabetLen_32.
    rewrite IH by (try apply Z.div_pos; lia).
    cbn [strings.ToUpper decodeLoop].
    assert (Hd : 0 <= n mod 32 < 32) by (apply Z.mod_pos_bound; lia).
    rewrite (digit_symbol_index _ Hd), alphabetLen_32, u64_step.
    f_equal. f_equal.
    rewrite Nat2Z.inj_succ, Z.pow_succ_r by lia.
    rewrite (Z.rem_mul_r n 32 (32 ^ Z.of_nat k)) by lia.
    ring.
Qed.

End EncoderFacts.

(** The cases of the tests of the encoder, and test vectors of FNV-1a. *)
Lemma Encode_Decode_examples :
  encoder.Encode 0 4 = "AAAA"
  /\ encoder.Encode 33 4 = "AABB"
  /\ encoder.Encode 1000000 4 = "6QSA"
  /\ encoder.Encode 123456789 6 = "DVXTIV"
  /\ encoder.Encode 1 3 = "AAAB"
  /\ encoder.Encode 1 10 = "AAAB"
  /\ encoder.Encode 31 4 = "AAA7"
  /\ encoder.Decode "6QSA" = inl 1000000
  /\ encoder.Decode "aaab" = inl 1
  /\ encoder.Decode "AAA1" = inr {| encoder.Char := "1" |}
  /\ encoder.MaxCapacity 6 = 1073741824.
Proof. vm_compute. repeat split. Qed.

Lemma hashString_examples :
  hashString "" = 0xcbf29ce484222325
  /\ hashString "a" = 0xaf63dc4c8601ec8c
  /\ hashString "foobar" = 0x85944171f73967e8.
Proof. vm_compute. repeat split. Qed.

(** C5. Round trip of the encoder: for a length [L] in {4,5,6} and a 64-bit
    unsigned [n], decoding the code of [n mod 32^L] at length [L] gives
    [n mod 32^L] back. *)
Theorem Encode_Decode_roundtrip (L n : Z) :
  L = 4 \/ L = 5 \/ L = 6 ->
  0 <= n < 2 ^ 64 ->
  encoder.Decode (encoder.Encode (n mod 32 ^ L) L) = inl (n mod 32 ^ L).
Proof.
  intros HL Hn.
  assert (Hpow : 0 < 32 ^ L <= 32 ^ 6).
  { destruct HL as [-> | [-> | ->]]; lia. }
  assert (Hm : 0 <= n mod 32 ^ L < 32 ^ L) by (apply Z.mod_pos_bound; lia).
  unfold encoder.Decode, encoder.Encode.
  assert (Hclamp : encoder.clampLength L = L).
  { destruct HL as [-> | [-> | ->]]; reflexivity. }
  rewrite Hclamp, decode_encodeLoop by lia.
  cbn [strings.ToUpper encoder.decodeLoop].
  rewrite Z2Nat.id by lia.
  rewrite Z.mul_0_l, Z.add_0_l, Z.mod_mod by lia.
  unfold u64. rewrite Z.mod_small by lia. reflexivity.
Qed.

Lemma Encode_Decode_roundtrip_witness :
  (5 = 4 \/ 5 = 5 \/ 5 = 6) /\ 0 <= 123456789012345 < 2 ^ 64 /\
  encoder.Decode (encoder.Encode (123456789012345 mod 32 ^ 5) 5)
  = inl (123456789012345 mod 32 ^ 5).
Proof.
  split; [auto|]. split; [lia|].
  apply (Encode_Decode_roundtrip 5 123456789012345); [auto | lia].
Defined.

(** ** The collision loop *)

Section CollisionLoop.
Context `{GoStdlib} {M R B : Type}.
Context `{MySQLRepositoryInterface M, RedisRepositoryInterface R,
          BloomServiceInterface B}.
Implicit Types (s : ShortLinkService (M:=M) (R:=R) (B:=B)).

Lemma searchFree_app s (cs1 cs2 : list string) :
  searchFree s (cs1 ++ cs2) =
  match searchFree s cs1 with
  | (Some c, calls) => (Some c, calls)
  | (None, calls) =>
      let '(r, calls') := searchFree s cs2 in (r, (calls ++ calls')%list)
  end.
Proof.
  induction cs1 as [|c cs1 IH]; cbn [searchFree app].
  - destruct (searchFree s cs2); reflexivity.
  - destruct (tryCode s c) as [[] calls]; [reflexivity|].
    rewrite IH. destruct (searchFree s cs1) as [[c'|] calls1]; [reflexivity|].
    destruct (searchFree s cs2) as [r calls2]. by rewrite app_assoc.
Qed.

Lemma attemptLoop_searchFree s (hash length : Z) (k : nat) :
  forall i : Z,
    attemptLoop s hash length k i =
    searchFree s
      (map (fun j => encoder.Encode (u64 (hash + j)) length)
         (seqZ i (Z.of_nat k))).
Proof.
  induction k as [|k IH]; intros i.
  - reflexivity.
  - rewrite seqZ_cons by lia. cbn [attemptLoop map searchFree].
    destruct (tryCode s _) as [[] calls]; [reflexivity|].
    rewrite IH. replace (Z.pred (Z.of_nat (S k))) with (Z.of_nat k) by lia.
    reflexivity.
Qed.

Lemma lengthLoop_searchFree s (url : string) (k : nat) :
  forall length : Z,
    lengthLoop s url k length =
    match searchFree s
            (flat_map (fun len => map (candidate url len) (seqZ 0 1000))
               (seqZ length (Z.of_nat k))) with
    | (Some c, calls) => (inl c, calls)
    | (None, calls) => (inr ErrMaxCapacityReached, calls)
    end.
Proof.
  induction k as [|k IH]; intros length.
  - reflexivity.
  - rewrite (seqZ_cons length) by lia. cbn [lengthLoop flat_map].
    rewrite searchFree_app, attemptLoop_searchFree.
    change (Z.of_nat retryBudget) with 1000.
    fold (candidate url length).
    destruct (searchFree s (map (candidate url length) (seqZ 0 1000)))
      as [[c|] calls]; [reflexivity|].
    rewrite IH. replace (Z.pred (Z.of_nat (S k))) with (Z.of_nat k) by lia.
    replace (Z.succ length) with (length + 1) by lia.
    destruct (searchFree s _) as [[c|] calls']; reflexivity.
Qed.

(** [generateWithCollision] searches the list of the 3000 candidates. *)
Lemma generateWithCollision_searchFree s (url : string) :
  generateWithCollision s url =
  match searchFree s (candidates url) with
  | (Some c, calls) => (inl c, calls)
  | (None, calls) => (inr ErrMaxCapacityReached, calls)
  end.
Proof. apply lengthLoop_searchFree. Qed.

Lemma tryCode_fst s (c : string) : fst (tryCode s c) = negb (foundUsed s c).
Proof.
  unfold tryCode, foundUsed, indexReportsPresent, storeReportsPresent.
  destruct (Exists (bloomSvc s) c) as [[] [e|]];
    destruct (CheckExistsByCode (mysqlRepo s) c) as [[] ?]; reflexivity.
Qed.

Lemma tryCode_snd s (c : string) :
  snd (tryCode s c) =
  if indexReportsPresent s c then [CallBloomExists c]
  else [CallBloomExists c; CallCheckExistsByCode c].
Proof.
  unfold tryCode, indexReportsPresent.
  destruct (Exists (bloomSvc s) c) as [[] [e|]];
    destruct (CheckExistsByCode (mysqlRepo s) c) as [[] ?]; reflexivity.
Qed.

(** The outcome of a search: either every candidate is found used, or the
    search stops at the first candidate that is not. *)
Lemma searchFree_spec s (cs : list string) :
  (fst (searchFree s cs) = None
   /\ Forall (fun c => foundUsed s c = true) cs
   /\ snd (searchFree s cs) = callsOf s cs)
  \/ (exists pre c post,
        cs = pre ++ c :: post
        /\ Forall (fun c' => foundUsed s c' = true) pre
        /\ foundUsed s c = false
        /\ fst (searchFree s cs) = Some c
        /\ snd (searchFree s cs) = callsOf s (pre ++ [c])).
Proof.
  induction cs as [|c cs IH]; cbn [searchFree].
  - left. repeat split. constructor.
  - pose proof (tryCode_fst s c) as Hf.
    destruct (tryCode s c) as [free calls] eqn:Ht. cbn [fst] in Hf.
    destruct free.
    + right. exists [], c, cs. cbn.
      repeat split; [constructor | by destruct (foundUsed s c) |].
      unfold callsOf. cbn. by rewrite Ht, app_nil_r.
    + assert (Hu : foundUsed s c = true) by (by destruct (foundUsed s c)).
      destruct (searchFree s cs) as [r calls'] eqn:Hs. cbn [fst snd] in *.
      destruct IH as [(-> & Hall & ->) | (pre & c' & post & -> & Hall & Hc' & -> & ->)].
      * left. repeat split; [by constructor |].
        unfold callsOf. cbn. by rewrite Ht.
      * right. exists (c :: pre), c', post.
        repeat split; [by constructor | done |].
        unfold callsOf. cbn. by rewrite Ht.
Qed.

Lemma callsOf_app s (l1 l2 : list string) :
  callsOf s (l1 ++ l2) = (callsOf s l1 ++ callsOf s l2)%list.
Proof. apply flat_map_app. Qed.

Lemma In_callsOf_bloom s (l : list string) (c : string) :
  In (CallBloomExists c) (callsOf s l) <-> In c l.
Proof.
  unfold callsOf. rewrite in_flat_map. split.
  - intros (c' & Hin & Hc). rewrite tryCode_snd in Hc.
    destruct (indexReportsPresent s c'); cbn in Hc;
      intuition (try discriminate); congruence.
  - intros Hin. exists c. split; [done|]. rewrite tryCode_snd.
    destruct (indexReportsPresent s c); cbn; auto.
Qed.

Lemma In_callsOf_check s (l : list string) (c : string) :
  In (CallCheckExistsByCode c) (callsOf s l) <->
  In c l /\ indexReportsPresent s c = false.
Proof.
  unfold callsOf. rewrite in_flat_map. split.
  - intros (c' & Hin & Hc). rewrite tryCode_snd in Hc.
    destruct (indexReportsPresent s c') eqn:Hp; cbn in Hc;
      intuition (try discriminate); congruence.
  - intros [Hin Hp]. exists c. split; [done|]. rewrite tryCode_snd, Hp.
    cbn; auto.
Qed.

(** In the log, a call to the existence check comes right after the call
    to the filter for the same code. *)
Lemma callsOf_check_preceded s (l : list string) :
  forall (pre post : list Call) (c : string),
    callsOf s l = (pre ++ CallCheckExistsByCode c :: post)%list ->
    exists pre', pre = (pre' ++ [CallBloomExists c])%list.
Proof.
  induction l as [|c0 l IH]; intros pre post c Heq.
  - by destruct pre.
  - unfold callsOf in Heq. cbn [flat_map] in Heq. fold (callsOf s l) in Heq.
    rewrite tryCode_snd in Heq.
    destruct (indexReportsPresent s c0); cbn in Heq.
    + destruct pre as [|x pre]; [discriminate|].
      injection Heq as <- Heq. apply IH in Heq as [pre' ->].
      by exists (CallBloomExists c0 :: pre').
    + destruct pre as [|x pre]; [discriminate|].
      injection Heq as <- Heq.
      destruct pre as [|y pre].
      * injection Heq as <- _. by exists [].
      * injection Heq as <- Heq. apply IH in Heq as [pre' ->].
        by exists (CallBloomExists c0 :: CallCheckExistsByCode c0 :: pre').
Qed.

Lemma In_candidates (url c : string) :
  In c (candidates url) <->
  exists length i, 4 <= length <= 6 /\ 0 <= i < 1000
                   /\ c = candidate url length i.
Proof.
  unfold candidates. rewrite in_flat_map. split.
  - intros (length & Hl & Hc). apply in_map_iff in Hc as (i & <- & Hi).
    apply list_elem_of_In, elem_of_seqZ in Hi.
    exists length, i. cbn in Hl. intuition lia.
  - intros (length & i & Hl & Hi & ->). exists length. split.
    + assert (length = 4 \/ length = 5 \/ length = 6) as [-> | [-> | ->]] by lia;
        cbn; auto.
    + apply in_map. apply list_elem_of_In, elem_of_seqZ. lia.
Qed.

(** The only error of [generateWithCollision] is [ErrMaxCapacityReached]. *)
Lemma generateWithCollision_error s (url : string) (err : error) :
  fst (generateWithCollision s url) = inr err -> err = ErrMaxCapacityReached.
Proof.
  rewrite generateWithCollision_searchFree.
  destruct (searchFree s (candidates url)) as [[c|] calls]; cbn; congruence.
Qed.

(** What a run of [generateWithCollision] tried, returned and logged. *)
Lemma generateWithCollision_run s (url : string) :
  exists tried,
    snd (generateWithCollision s url) = callsOf s tried
    /\ (forall c, In c tried -> In c (candidates url))
    /\ ((fst (generateWithCollision s url) = inr ErrMaxCapacityReached
         /\ tried = candidates url
         /\ Forall (fun c => foundUsed s c = true) tried)
        \/ (exists pre c,
              tried = pre ++ [c]
              /\ fst (generateWithCollision s url) = inl c
              /\ Forall (fun c' => foundUsed s c' = true) pre
              /\ foundUsed s c = false)).
Proof.
  rewrite generateWithCollision_searchFree.
  destruct (searchFree_spec s (candidates url))
    as [(Hr & Hall & Hlog) | (pre & c & post & Hcs & Hall & Hc & Hr & Hlog)];
    destruct (searchFree s (candidates url)) as [r calls];
    cbn [fst snd] in *; subst r calls.
  - exists (candidates url). split; [done|]. split; [done|]. left. done.
  - exists (pre ++ [c]). split; [done|]. split.
    + intros c' Hin. rewrite Hcs. apply in_app_iff in Hin as [Hin | [<- | []]];
        apply in_app_iff; cbn; auto.
    + right. exists pre, c. done.
Qed.

(** A candidate whose existence check is in the log is returned exactly
    when the check answers [false]. *)
Lemma checked_candidate_returned_iff s (url c : string) :
  In (CallCheckExistsByCode c) (snd (generateWithCollision s url)) ->
  (fst (generateWithCollision s url) = inl c <->
   storeReportsPresent s c = false).
Proof.
  destruct (generateWithCollision_run s url) as (tried & -> & _ & Hres).
  intros Hin. apply In_callsOf_check in Hin as [Hin Hidx].
  assert (Hused : foundUsed s c = storeReportsPresent s c)
    by (unfold foundUsed; by rewrite Hidx).
  destruct Hres as [(-> & -> & Hall) | (pre & c' & -> & -> & Hall & Hc')].
  - rewrite Forall_forall in Hall. apply list_elem_of_In, Hall in Hin.
    rewrite <- Hused, Hin. split; discriminate.
  - rewrite <- Hused. split.
    + intros [= ->]. done.
    + intros Hfree. apply in_app_iff in Hin as [Hin | [<- | []]]; [|done].
      rewrite Forall_forall in Hall. apply list_elem_of_In, Hall in Hin.
      congruence.
Qed.

(** C1 (as the code has it). In the collision loop every candidate tried is
    first looked up in the membership index, and the durable-store existence
    check is made exactly for the candidates that the index reports absent
    or fails on, right after the index call; such a candidate is returned
    exactly when the check answers that the code is unused.  A candidate
    that the index reports as possibly existing is skipped without any
    durable-store check. *)
Theorem collision_loop_index_then_store s (url : string)
    (r : string + error) (calls : list Call) :
  generateWithCollision s url = (r, calls) ->
  (forall pre post c,
      calls = pre ++ CallCheckExistsByCode c :: post ->
      exists pre', pre = pre' ++ [CallBloomExists c])
  /\ (forall c, In (CallCheckExistsByCode c) calls <->
                In (CallBloomExists c) calls /\ indexReportsPresent s c = false)
  /\ (forall c, In (CallCheckExistsByCode c) calls ->
                (r = inl c <-> storeReportsPresent s c = false))
  /\ (forall c, r = inl c -> In (CallCheckExistsByCode c) calls)
  /\ (forall c, In (CallBloomExists c) calls ->
                indexReportsPresent s c = true ->
                ~ In (CallCheckExistsByCode c) calls /\ r <> inl c).
Proof.
  intros Hrun.
  destruct (generateWithCollision_run s url) as (tried & Hlog & _ & Hres).
  rewrite Hrun in Hlog, Hres. cbn [fst snd] in Hlog, Hres.
  rewrite Hlog in Hrun |- *. clear Hlog.
  assert (Hchk : forall c, In (CallCheckExistsByCode c) (callsOf s tried) <->
                   In (CallBloomExists c) (callsOf s tried)
                   /\ indexReportsPresent s c = false).
  { intros c. rewrite In_callsOf_check, In_callsOf_bloom. done. }
  assert (Hacc : forall c, In (CallCheckExistsByCode c) (callsOf s tried) ->
                   (r = inl c <-> storeReportsPresent s c = false)).
  { intros c Hin. pose proof (checked_candidate_returned_iff s url c) as Hc.
    rewrite Hrun in Hc. cbn [fst snd] in Hc. by apply Hc. }
  assert (Hret : forall c, r = inl c ->
                   In (CallCheckExistsByCode c) (callsOf s tried)).
  { intros c ->.
    destruct Hres as [([=] & _) | (pre & c' & -> & [= <-] & Hall & Hc')].
    apply In_callsOf_check. split.
    - apply in_app_iff. cbn. auto.
    - unfold foundUsed in Hc'. by apply orb_false_iff in Hc' as [-> _]. }
  split; [| split; [| split; [| split]]].
  - intros pre post c Heq. by eapply callsOf_check_preceded.
  - exact Hchk.
  - exact Hacc.
  - exact Hret.
  - intros c Hin Hidx. split.
    + intros Hk. apply Hchk in Hk as [_ Hk]. congruence.
    + intros Hr. apply Hret, Hchk in Hr as [_ Hk]. congruence.
Qed.

(** Where an error of [Generate] comes from: the request, the collision
    loop running out of candidates, or the insertion of the new row. *)
Lemma Generate_error_origin (now : Time) s (req : GenerateRequest) (err : error) :
  fst (Generate now s req) = inr err ->
  err = ErrInvalidURL
  \/ (exists e, time_Parse_RFC3339 (req_ExpireAt req) = inr e
                /\ err = Errorf "invalid expire_at format" e)
  \/ err = ErrMaxCapacityReached
  \/ (exists sl mysql1 e,
        mysql_SaveShortLink (mysqlRepo s) sl = (mysql1, Some e)
        /\ err = Errorf "failed to save short link" e).
Proof.
  unfold Generate, parseExpireAt.
  destruct (decide (req_URL req = "")) as [Hurl|Hurl]; [intros [= <-]; auto|].
  destruct (decide (req_ExpireAt req = "")) as [Hexp|Hexp].
  2: destruct (time_Parse_RFC3339 (req_ExpireAt req)) as [t|perr] eqn:Hp;
       [|intros [= <-]; eauto 10].
  all: destruct (cachedShortLink s _); [discriminate|].
  all: destruct (GetShortLinkByURL _ _);
         [by destruct (SaveShortLink _ _ _ _)|].
  all: destruct (fst (generateWithCollision s (req_URL req))) as [c|gerr] eqn:Hg;
         [|intros [= <-]; apply generateWithCollision_error in Hg; auto].
  all: destruct (mysql_SaveShortLink _ _) as [mysql1 [serr|]] eqn:Hsv;
         [intros [= <-]; eauto 10|].
  all: destruct (SaveShortLink _ _ _ _) as [redis1 ?];
         destruct (SaveShortLink redis1 _ _ _) as [redis2 ?];
         by destruct (Add _ _).
Qed.

(** C2 (as the code has it). When the durable-store existence check made
    for a candidate returns an error, the error is not propagated: the loop
    fails only with capacity exhausted, the candidate is returned exactly
    when the boolean that came with the error is [false], and an error of
    [Generate] stems from the request, from the exhaustion of the
    candidates or from the insertion of the row, never from the check. *)
Theorem existence_check_error_is_discarded s (url c : string)
    (b : bool) (e : error) :
  In (CallCheckExistsByCode c) (snd (generateWithCollision s url)) ->
  CheckExistsByCode (mysqlRepo s) c = (b, Some e) ->
  (forall err, fst (generateWithCollision s url) = inr err ->
               err = ErrMaxCapacityReached)
  /\ (fst (generateWithCollision s url) = inl c <-> b = false)
  /\ (forall now req err,
        fst (Generate now s req) = inr err ->
        err = ErrInvalidURL
        \/ (exists e', time_Parse_RFC3339 (req_ExpireAt req) = inr e'
                       /\ err = Errorf "invalid expire_at format" e')
        \/ err = ErrMaxCapacityReached
        \/ (exists sl mysql1 e',
              mysql_SaveShortLink (mysqlRepo s) sl = (mysql1, Some e')
              /\ err = Errorf "failed to save short link" e')).
Proof.
  intros Hin Hchk. split; [|split].
  - intros err. apply generateWithCollision_error.
  - rewrite (checked_candidate_returned_iff s url c Hin).
    unfold storeReportsPresent. by rewrite Hchk.
  - intros now req err. apply Generate_error_origin.
Qed.

(** C6. [Generate] fails with capacity exhausted exactly when it gets as
    far as the collision loop and the loop finds every candidate used, at
    every length from 4 to 6 and every attempt of the retry budget; the
    failure leaves the backends as they were. *)
Theorem Generate_capacity_exhausted_iff (now : Time) s (req : GenerateRequest) :
  (fst (Generate now s req) = inr ErrMaxCapacityReached <->
   reachesCollisionLoop s req
   /\ forall length i, 4 <= length <= 6 -> 0 <= i < 1000 ->
        foundUsed s (candidate (req_URL req) length i) = true)
  /\ (fst (Generate now s req) = inr ErrMaxCapacityReached ->
      snd (Generate now s req) = s).
Proof.
  unfold Generate, reachesCollisionLoop.
  destruct (decide (req_URL req = "")) as [Hurl | Hurl].
  { cbn. split; [split; [discriminate | tauto] | discriminate]. }
  destruct (parseExpireAt (req_ExpireAt req)) as [expireAt | perr].
  2:{ cbn. split; [split; [discriminate |] | discriminate].
      intros [(_ & [x [=]] & _) _]. }
  destruct (cachedShortLink s _) as [sl |].
  { cbn. split; [split; [discriminate |] | discriminate].
    intros [(_ & _ & [=] & _) _]. }
  destruct (GetShortLinkByURL (mysqlRepo s) (req_URL req)) as [existing | uerr].
  { destruct (SaveShortLink _ _ _ _) as [redis1 ?]. cbn.
    split; [split; [discriminate |] | discriminate].
    intros [(_ & _ & _ & [x [=]]) _]. }
  destruct (generateWithCollision_run s (req_URL req))
    as (tried & _ & _ & [(Hr & -> & Hall) | (pre & c & -> & Hr & Hall & Hc)]).
  - rewrite Hr. cbn. split; [| done]. split; [intros _ | done].
    split; [eauto 10 |].
    intros length i Hl Hi. rewrite Forall_forall in Hall.
    apply Hall, list_elem_of_In, In_candidates. eauto.
  - assert (Hin : In c (candidates (req_URL req))).
    { destruct (generateWithCollision_run s (req_URL req))
        as (tried' & _ & Hsub & [(Hr' & _) | (pre' & c' & -> & Hr' & _)]).
      - congruence.
      - apply Hsub, in_app_iff. cbn. rewrite Hr in Hr'. injection Hr' as <-.
        auto. }
    rewrite Hr.
    assert (Hno : ~ (forall length i, 4 <= length <= 6 -> 0 <= i < 1000 ->
                       foundUsed s (candidate (req_URL req) length i) = true)).
    { intros Hall'. apply In_candidates in Hin as (length & i & Hl & Hi & ->).
      rewrite Hall' in Hc by done. discriminate. }
    destruct (mysql_SaveShortLink _ _) as [mysql1 [serr|]].
    + cbn. split; [split; [discriminate | tauto] | discriminate].
    + destruct (SaveShortLink _ _ _ _) as [redis1 ?].
      destruct (SaveShortLink redis1 _ _ _) as [redis2 ?].
      destruct (Add _ _) as [bloom1 ?]. cbn.
      split; [split; [discriminate | tauto] | discriminate].
Qed.

End CollisionLoop.

(** *** The collision loop on the example states *)

Section CollisionLoopExamples.
Import examples.

(** On a filter that reports the unused code CG62, the loop skips CG62
    without asking MySQL and returns the next candidate. *)
Lemma collision_loop_index_then_store_witness :
  generateWithCollision staleBloomService "https://a.com"
  = (inl "CG63",
     [CallBloomExists "CG62"; CallBloomExists "CG63";
      CallCheckExistsByCode "CG63"])
  /\ ~ In (CallCheckExistsByCode "CG62")
         [CallBloomExists "CG62"; CallBloomExists "CG63";
          CallCheckExistsByCode "CG63"]
  /\ @inl string error "CG63" <> inl "CG62".
Proof.
  assert (Hrun : generateWithCollision staleBloomService "https://a.com"
                 = (inl "CG63",
                    [CallBloomExists "CG62"; CallBloomExists "CG63";
                     CallCheckExistsByCode "CG63"]))
    by (vm_compute; reflexivity).
  split; [exact Hrun|].
  destruct (collision_loop_index_then_store staleBloomService "https://a.com"
              _ _ Hrun) as (_ & _ & _ & _ & Hskip).
  apply (Hskip "CG62"); [cbn; auto | vm_compute; reflexivity].
Defined.

(** The rule of the specification fails on both branches: CG62 is reported
    by the filter and unused in the table, yet the loop neither asks MySQL
    about it nor returns it; and CG62 is absent from the filter, yet the
    loop asks MySQL about it and, the table holding it, goes on to CG63. *)
Lemma collision_loop_rule_counterexample :
  (tryCode staleBloomService "CG62" = (false, [CallBloomExists "CG62"])
   /\ tryCode_as_specified staleBloomService "CG62"
      = (true, [CallBloomExists "CG62"; CallCheckExistsByCode "CG62"])
   /\ fst (generateWithCollision staleBloomService "https://a.com") = inl "CG63")
  /\ (tryCode emptiedBloomService "CG62"
      = (false, [CallBloomExists "CG62"; CallCheckExistsByCode "CG62"])
      /\ tryCode_as_specified emptiedBloomService "CG62"
         = (true, [CallBloomExists "CG62"])
      /\ fst (generateWithCollision emptiedBloomService "https://a.com")
         = inl "CG63").
Proof. vm_compute. repeat split. Qed.

Lemma existence_check_error_is_discarded_witness :
  In (CallCheckExistsByCode "CG62")
    (snd (generateWithCollision timeoutService "https://a.com"))
  /\ CheckExistsByCode (mysqlRepo timeoutService) "CG62" = (false, Some timeout)
  /\ fst (generateWithCollision timeoutService "https://a.com") = inl "CG62".
Proof.
  assert (Hin : In (CallCheckExistsByCode "CG62")
                  (snd (generateWithCollision timeoutService "https://a.com")))
    by (vm_compute; auto).
  assert (Hchk : CheckExistsByCode (mysqlRepo timeoutService) "CG62"
                 = (false, Some timeout)) by reflexivity.
  split; [exact Hin|]. split; [exact Hchk|].
  by apply (existence_check_error_is_discarded timeoutService "https://a.com"
              "CG62" false timeout Hin Hchk).
Defined.

(** The existence check for CG62 fails with a timeout, and [Generate]
    returns CG62 to the caller instead of a persistence failure. *)
Lemma existence_check_error_counterexample :
  snd (CheckExistsByCode (mysqlRepo timeoutService) "CG62") = Some timeout
  /\ In (CallCheckExistsByCode "CG62")
       (snd (generateWithCollision timeoutService "https://a.com"))
  /\ fst (Generate 5 timeoutService requestA)
     = inl {| resp_ShortLink := "https://s.example.com/CG62";
              resp_ShortCode := "CG62";
              resp_OriginalURL := "https://a.com";
              resp_ExpireAt := 0 |}.
Proof. vm_compute. auto. Qed.

(** With a filter that reports every code, [Generate] tries the 3000
    candidates, asks MySQL about none, and fails with capacity exhausted,
    the state unchanged. *)
Lemma Generate_capacity_exhausted_example :
  Generate 5 fullBloomService requestA
  = (inr ErrMaxCapacityReached, fullBloomService)
  /\ snd (generateWithCollision fullBloomService "https://a.com")
     = map CallBloomExists (candidates "https://a.com")
  /\ length (candidates "https://a.com") = 3000%nat.
Proof. repeat split; vm_compute; reflexivity. Qed.

(** C6 as the specification words it, "found used" being confirmed by the
    Durable Store, fails on the code: the table is empty, so the store
    holds none of the candidates and is never asked, and yet, the filter
    reporting every candidate, [Generate] fails with capacity exhausted. *)
Lemma Generate_capacity_exhausted_counterexample :
  fst (Generate 5 fullBloomService requestA) = inr ErrMaxCapacityReached
  /\ short_links (mysqlRepo fullBloomService) = []
  /\ (forall c, storeReportsPresent fullBloomService c = false)
  /\ (forall c,
        ~ In (CallCheckExistsByCode c)
            (snd (generateWithCollision fullBloomService "https://a.com")))
  /\ ~ (forall length i, 4 <= length <= 6 -> 0 <= i < 1000 ->
          storeReportsPresent fullBloomService
            (candidate (req_URL requestA) length i) = true).
Proof.
  assert (Hstore : forall c, storeReportsPresent fullBloomService c = false)
    by (intros c; reflexivity).
  destruct Generate_capacity_exhausted_example as (Hgen & Hlog & _).
  split; [by rewrite Hgen|]. split; [reflexivity|].
  split; [exact Hstore|]. split.
  - intros c Hin. rewrite Hlog in Hin.
    apply in_map_iff in Hin as (x & Heq & _). discriminate.
  - intros Hall. specialize (Hall 4 0 ltac:(lia) ltac:(lia)).
    rewrite Hstore in Hall. discriminate.
Qed.

End CollisionLoopExamples.

(** ** Resolution *)

Section Resolve.
Context `{GoStdlib} {M R B : Type}.
Context `{MySQLRepositoryInterface M, RedisRepositoryInterface R,
          BloomServiceInterface B}.
Implicit Types (s : ShortLinkService (M:=M) (R:=R) (B:=B)).

Lemma Get_cache_miss (now : Time) s (shortCode : string) :
  cacheMiss s shortCode ->
  Get now s shortCode =
  match GetShortLinkByCode (mysqlRepo s) shortCode with
  | inr _ => (inr ErrShortLinkNotFound, s)
  | inl sl =>
      if negb (IsActive now sl) then (inr ErrShortLinkExpired, s)
      else (inl sl,
            {| mysqlRepo := mysqlRepo s;
               redisRepo := fst (SaveShortLink (redisRepo s) shortCode
                                   (OriginalURL sl) ShortLinkCacheTTL);
               bloomSvc := bloomSvc s; domain := domain s |})
  end.
Proof.
  unfold cacheMiss, Get. intros Hmiss.
  destruct (GetShortLink (redisRepo s) shortCode) as [url err]. cbn in Hmiss.
  assert (Hguard : bool_decide (err = None) && negb (String.eqb url "") = false).
  { destruct Hmiss as [Herr | ->].
    - by rewrite bool_decide_eq_false_2.
    - cbn. apply andb_false_r. }
  rewrite Hguard.
  destruct (GetShortLinkByCode (mysqlRepo s) shortCode) as [sl|]; [|done].
  destruct (negb (IsActive now sl)); [done|].
  by destruct (SaveShortLink _ _ _ _).
Qed.

(** On a cache miss, a lookup that fails in the repository is reported as
    not found. *)
Lemma Get_not_found (now : Time) s (shortCode : string) (err : error) :
  cacheMiss s shortCode ->
  GetShortLinkByCode (mysqlRepo s) shortCode = inr err ->
  Get now s shortCode = (inr ErrShortLinkNotFound, s).
Proof. intros Hmiss Hrow. by rewrite Get_cache_miss, Hrow. Qed.

(** On a cache miss, an entry that the repository returns and that is
    disabled, or past its expiry, is reported as expired. *)
Lemma Get_inactive_entry_expired (now : Time) s (shortCode : string)
    (sl : ShortLink) :
  cacheMiss s shortCode ->
  GetShortLinkByCode (mysqlRepo s) shortCode = inl sl ->
  Status sl <> 1 \/ (exists t, ExpireAt sl = Some t /\ t < now) ->
  Get now s shortCode = (inr ErrShortLinkExpired, s).
Proof.
  intros Hmiss Hrow Hinactive. rewrite Get_cache_miss, Hrow by done.
  assert (Hact : IsActive now sl = false).
  { unfold IsActive. destruct Hinactive as [Hst | (t & -> & Ht)].
    - by rewrite (proj2 (Z.eqb_neq _ _) Hst).
    - destruct (Status sl =? 1)%Z; [|done]. cbn.
      by rewrite (proj2 (Z.gtb_gt _ _)) by lia. }
  by rewrite Hact.
Qed.

End Resolve.

(** *** The MySQL repository *)

Lemma firstByID_Some (cond : ShortLink -> bool) (rows : list ShortLink)
    (sl : ShortLink) :
  firstByID cond rows = Some sl -> In sl rows /\ cond sl = true.
Proof.
  revert sl. induction rows as [|row rows IH]; intros sl; cbn; [done|].
  destruct (cond row) eqn:Hc.
  - destruct (firstByID cond rows) as [best|].
    + destruct (ID best <? ID row)%Z; intros [= <-]; [|by auto].
      destruct (IH best eq_refl). auto.
    + intros [= <-]. auto.
  - intros Hf. destruct (IH sl Hf). auto.
Qed.

Lemma firstByID_None (cond : ShortLink -> bool) (rows : list ShortLink) :
  firstByID cond rows = None <-> forall row, In row rows -> cond row = false.
Proof.
  induction rows as [|row rows IH]; cbn; [done|].
  destruct (cond row) eqn:Hc.
  - split.
    + destruct (firstByID cond rows) as [best|];
        [destruct (ID best <? ID row)%Z|]; discriminate.
    + intros Hall. specialize (Hall row (or_introl eq_refl)). congruence.
  - rewrite IH. split.
    + intros Hall row' [<- | Hin]; auto.
    + intros Hall row' Hin. auto.
Qed.

(** [GetShortLinkByCode] filters on [status = 1]: it never returns a
    disabled row. *)
Lemma MySQL_GetShortLinkByCode_inl (r : MySQLRepository) (shortCode : string)
    (sl : ShortLink) :
  MySQL_GetShortLinkByCode r shortCode = inl sl ->
  In sl (short_links r) /\ ShortCode sl = shortCode /\ Status sl = 1.
Proof.
  unfold MySQL_GetShortLinkByCode. destruct (db_error r); [done|].
  destruct (firstByID _ _) as [sl'|] eqn:Hf; [|done]. intros [= ->].
  apply firstByID_Some in Hf as [Hin Hc].
  apply andb_true_iff in Hc as [Hcode Hst].
  apply String.eqb_eq in Hcode. apply Z.eqb_eq in Hst. done.
Qed.

(** A code all of whose rows are disabled resolves like an unknown code. *)
Lemma MySQL_GetShortLinkByCode_disabled (r : MySQLRepository)
    (shortCode : string) :
  (forall row, In row (short_links r) -> ShortCode row = shortCode ->
               Status row <> 1) ->
  exists err, MySQL_GetShortLinkByCode r shortCode = inr err.
Proof.
  intros Hall. destruct (MySQL_GetShortLinkByCode r shortCode) as [sl|err] eqn:Hg;
    [|eauto].
  apply MySQL_GetShortLinkByCode_inl in Hg as (Hin & Hcode & Hst).
  by destruct (Hall sl Hin Hcode).
Qed.

Section ResolveExamples.
Import examples.

(** C3. The table holds one row for CG62, disabled, and the cache is empty:
    the service would report such an entry as expired, yet the repository
    filters on [status = 1], and [Get] reports the code as not found. *)
Theorem Get_disabled_entry_reports_not_found :
  In (rowOther 0) (short_links (mysqlRepo disabledService))
  /\ Status (rowOther 0) = 0
  /\ IsActive 200 (rowOther 0) = false
  /\ fst (Get 200 disabledService "CG62") = inr ErrShortLinkNotFound.
Proof. vm_compute. auto. Qed.

End ResolveExamples.

(** ** Generation *)

Section GenerateAgain.
Context `{GoStdlib} {M R B : Type}.
Context `{MySQLRepositoryInterface M, RedisRepositoryInterface R,
          BloomServiceInterface B}.
Implicit Types (s : ShortLinkService (M:=M) (R:=R) (B:=B)).

Lemma cachedShortLink_Some s (cacheKey : string) (sl : ShortLink) :
  cachedShortLink s cacheKey = Some sl ->
  exists cachedCode,
    GetShortLink (redisRepo s) cacheKey = (cachedCode, None)
    /\ cachedCode <> ""
    /\ GetShortLinkByCode (mysqlRepo s) cachedCode = inl sl.
Proof.
  unfold cachedShortLink.
  destruct (GetShortLink (redisRepo s) cacheKey) as [cachedCode [e|]]; [done|].
  cbn. destruct (String.eqb_spec cachedCode ""); [done|]. cbn.
  destruct (GetShortLinkByCode (mysqlRepo s) cachedCode) eqn:Hrow; [|done].
  intros [= ->]. by exists cachedCode.
Qed.

(** When whatever the cache and the URL lookup yield for a request carries
    the code [c], [Generate] returns [c] and writes nothing to MySQL. *)
Lemma Generate_known_code (now : Time) s (req : GenerateRequest) (c : string) :
  req_URL req <> "" ->
  (exists expireAt, parseExpireAt (req_ExpireAt req) = inl expireAt) ->
  (forall sl,
      cachedShortLink s (buildCacheKey (req_URL req) (req_Params req)) = Some sl ->
      ShortCode sl = c) ->
  (cachedShortLink s (buildCacheKey (req_URL req) (req_Params req)) = None ->
   exists existing,
     GetShortLinkByURL (mysqlRepo s) (req_URL req) = inl existing
     /\ ShortCode existing = c) ->
  exists resp2 s2,
    Generate now s req = (inl resp2, s2)
    /\ resp_ShortCode resp2 = c
    /\ mysqlRepo s2 = mysqlRepo s.
Proof.
  intros Hurl [expireAt Hparse] Hcached Hbyurl. unfold Generate.
  destruct (decide (req_URL req = "")); [done|]. rewrite Hparse.
  destruct (cachedShortLink s _) as [sl|].
  - eexists _, _. split; [reflexivity|]. cbn. auto.
  - destruct Hbyurl as (existing & -> & Hc); [done|].
    destruct (SaveShortLink _ _ _ _) as [redis1 ?].
    eexists _, _. split; [reflexivity|]. cbn. auto.
Qed.

(** The same, with the entry: the response is built from the entry that
    the cache fast path or, failing that, the URL lookup yields, and
    neither the table nor the filter is written. *)
Lemma Generate_known_entry (now : Time) s (req : GenerateRequest) (c : string) :
  req_URL req <> "" ->
  (exists expireAt, parseExpireAt (req_ExpireAt req) = inl expireAt) ->
  (forall sl,
      cachedShortLink s (buildCacheKey (req_URL req) (req_Params req)) = Some sl ->
      ShortCode sl = c) ->
  (cachedShortLink s (buildCacheKey (req_URL req) (req_Params req)) = None ->
   exists existing,
     GetShortLinkByURL (mysqlRepo s) (req_URL req) = inl existing
     /\ ShortCode existing = c) ->
  exists existing s2,
    Generate now s req = (inl (buildResponse s existing), s2)
    /\ ShortCode existing = c
    /\ (cachedShortLink s (buildCacheKey (req_URL req) (req_Params req))
        = Some existing
        \/ cachedShortLink s (buildCacheKey (req_URL req) (req_Params req)) = None
           /\ GetShortLinkByURL (mysqlRepo s) (req_URL req) = inl existing)
    /\ mysqlRepo s2 = mysqlRepo s
    /\ bloomSvc s2 = bloomSvc s.
Proof.
  intros Hurl [expireAt Hparse] Hcached Hbyurl. unfold Generate.
  destruct (decide (req_URL req = "")); [done|]. rewrite Hparse.
  destruct (cachedShortLink s _) as [sl|].
  - exists sl, s. split; [reflexivity|]. split; [by apply Hcached|]. auto.
  - destruct Hbyurl as (existing & Hex & Hc); [done|]. rewrite Hex.
    destruct (SaveShortLink _ _ _ _) as [redis1 ?].
    eexists existing, _. split; [reflexivity|]. cbn. auto.
Qed.

End GenerateAgain.

(** *** Facts about the repositories *)

Lemma shortLinkKey_inj (k k' : string) : shortLinkKey k = shortLinkKey k' -> k = k'.
Proof.
  unfold shortLinkKey, ShortLinkKeyPrefix. intros Heq.
  cbv [String.append] in Heq. by injection Heq.
Qed.

Lemma Redis_SaveShortLink_error (r : RedisRepository) (k v : string) (ttl : Z) :
  redis_error (fst (Redis_SaveShortLink r k v ttl)) = redis_error r.
Proof. unfold Redis_SaveShortLink. by destruct (redis_error r) eqn:He. Qed.

Lemma Redis_GetShortLink_ok (r : RedisRepository) (k code : string) :
  Redis_GetShortLink r k = (code, None) ->
  redis_error r = None /\ strs r !! shortLinkKey k = Some code.
Proof.
  unfold Redis_GetShortLink. destruct (redis_error r); [done|].
  destruct (strs r !! shortLinkKey k); [|done]. by intros [= ->].
Qed.

Lemma Redis_SaveShortLink_strs (r : RedisRepository) (k v : string) (ttl : Z) :
  redis_error r = None ->
  strs (fst (Redis_SaveShortLink r k v ttl)) = <[shortLinkKey k := v]> (strs r).
Proof. unfold Redis_SaveShortLink. by intros ->. Qed.

Lemma MySQL_SaveShortLink_ok (r r1 : MySQLRepository) (sl : ShortLink) :
  MySQL_SaveShortLink r sl = (r1, None) ->
  db_error r = None /\ db_error r1 = None
  /\ exists row,
       short_links r1 = short_links r ++ [row]
       /\ ShortCode row = ShortCode sl
       /\ OriginalURL row = OriginalURL sl
       /\ Status row = if (Status sl =? 0)%Z then 1 else Status sl.
Proof.
  unfold MySQL_SaveShortLink. destruct (db_error r); [done|].
  destruct (existsb _ _); [done|]. intros [= <-]. cbn. eauto 10.
Qed.

Lemma firstByID_snoc (cond : ShortLink -> bool) (rows : list ShortLink)
    (row : ShortLink) :
  firstByID cond rows = None ->
  firstByID cond (rows ++ [row]) = if cond row then Some row else None.
Proof.
  rewrite firstByID_None. induction rows as [|r0 rows IH]; intros Hall; cbn.
  - reflexivity.
  - rewrite (Hall r0) by (cbn; auto). apply IH. intros r' Hin. apply Hall.
    cbn. auto.
Qed.

(** A code never holds a colon. *)
Lemma alphabetAt_not_colon (d : Z) :
  0 <= d < 32 -> Ascii.eqb ":" (encoder.alphabetAt d) = false.
Proof.
  intros Hd.
  assert (Hn : d = Z.of_nat (Z.to_nat d)) by lia.
  assert (Hlt : (Z.to_nat d < 32)%nat) by lia.
  rewrite Hn. generalize dependent (Z.to_nat d). intros n _ Hlt.
  do 32 (destruct n as [|n]; [reflexivity|]). lia.
Qed.

Lemma encodeLoop_no_colon (k : nat) :
  forall (n : Z) (rest : string),
    0 <= n -> strings.Contains rest ":" = false ->
    strings.Contains (encoder.encodeLoop k n rest) ":" = false.
Proof.
  induction k as [|k IH]; intros n rest Hn Hrest; cbn [encoder.encodeLoop].
  - done.
  - apply IH; [apply Z.div_pos; [done | by rewrite alphabetLen_32] |].
    cbn [strings.Contains strings.HasPrefix].
    rewrite alphabetAt_not_colon, Hrest; [done|].
    rewrite alphabetLen_32. apply Z.mod_pos_bound. lia.
Qed.

Lemma candidate_no_colon (url : string) (length i : Z) :
  strings.Contains (candidate url length i) ":" = false.
Proof.
  unfold candidate, encoder.Encode. apply encodeLoop_no_colon; [|done].
  unfold u64. apply Z.mod_pos_bound. lia.
Qed.

Lemma Contains_colon_app (url rest : string) :
  strings.Contains (url +:+ ":" +:+ rest) ":" = true.
Proof.
  induction url as [|a url IH].
  - change ("" +:+ ":" +:+ rest) with (String ":" rest). cbn.
    by destruct rest.
  - change (String a url +:+ ":" +:+ rest)
      with (String a (url +:+ ":" +:+ rest)).
    cbn [strings.Contains]. rewrite IH. apply orb_true_r.
Qed.

(** *** Idempotence of generation, on the repositories *)

Section Idempotence.
Context `{GoStdlib}.
Implicit Types
  (s : ShortLinkService (M:=MySQLRepository) (R:=RedisRepository) (B:=BloomService)).

(** What the cache fast path yields after [Redis_SaveShortLink] has
    written [v] under [k]. *)
Lemma cachedShortLink_after_save s (redis1 : RedisRepository) (k v : string)
    (ttl : Z) (sl : ShortLink) (mysql1 : MySQLRepository) (bloom1 : BloomService) :
  redis1 = fst (Redis_SaveShortLink (redisRepo s) k v ttl) ->
  cachedShortLink
    {| mysqlRepo := mysql1; redisRepo := redis1; bloomSvc := bloom1;
       domain := domain s |} k = Some sl ->
  ShortCode sl = v.
Proof.
  intros -> Hc. apply cachedShortLink_Some in Hc as (code & Hget & _ & Hrow).
  cbn in Hget, Hrow.
  apply Redis_GetShortLink_ok in Hget as [Herr Hlk].
  rewrite Redis_SaveShortLink_error in Herr.
  rewrite Redis_SaveShortLink_strs, lookup_insert_eq in Hlk by done.
  injection Hlk as <-.
  by apply MySQL_GetShortLinkByCode_inl in Hrow as (_ & -> & _).
Qed.

(** [GetShortLinkByURL] returns a row of the table, active and with the
    URL asked for. *)
Lemma MySQL_GetShortLinkByURL_inl (r : MySQLRepository) (url : string)
    (sl : ShortLink) :
  MySQL_GetShortLinkByURL r url = inl sl ->
  In sl (short_links r) /\ OriginalURL sl = url /\ Status sl = 1.
Proof.
  unfold MySQL_GetShortLinkByURL. destruct (db_error r); [done|].
  destruct (firstByID _ _) as [sl'|] eqn:Hf; [|done]. intros [= ->].
  apply firstByID_Some in Hf as [Hin Hc].
  apply andb_true_iff in Hc as [Hurl Hst].
  apply String.eqb_eq in Hurl. apply Z.eqb_eq in Hst. done.
Qed.

(** [GetShortLinkByCode] finds a row as soon as an active row has the code. *)
Lemma MySQL_GetShortLinkByCode_found (r : MySQLRepository) (c : string)
    (row : ShortLink) :
  db_error r = None ->
  In row (short_links r) -> ShortCode row = c -> Status row = 1 ->
  exists sl, MySQL_GetShortLinkByCode r c = inl sl.
Proof.
  intros Hdb Hin Hcode Hst. unfold MySQL_GetShortLinkByCode. rewrite Hdb.
  destruct (firstByID _ _) as [sl|] eqn:Hf; [eauto|].
  rewrite firstByID_None in Hf. specialize (Hf row Hin).
  rewrite Hcode, String.eqb_refl, Hst in Hf. discriminate.
Qed.

(** The cache fast path answers as soon as the cache holds a code, not
    empty, under the key and an active row has that code. *)
Lemma cachedShortLink_found s (cacheKey c : string) (row : ShortLink) :
  redis_error (redisRepo s) = None ->
  strs (redisRepo s) !! shortLinkKey cacheKey = Some c ->
  c <> "" ->
  db_error (mysqlRepo s) = None ->
  In row (short_links (mysqlRepo s)) -> ShortCode row = c -> Status row = 1 ->
  cachedShortLink s cacheKey <> None.
Proof.
  intros Herr Hlk Hc Hdb Hin Hcode Hst. unfold cachedShortLink.
  cbn [GetShortLink GetShortLinkByCode RedisRepository_impl MySQLRepository_impl].
  unfold Redis_GetShortLink. rewrite Herr, Hlk.
  rewrite bool_decide_eq_true_2 by done.
  destruct (String.eqb_spec c ""); [done|]. cbn [andb negb].
  destruct (MySQL_GetShortLinkByCode_found _ c row Hdb Hin Hcode Hst) as [sl ->].
  done.
Qed.

(** After a [Generate] that returns a code on a reachable Redis, the cache
    fast path answers for the request. *)
Lemma Generate_leaves_cache (now : Time) s (req : GenerateRequest)
    (resp : GenerateResponse) s1 :
  Generate now s req = (inl resp, s1) ->
  redis_error (redisRepo s1) = None ->
  resp_ShortCode resp <> "" ->
  cachedShortLink s1 (buildCacheKey (req_URL req) (req_Params req)) <> None.
Proof.
  intros Hgen Herr1 Hne. unfold Generate in Hgen.
  destruct (decide (req_URL req = "")) as [|Hurl]; [done|].
  destruct (parseExpireAt (req_ExpireAt req)) as [expireAt|] eqn:Hparse; [|done].
  destruct (cachedShortLink s _) as [sl|] eqn:Hcache.
  { injection Hgen as <- <-. by rewrite Hcache. }
  destruct (GetShortLinkByURL (mysqlRepo s) (req_URL req))
    as [existing|uerr] eqn:Hbyurl.
  { destruct (SaveShortLink _ _ _ _) as [redis1 e1] eqn:Hsave.
    injection Hgen as <- <-. cbn [redisRepo resp_ShortCode buildResponse] in *.
    cbn in Hsave, Hbyurl.
    assert (Hr1 : redis1 = fst (Redis_SaveShortLink (redisRepo s)
                     (buildCacheKey (req_URL req) (req_Params req))
                     (ShortCode existing) ShortLinkCacheTTL))
      by (by rewrite Hsave).
    rewrite Hr1, Redis_SaveShortLink_error in Herr1.
    assert (Hdb : db_error (mysqlRepo s) = None).
    { unfold MySQL_GetShortLinkByURL in Hbyurl.
      by destruct (db_error (mysqlRepo s)). }
    apply MySQL_GetShortLinkByURL_inl in Hbyurl as (Hin & _ & Hst).
    apply (cachedShortLink_found _ _ (ShortCode existing) existing);
      cbn [redisRepo mysqlRepo]; try done.
    - by rewrite Hr1, Redis_SaveShortLink_error.
    - rewrite Hr1, Redis_SaveShortLink_strs by done. apply lookup_insert_eq. }
  destruct (fst (generateWithCollision s (req_URL req))) as [c|] eqn:Hgwc;
    [|done].
  destruct (mysql_SaveShortLink _ _) as [mysql1 [e|]] eqn:Hsv; [done|].
  destruct (SaveShortLink _ _ _ _) as [redis1 e1] eqn:Hsave1.
  destruct (SaveShortLink redis1 _ _ _) as [redis2 e2] eqn:Hsave2.
  destruct (Add _ _) as [bloom1 e3].
  injection Hgen as <- <-. cbn [redisRepo resp_ShortCode buildResponse ShortCode] in *.
  cbn in Hsv, Hsave1, Hsave2.
  apply MySQL_SaveShortLink_ok in Hsv
    as (Hdb & Hdb1 & row & Hrows & Hcode & Hrowurl & Hstatus).
  cbn in Hcode, Hrowurl, Hstatus.
  assert (Hr1 : redis1 = fst (Redis_SaveShortLink (redisRepo s)
                   (buildCacheKey (req_URL req) (req_Params req)) c
                   ShortLinkCacheTTL)) by (by rewrite Hsave1).
  assert (Hr2 : redis2 = fst (Redis_SaveShortLink redis1 c (req_URL req)
                   ShortLinkCacheTTL)) by (by rewrite Hsave2).
  assert (Herr : redis_error (redisRepo s) = None)
    by (by rewrite Hr2, Hr1, !Redis_SaveShortLink_error in Herr1).
  assert (Hcand : strings.Contains c ":" = false).
  { destruct (generateWithCollision_run s (req_URL req))
      as (tried & _ & Hsub & [(Hr & _) | (pre & c' & -> & Hr & _)]).
    - congruence.
    - rewrite Hgwc in Hr. injection Hr as <-.
      destruct (proj1 (In_candidates _ _) (Hsub c (in_elt c pre [])))
        as (length & i & _ & _ & ->).
      apply candidate_no_colon. }
  apply (cachedShortLink_found _ _ c row); cbn [redisRepo mysqlRepo]; try done.
  - rewrite Hr2, Redis_SaveShortLink_strs
      by (by rewrite Hr1, Redis_SaveShortLink_error).
    rewrite Hr1, Redis_SaveShortLink_strs by done.
    destruct (decide (c = buildCacheKey (req_URL req) (req_Params req)))
      as [Hkey | Hkey].
    + rewrite <- Hkey, lookup_insert_eq. f_equal.
      unfold buildCacheKey in Hkey.
      destruct (req_Params req) as [p|]; [|done].
      destruct (decide (size p = 0%nat)); [done|].
      rewrite Hkey, Contains_colon_app in Hcand. discriminate.
    + rewrite lookup_insert_ne by (intros Heq; by apply shortLinkKey_inj in Heq).
      apply lookup_insert_eq.
  - rewrite Hrows. apply in_app_iff. cbn. auto.
Qed.

(** C4. [Generate] is idempotent: when a call returns a short link, a
    second call with the same request on the state the first one left
    returns the same code, and it returns it from the existing entry: an
    active row of the table with that code, which the cache fast path
    yields or, when the cache does not answer, the URL lookup; on a
    reachable Redis it is the cache fast path that answers.  The response
    is built from that row, and the call adds no row to the table and no
    code to the filter. *)
Theorem Generate_idempotent (now1 now2 : Time) s (req : GenerateRequest)
    (resp1 : GenerateResponse) s1 :
  Generate now1 s req = (inl resp1, s1) ->
  exists resp2 s2 existing,
    Generate now2 s1 req = (inl resp2, s2)
    /\ resp_ShortCode resp2 = resp_ShortCode resp1
    /\ short_links (mysqlRepo s2) = short_links (mysqlRepo s1)
    /\ In existing (short_links (mysqlRepo s1))
    /\ ShortCode existing = resp_ShortCode resp1
    /\ Status existing = 1
    /\ resp2 = buildResponse s1 existing
    /\ (cachedShortLink s1 (buildCacheKey (req_URL req) (req_Params req))
        = Some existing
        \/ cachedShortLink s1 (buildCacheKey (req_URL req) (req_Params req))
           = None
           /\ GetShortLinkByURL (mysqlRepo s1) (req_URL req) = inl existing)
    /\ (redis_error (redisRepo s1) = None -> resp_ShortCode resp1 <> "" ->
        cachedShortLink s1 (buildCacheKey (req_URL req) (req_Params req))
        = Some existing)
    /\ bloomSvc s2 = bloomSvc s1.
Proof.
  intros Hgen.
  enough (Hk : exists existing s2,
             Generate now2 s1 req = (inl (buildResponse s1 existing), s2)
             /\ ShortCode existing = resp_ShortCode resp1
             /\ (cachedShortLink s1 (buildCacheKey (req_URL req) (req_Params req))
                 = Some existing
                 \/ cachedShortLink s1
                      (buildCacheKey (req_URL req) (req_Params req)) = None
                    /\ GetShortLinkByURL (mysqlRepo s1) (req_URL req)
                       = inl existing)
             /\ mysqlRepo s2 = mysqlRepo s1
             /\ bloomSvc s2 = bloomSvc s1).
  { destruct Hk as (existing & s2 & Hgen2 & Hcode & Hpath & Hmysql & Hbloom).
    exists (buildResponse s1 existing), s2, existing.
    assert (Hrow : In existing (short_links (mysqlRepo s1))
                   /\ Status existing = 1).
    { destruct Hpath as [Hc | [_ Hu]].
      - apply cachedShortLink_Some in Hc as (code & _ & _ & Hrow).
        cbn in Hrow. apply MySQL_GetShortLinkByCode_inl in Hrow. tauto.
      - cbn in Hu. apply MySQL_GetShortLinkByURL_inl in Hu. tauto. }
    assert (Hfast : redis_error (redisRepo s1) = None ->
                    resp_ShortCode resp1 <> "" ->
                    cachedShortLink s1
                      (buildCacheKey (req_URL req) (req_Params req))
                    = Some existing).
    { intros Herr1 Hne. destruct Hpath as [Hc | [Hnone _]]; [done|].
      by destruct (Generate_leaves_cache now1 s req resp1 s1 Hgen Herr1 Hne). }
    rewrite Hmysql. cbn [resp_ShortCode buildResponse]. tauto. }
  unfold Generate in Hgen.
  destruct (decide (req_URL req = "")) as [|Hurl]; [done|].
  destruct (parseExpireAt (req_ExpireAt req)) as [expireAt|] eqn:Hparse; [|done].
  destruct (cachedShortLink s _) as [sl|] eqn:Hcache.
  { injection Hgen as <- <-.
    apply Generate_known_entry; [done | eauto | |].
    - rewrite Hcache. by intros sl' [= <-].
    - by rewrite Hcache. }
  destruct (GetShortLinkByURL (mysqlRepo s) (req_URL req))
    as [existing|uerr] eqn:Hbyurl.
  { destruct (SaveShortLink _ _ _ _) as [redis1 e1] eqn:Hsave.
    injection Hgen as <- <-.
    apply Generate_known_entry; [done | eauto | |].
    - intros sl'. cbn [resp_ShortCode buildResponse].
      apply (cachedShortLink_after_save s redis1 _ _ ShortLinkCacheTTL).
      cbn in Hsave. by rewrite Hsave.
    - intros _. exists existing. cbn. done. }
  destruct (fst (generateWithCollision s (req_URL req))) as [c|] eqn:Hgwc;
    [|done].
  destruct (mysql_SaveShortLink _ _) as [mysql1 [e|]] eqn:Hsv; [done|].
  destruct (SaveShortLink _ _ _ _) as [redis1 e1] eqn:Hsave1.
  destruct (SaveShortLink redis1 _ _ _) as [redis2 e2] eqn:Hsave2.
  destruct (Add _ _) as [bloom1 e3].
  injection Hgen as <- <-. cbn [resp_ShortCode buildResponse ShortCode].
  cbn in Hsv, Hsave1, Hsave2, Hbyurl.
  apply MySQL_SaveShortLink_ok in Hsv
    as (Hdb & Hdb1 & row & Hrows & Hcode & Hrowurl & Hstatus).
  cbn in Hcode, Hrowurl, Hstatus.
  assert (Hcand : strings.Contains c ":" = false).
  { destruct (generateWithCollision_run s (req_URL req))
      as (tried & _ & Hsub & [(Hr & _) | (pre & c' & -> & Hr & _)]).
    - congruence.
    - rewrite Hgwc in Hr. injection Hr as <-.
      destruct (proj1 (In_candidates _ _) (Hsub c (in_elt c pre [])))
        as (length & i & _ & _ & ->).
      apply candidate_no_colon. }
  apply Generate_known_entry; [done | eauto | |].
  - intros sl' Hc. apply cachedShortLink_Some in Hc as (code & Hget & _ & Hrow).
    cbn in Hget, Hrow.
    apply MySQL_GetShortLinkByCode_inl in Hrow as (_ & -> & _).
    apply Redis_GetShortLink_ok in Hget as [Herr Hlk].
    assert (Hr1 : redis1 = fst (Redis_SaveShortLink (redisRepo s)
                     (buildCacheKey (req_URL req) (req_Params req)) c
                     ShortLinkCacheTTL)) by (by rewrite Hsave1).
    assert (Hr2 : redis2 = fst (Redis_SaveShortLink redis1 c (req_URL req)
                     ShortLinkCacheTTL)) by (by rewrite Hsave2).
    rewrite Hr2, Redis_SaveShortLink_error in Herr.
    rewrite Hr2, Redis_SaveShortLink_strs in Hlk by done.
    rewrite Hr1, Redis_SaveShortLink_error in Herr.
    rewrite Hr1, Redis_SaveShortLink_strs in Hlk by done.
    destruct (decide (c = buildCacheKey (req_URL req) (req_Params req)))
      as [Hkey | Hkey].
    + rewrite <- Hkey, lookup_insert_eq in Hlk. injection Hlk as <-.
      unfold buildCacheKey in Hkey.
      destruct (req_Params req) as [p|]; [|done].
      destruct (decide (size p = 0%nat)); [done|].
      rewrite Hkey, Contains_colon_app in Hcand. discriminate.
    + rewrite lookup_insert_ne, lookup_insert_eq in Hlk
        by (intros Heq; by apply shortLinkKey_inj in Heq).
      by injection Hlk as <-.
  - intros _. exists row. split; [|done]. cbn.
    unfold MySQL_GetShortLinkByURL in *. rewrite Hdb in Hbyurl. rewrite Hdb1, Hrows.
    destruct (firstByID _ (short_links (mysqlRepo s))) eqn:Hfirst; [done|].
    rewrite (firstByID_snoc _ _ row Hfirst), Hrowurl, Hstatus.
    by rewrite String.eqb_refl.
Qed.

End Idempotence.

Section IdempotenceExamples.
Import examples.

Lemma Generate_idempotent_witness :
  Generate 5 freshService requestA
  = (inl {| resp_ShortLink := "https://s.example.com/CG62";
            resp_ShortCode := "CG62";
            resp_OriginalURL := "https://a.com";
            resp_ExpireAt := 0 |},
     snd (Generate 5 freshService requestA))
  /\ exists resp2 s2 existing,
       Generate 6 (snd (Generate 5 freshService requestA)) requestA
       = (inl resp2, s2)
       /\ resp_ShortCode resp2 = "CG62"
       /\ short_links (mysqlRepo s2)
          = short_links (mysqlRepo (snd (Generate 5 freshService requestA)))
       /\ In existing
            (short_links (mysqlRepo (snd (Generate 5 freshService requestA))))
       /\ ShortCode existing = "CG62"
       /\ Status existing = 1
       /\ resp2 = buildResponse (snd (Generate 5 freshService requestA)) existing
       /\ (cachedShortLink (snd (Generate 5 freshService requestA))
             (buildCacheKey (req_URL requestA) (req_Params requestA))
           = Some existing
           \/ cachedShortLink (snd (Generate 5 freshService requestA))
                (buildCacheKey (req_URL requestA) (req_Params requestA)) = None
              /\ GetShortLinkByURL
                   (mysqlRepo (snd (Generate 5 freshService requestA)))
                   (req_URL requestA) = inl existing)
       /\ (redis_error (redisRepo (snd (Generate 5 freshService requestA)))
           = None ->
           "CG62" <> "" ->
           cachedShortLink (snd (Generate 5 freshService requestA))
             (buildCacheKey (req_URL requestA) (req_Params requestA))
           = Some existing)
       /\ bloomSvc s2 = bloomSvc (snd (Generate 5 freshService requestA)).
Proof.
  assert (Hgen : Generate 5 freshService requestA
                 = (inl {| resp_ShortLink := "https://s.example.com/CG62";
                           resp_ShortCode := "CG62";
                           resp_OriginalURL := "https://a.com";
                           resp_ExpireAt := 0 |},
                    snd (Generate 5 freshService requestA)))
    by (vm_compute; reflexivity).
  split; [exact Hgen|].
  exact (Generate_idempotent 5 6 freshService requestA _ _ Hgen).
Defined.

End IdempotenceExamples.

(** ** Expansion *)

Section Expand.
Context `{GoStdlib} {M R B : Type}.
Context `{MySQLRepositoryInterface M, RedisRepositoryInterface R,
          BloomServiceInterface B}.
Implicit Types (s : ShortLinkService (M:=M) (R:=R) (B:=B)).
Implicit Types (query : gmap string (list string)).

Lemma setAll_lookup_notin (entries : list (string * string)) :
  forall query (k : string),
    ~ In k (map fst entries) -> setAll entries query !! k = query !! k.
Proof.
  induction entries as [|[k0 v0] entries IH]; intros query k Hk; cbn.
  - reflexivity.
  - fold (setAll entries (Values_Set query k0 v0)). rewrite IH.
    + unfold Values_Set. apply lookup_insert_ne. intros ->. apply Hk. cbn. auto.
    + intros Hin. apply Hk. cbn. auto.
Qed.

Lemma setAll_lookup_in (entries : list (string * string)) :
  forall query (k v : string),
    List.NoDup (map fst entries) -> In (k, v) entries ->
    setAll entries query !! k = Some [v].
Proof.
  induction entries as [|[k0 v0] entries IH]; intros query k v Hnd Hin; cbn.
  - destruct Hin.
  - fold (setAll entries (Values_Set query k0 v0)).
    cbn in Hnd. apply List.NoDup_cons_iff in Hnd as [Hk0 Hnd].
    destruct Hin as [[= -> ->] | Hin].
    + rewrite setAll_lookup_notin by done. apply lookup_insert_eq.
    + by apply IH.
Qed.

(** Whatever the order in which the supplied parameters are visited, the
    loop of [ExpandURL] builds the overlay of the two maps. *)
Lemma setAll_overlay (queryParams : gmap string string) query
    (entries : list (string * string)) :
  Permutation entries (map_to_list queryParams) ->
  setAll entries query = overlayQuery queryParams query.
Proof.
  intros Hperm. apply map_eq. intros k. unfold overlayQuery.
  assert (Hnd : List.NoDup (map fst entries)).
  { apply NoDup_ListNoDup. rewrite Hperm. apply NoDup_fst_map_to_list. }
  destruct (queryParams !! k) as [v|] eqn:Hk.
  - rewrite (setAll_lookup_in entries query k v Hnd).
    + symmetry. apply lookup_union_Some_l. by rewrite lookup_fmap, Hk.
    + apply list_elem_of_In. rewrite Hperm. by apply elem_of_map_to_list.
  - rewrite setAll_lookup_notin.
    + symmetry. rewrite lookup_union_r; [done|]. by rewrite lookup_fmap, Hk.
    + intros Hin. apply in_map_iff in Hin as ([k' v] & <- & Hin).
      apply list_elem_of_In in Hin. rewrite Hperm in Hin.
      apply elem_of_map_to_list in Hin. cbn in Hk. congruence.
Qed.

Lemma overlayQuery_supplied (queryParams : gmap string string) query
    (k v : string) :
  queryParams !! k = Some v -> overlayQuery queryParams query !! k = Some [v].
Proof.
  intros Hk. apply lookup_union_Some_l. by rewrite lookup_fmap, Hk.
Qed.

Lemma overlayQuery_other (queryParams : gmap string string) query (k : string) :
  queryParams !! k = None -> overlayQuery queryParams query !! k = query !! k.
Proof.
  intros Hk. unfold overlayQuery. rewrite lookup_union_r; [done|].
  by rewrite lookup_fmap, Hk.
Qed.

(** C7. For a code that resolves: when the stored URL does not parse,
    [ExpandURL] returns it as it is, without error; otherwise it sets the
    query string to the stored parameters overlaid with the supplied ones,
    a supplied key replacing the stored values of that key, whatever the
    order in which the supplied parameters are visited. *)
Theorem ExpandURL_merges_query (now : Time) s (shortCode : string)
    (queryParams : gmap string string) (sl : ShortLink) s1 :
  Get now s shortCode = (inl sl, s1) ->
  (url_Parse (OriginalURL sl) = None ->
   ExpandURL now s shortCode queryParams = (inl (OriginalURL sl), s1))
  /\ (forall u, url_Parse (OriginalURL sl) = Some u ->
        ExpandURL now s shortCode queryParams
        = (inl (url_String
                  (url_setRawQuery u
                     (url_Values_Encode
                        (overlayQuery queryParams (url_Query u))))), s1)
        /\ (forall k v, queryParams !! k = Some v ->
              overlayQuery queryParams (url_Query u) !! k = Some [v])
        /\ (forall k, queryParams !! k = None ->
              overlayQuery queryParams (url_Query u) !! k = url_Query u !! k)
        /\ (forall entries, Permutation entries (map_to_list queryParams) ->
              setAll entries (url_Query u)
              = overlayQuery queryParams (url_Query u))).
Proof.
  intros Hget. unfold ExpandURL. rewrite Hget. split.
  - by intros ->.
  - intros u ->. rewrite (setAll_overlay queryParams) by done.
    split; [done|]. split; [|split].
    + intros k v. apply overlayQuery_supplied.
    + intros k. apply overlayQuery_other.
    + intros entries. apply setAll_overlay.
Qed.

End Expand.

Section ExpandExamples.
Import examples.

Lemma ExpandURL_merges_query_witness :
  Get 0 cachedService "ABCD"
  = (inl {| ID := 0; ShortCode := "ABCD";
            OriginalURL := "https://x.com?a=0&c=3"; Params := None;
            CreatedAt := zeroTime; ExpireAt := None; Status := 0 |},
     cachedService)
  /\ fst (ExpandURL 0 cachedService "ABCD" suppliedParams)
     = inl "https://x.com?a=1&b=2&c=3".
Proof.
  assert (Hget : Get 0 cachedService "ABCD"
                 = (inl {| ID := 0; ShortCode := "ABCD";
                           OriginalURL := "https://x.com?a=0&c=3";
                           Params := None; CreatedAt := zeroTime;
                           ExpireAt := None; Status := 0 |}, cachedService))
    by (vm_compute; reflexivity).
  split; [exact Hget|].
  destruct (ExpandURL_merges_query 0 cachedService "ABCD" suppliedParams _ _ Hget)
    as [_ Hparsed].
  destruct (Hparsed {| Scheme := "https"; Host := "x.com"; Path := "";
                       RawQuery := "a=0&c=3" |} eq_refl) as [-> _].
  vm_compute. reflexivity.
Defined.

End ExpandExamples.

(** ** Analytics *)

Section Analytics.
Context `{GoStdlib} {R : Type} `{RedisRepositoryInterface R}.
Implicit Types (svc : AnalyticsService (R:=R)).

Lemma nth_second_to_last (parts : list string) (host : string) :
  (if (2 <=? length parts)%nat
   then nth (length parts - 2) parts EmptyString
   else host)
  = match rev parts with
    | _ :: label :: _ => label
    | _ => host
    end.
Proof.
  destruct parts as [|a parts] using rev_ind; [reflexivity|].
  destruct parts as [|b parts _] using rev_ind; [reflexivity|].
  rewrite !rev_app_distr. cbn [rev app].
  rewrite !length_app. cbn [length].
  replace (2 <=? length parts + 1 + 1)%nat with true
    by (symmetry; apply Nat.leb_le; lia).
  replace (length parts + 1 + 1 - 2)%nat with (length parts) by lia.
  rewrite <- app_assoc. cbn [app]. apply nth_middle.
Qed.

(** The chain of tests of [extractSource] is the search through the table
    of known platforms. *)
Lemma extractSource_of_host (referer : string) (u : URL) :
  referer <> "" -> url_Parse referer = Some u ->
  extractSource referer = sourceOfHost (url_Host u).
Proof.
  intros Hne Hparse. unfold extractSource, sourceOfHost, stripWWW.
  destruct (decide (referer = "")); [done|]. rewrite Hparse.
  set (h := if strings.HasPrefix (url_Host u) "www."
            then strings.drop 4 (url_Host u) else url_Host u).
  unfold secondToLastLabel. rewrite <- nth_second_to_last.
  cbn [find knownSources existsb fst snd].
  repeat match goal with
         | |- context [strings.Contains h ?kw] =>
             destruct (strings.Contains h kw); cbn [orb]; try reflexivity
         end.
Qed.

(** C8. [extractSource] maps the empty referer to "direct" and a referer
    that does not parse to "unknown"; for any other referer it takes the
    host, drops a leading "www.", returns the label of the first known
    platform whose keyword occurs in the host and, when there is none, the
    second-to-last label of the host, a host of one label being returned
    as it is. *)
Theorem extractSource_classifies :
  extractSource "" = "direct"
  /\ (forall referer, referer <> "" -> url_Parse referer = None ->
        extractSource referer = "unknown")
  /\ (forall referer u, referer <> "" -> url_Parse referer = Some u ->
        extractSource referer = sourceOfHost (url_Host u))
  /\ (forall u, url_Parse "https://www.google.com/search" = Some u ->
        url_Host u = "www.google.com" ->
        extractSource "https://www.google.com/search" = "google")
  /\ (forall u, url_Parse "https://blog.example.com" = Some u ->
        url_Host u = "blog.example.com" ->
        extractSource "https://blog.example.com" = "example")
  /\ (forall host, strings.Split (stripWWW host) "." = [stripWWW host] ->
        find (fun entry => existsb (strings.Contains (stripWWW host)) (fst entry))
          knownSources = None ->
        sourceOfHost host = stripWWW host).
Proof.
  split; [reflexivity|]. split; [|split; [|split; [|split]]].
  - intros referer Hne Hparse. unfold extractSource.
    destruct (decide (referer = "")); [done|]. by rewrite Hparse.
  - apply extractSource_of_host.
  - intros u Hparse Hhost.
    rewrite (extractSource_of_host _ u) by done. by rewrite Hhost.
  - intros u Hparse Hhost.
    rewrite (extractSource_of_host _ u) by done. by rewrite Hhost.
  - intros host Hsplit Hfind. unfold sourceOfHost, secondToLastLabel.
    cbn zeta. by rewrite Hfind, Hsplit.
Qed.

Lemma getTopSources_empty (limit : Z) : getTopSources ∅ limit = [].
Proof. reflexivity. Qed.

Lemma GetStats_no_error svc (shortCode : string) :
  snd (GetStats svc shortCode) = None.
Proof.
  unfold GetStats.
  destruct (GetPV _ _) as [pv e1]. by destruct (GetUV _ _) as [uv e2].
Qed.

(** C9. When reading the source counters fails, [GetAnalytics] returns no
    error: it returns the PV and the UV of [GetStats] and an empty list of
    sources. *)
Theorem GetAnalytics_sources_read_failure svc (shortCode : string)
    (sources : gmap string Z) (e : error) :
  GetSources (as_redisRepo svc) shortCode = (sources, Some e) ->
  GetAnalytics svc shortCode
  = inl {| an_ShortCode := shortCode;
           an_PV := PV (fst (GetStats svc shortCode));
           an_UV := UV (fst (GetStats svc shortCode));
           TopSources := [] |}.
Proof.
  intros Hsrc. unfold GetAnalytics.
  pose proof (GetStats_no_error svc shortCode) as Hnone.
  destruct (GetStats svc shortCode) as [stats err]. cbn in Hnone. subst err.
  rewrite Hsrc. cbn. by rewrite getTopSources_empty.
Qed.

(** C10. A referer that is not empty and parses to a URL without host has
    the empty source: [RecordAccess] increments the PV, adds the visitor
    to the UV set, and makes no update of a source counter. *)
Theorem RecordAccess_referer_without_host (today : string) svc
    (shortCode clientIP userAgent referer : string) (u : URL) :
  referer <> "" ->
  url_Parse referer = Some u ->
  url_Host u = "" ->
  extractSource referer = ""
  /\ RecordAccess today svc shortCode clientIP userAgent referer
     = ({| as_redisRepo :=
             fst (AddUV (fst (IncrementPV (as_redisRepo svc) shortCode))
                    shortCode (today +:+ ":" +:+ clientIP)) |}, None).
Proof.
  intros Hne Hparse Hhost.
  assert (Hsrc : extractSource referer = "").
  { rewrite (extractSource_of_host referer u) by done. by rewrite Hhost. }
  split; [done|]. unfold RecordAccess. rewrite Hsrc.
  destruct (IncrementPV _ _) as [r1 ?]. by destruct (AddUV _ _ _) as [r2 ?].
Qed.

End Analytics.

Section AnalyticsExamples.
Import examples.

(** The examples of the specification, on the small standard library. *)
Lemma extractSource_examples :
  extractSource "" = "direct"
  /\ extractSource "://bad" = "unknown"
  /\ extractSource "https://www.google.com/search" = "google"
  /\ extractSource "https://blog.example.com" = "example"
  /\ extractSource "https://mp.weixin.qq.com/s" = "wechat"
  /\ extractSource "https://localhost/x" = "localhost".
Proof. vm_compute. repeat split. Qed.

Lemma GetAnalytics_sources_read_failure_witness :
  GetSources (as_redisRepo sourcesDownService) "CG62" = (∅, Some timeout)
  /\ GetAnalytics sourcesDownService "CG62"
     = inl {| an_ShortCode := "CG62"; an_PV := 7; an_UV := 2;
              TopSources := [] |}.
Proof.
  assert (Hsrc : GetSources (as_redisRepo sourcesDownService) "CG62"
                 = (∅, Some timeout)) by reflexivity.
  split; [exact Hsrc|].
  rewrite (GetAnalytics_sources_read_failure sourcesDownService "CG62" ∅
             timeout Hsrc).
  vm_compute. reflexivity.
Defined.

Lemma RecordAccess_referer_without_host_witness :
  "/foo" <> ""
  /\ url_Parse "/foo"
     = Some {| Scheme := ""; Host := ""; Path := "/foo"; RawQuery := "" |}
  /\ extractSource "/foo" = ""
  /\ RecordAccess "2024-05-01" visitedService "CG62" "10.0.0.3" "curl" "/foo"
     = ({| as_redisRepo :=
             fst (AddUV (fst (IncrementPV (as_redisRepo visitedService) "CG62"))
                    "CG62" ("2024-05-01" +:+ ":" +:+ "10.0.0.3")) |}, None).
Proof.
  assert (Hne : "/foo" <> "") by discriminate.
  assert (Hparse : url_Parse "/foo"
                   = Some {| Scheme := ""; Host := ""; Path := "/foo";
                             RawQuery := "" |}) by reflexivity.
  split; [exact Hne|]. split; [exact Hparse|].
  exact (RecordAccess_referer_without_host "2024-05-01" visitedService
           "CG62" "10.0.0.3" "curl" "/foo" _ Hne Hparse eq_refl).
Defined.

(** After the visit, the PV is 8, the UV is 3 and the sources read as
    before. *)
Lemma RecordAccess_referer_without_host_counters :
  let after :=
    as_redisRepo (fst (RecordAccess "2024-05-01" visitedService "CG62"
                         "10.0.0.3" "curl" "/foo")) in
  GetPV after "CG62" = (8, None)
  /\ GetUV after "CG62" = (3, None)
  /\ bool_decide (GetSources after "CG62"
                  = GetSources (as_redisRepo visitedService) "CG62") = true.
Proof. cbv zeta. repeat split; vm_compute; reflexivity. Qed.

End AnalyticsExamples.

(** * Further properties of the code *)

(** ** The encoder *)

Section EncoderMore.
Import encoder.

Lemma encodeLoop_length (k : nat) :
  forall (n : Z) (rest : string),
    String.length (encodeLoop k n rest) = (k + String.length rest)%nat.
Proof.
  induction k as [|k IH]; intros n rest; cbn [encodeLoop]; [done|].
  rewrite IH. cbn. lia.
Qed.

Lemma digit_symbol_in_alphabet (d : Z) :
  0 <= d < 32 -> alphabetIndex (alphabetAt d) = Some d.
Proof.
  intros Hd.
  assert (Hn : d = Z.of_nat (Z.to_nat d)) by lia.
  assert (Hlt : (Z.to_nat d < 32)%nat) by lia.
  rewrite Hn. generalize dependent (Z.to_nat d). intros n _ Hlt.
  do 32 (destruct n as [|n]; [reflexivity|]). lia.
Qed.

Lemma upperByte_symbol (d : Z) :
  0 <= d < 32 -> strings.upperByte (alphabetAt d) = alphabetAt d.
Proof.
  intros Hd.
  assert (Hn : d = Z.of_nat (Z.to_nat d)) by lia.
  assert (Hlt : (Z.to_nat d < 32)%nat) by lia.
  rewrite Hn. generalize dependent (Z.to_nat d). intros n _ Hlt.
  do 32 (destruct n as [|n]; [reflexivity|]). lia.
Qed.

Lemma encodeLoop_allInAlphabet (k : nat) :
  forall (n : Z) (rest : string),
    0 <= n -> allInAlphabet rest = true ->
    allInAlphabet (encodeLoop k n rest) = true.
Proof.
  induction k as [|k IH]; intros n rest Hn Hrest; cbn [encodeLoop]; [done|].
  apply IH; [apply Z.div_pos; [done | by rewrite alphabetLen_32] |].
  cbn [allInAlphabet]. rewrite alphabetLen_32, digit_symbol_in_alphabet; [done|].
  apply Z.mod_pos_bound. lia.
Qed.

Lemma encodeLoop_ToUpper (k : nat) :
  forall (n : Z) (rest : string),
    0 <= n -> strings.ToUpper rest = rest ->
    strings.ToUpper (encodeLoop k n rest) = encodeLoop k n rest.
Proof.
  induction k as [|k IH]; intros n rest Hn Hrest; cbn [encodeLoop]; [done|].
  apply IH; [apply Z.div_pos; [done | by rewrite alphabetLen_32] |].
  cbn [strings.ToUpper]. rewrite alphabetLen_32, upperByte_symbol, Hrest; [done|].
  apply Z.mod_pos_bound. lia.
Qed.

Lemma clampLength_range (length : Z) : 4 <= clampLength length <= 6.
Proof.
  unfold clampLength, MinLength, MaxLength.
  destruct (length <? 4)%Z eqn:H1; destruct (length >? 6)%Z eqn:H2; cbn; lia.
Qed.

Lemma Encode_valid (n length : Z) :
  0 <= n -> IsValid (Encode n length) = true.
Proof.
  intros Hn. pose proof (clampLength_range length) as Hc.
  unfold IsValid, Encode.
  rewrite encodeLoop_length. cbn [String.length].
  rewrite Nat.add_0_r, Z2Nat.id by lia.
  unfold MinLength, MaxLength.
  destruct (clampLength length <? 4)%Z eqn:H1; [lia|].
  destruct (clampLength length >? 6)%Z eqn:H2; [lia|]. cbn.
  rewrite encodeLoop_ToUpper by done. by apply encodeLoop_allInAlphabet.
Qed.



(** Decoding what [Encode] wrote, at any requested length. *)
Lemma Decode_Encode_any_length (n length : Z) :
  0 <= n ->
  Decode (Encode n length) = inl (n mod 32 ^ clampLength length).
Proof.
  intros Hn. pose proof (clampLength_range length) as Hc.
  assert (Hpow : 0 < 32 ^ clampLength length <= 32 ^ 6).
  { split; [apply Z.pow_pos_nonneg; lia | apply Z.pow_le_mono_r; lia]. }
  assert (Hm : 0 <= n mod 32 ^ clampLength length < 32 ^ clampLength length)
    by (apply Z.mod_pos_bound; lia).
  unfold Decode, Encode. rewrite decode_encodeLoop by lia.
  cbn [strings.ToUpper decodeLoop]. rewrite Z2Nat.id by lia.
  rewrite Z.mul_0_l, Z.add_0_l. unfold u64. by rewrite Z.mod_small by lia.
Qed.

Lemma encodeLoop_mod (k : nat) :
  forall (n : Z) (rest : string),
    0 <= n ->
    encodeLoop k n rest = encodeLoop k (n mod 32 ^ Z.of_nat k) rest.
Proof.
  induction k as [|k IH]; intros n rest Hn; [reflexivity|].
  cbn [encodeLoop]. rewrite alphabetLen_32.
  assert (Hp : 0 < 32 ^ Z.of_nat k) by (apply Z.pow_pos_nonneg; lia).
  rewrite Nat2Z.inj_succ, Z.pow_succ_r by lia.
  rewrite (Z.rem_mul_r n 32 (32 ^ Z.of_nat k)) by lia.
  set (a := n mod 32). set (b := (n / 32) mod 32 ^ Z.of_nat k).
  assert (Ha : 0 <= a < 32) by (apply Z.mod_pos_bound; lia).
  assert (Hb : 0 <= b) by (apply Z.mod_pos_bound; lia).
  replace ((a + 32 * b) mod 32) with a
    by (rewrite (Z.mul_comm 32 b), Z.mod_add, Z.mod_small by lia; done).
  replace ((a + 32 * b) / 32) with b
    by (rewrite (Z.mul_comm 32 b), Z.div_add, Z.div_small by lia; lia).
  rewrite (IH (n / 32)) by (apply Z.div_pos; lia).
  rewrite (IH b) by done. fold b.
  subst b. by rewrite Z.mod_mod by lia.
Qed.

(** X2. [Encode] keeps the low digits of its input and nothing else: two
    unsigned numbers get the same code at a length exactly when they are
    congruent modulo 32 to the power of the clamped length. *)
Theorem Encode_eq_iff (n m length : Z) :
  0 <= n -> 0 <= m ->
  (Encode n length = Encode m length <->
   n mod 32 ^ clampLength length = m mod 32 ^ clampLength length).
Proof.
  intros Hn Hm. pose proof (clampLength_range length) as Hc. split.
  - intros Heq.
    pose proof (Decode_Encode_any_length n length Hn) as H1.
    pose proof (Decode_Encode_any_length m length Hm) as H2.
    rewrite Heq, H2 in H1. by injection H1.
  - intros Hmod. unfold Encode.
    rewrite (encodeLoop_mod _ n), (encodeLoop_mod _ m) by done.
    rewrite Z2Nat.id by lia. by rewrite Hmod.
Qed.

Lemma Encode_eq_iff_witness :
  0 <= 5 /\ 0 <= 5 + 32 ^ 4
  /\ Encode 5 4 = Encode (5 + 32 ^ 4) 4.
Proof.
  assert (H1 : 0 <= 5) by lia.
  assert (H2 : 0 <= 5 + 32 ^ 4) by lia.
  split; [exact H1|]. split; [exact H2|].
  apply (proj2 (Encode_eq_iff 5 (5 + 32 ^ 4) 4 H1 H2)). reflexivity.
Defined.

Lemma decodeLoop_base32Value (s : string) :
  forall acc : Z,
    decodeLoop s (u64 acc) =
    match base32Value s acc with
    | Some v => inl (u64 v)
    | None =>
        match decodeLoop s (u64 acc) with
        | inl _ => inl 0
        | inr e => inr e
        end
    end
    /\ (base32Value s acc = None -> exists e, decodeLoop s (u64 acc) = inr e).
Proof.
  induction s as [|c s IH]; intros acc; cbn [decodeLoop base32Value].
  - split; [done | discriminate].
  - destruct (alphabetIndex c) as [index|]; [|split; eauto].
    rewrite alphabetLen_32.
    replace (u64 (u64 (u64 acc * 32) + index)) with (u64 (acc * 32 + index))
      by (symmetry; apply u64_step).
    destruct (IH (acc * 32 + index)) as [H1 H2].
    destruct (base32Value s (acc * 32 + index)) as [v|] eqn:Hv; [done|].
    destruct (H2 eq_refl) as [e He]. rewrite He. eauto.
Qed.

Lemma Decode_by_base32Value (s : string) :
  match base32Value (strings.ToUpper s) 0 with
  | Some v => Decode s = inl (v mod 2 ^ 64)
  | None => exists e, Decode s = inr e
  end.
Proof.
  unfold Decode.
  destruct (decodeLoop_base32Value (strings.ToUpper s) 0) as [H1 H2].
  change (u64 0) with 0 in H1, H2.
  destruct (base32Value (strings.ToUpper s) 0) as [v|]; [exact H1 | by apply H2].
Qed.

(** X3. [Decode] does not detect overflow: on an ASCII string of symbols
    of any length it returns the number the upper-cased string denotes in
    base 32 reduced modulo 2^64, and it fails exactly when some byte is
    not a symbol. *)
Theorem Decode_wraps (s : string) :
  isASCII s = true ->
  match base32Value (strings.ToUpper s) 0 with
  | Some v => Decode s = inl (v mod 2 ^ 64)
  | None => exists e, Decode s = inr e
  end.
Proof. intros _. apply Decode_by_base32Value. Qed.

Lemma Decode_wraps_witness :
  isASCII "BAAAAAAAAAAAAA" = true
  /\ match base32Value (strings.ToUpper "BAAAAAAAAAAAAA") 0 with
     | Some v => Decode "BAAAAAAAAAAAAA" = inl (v mod 2 ^ 64)
     | None => exists e, Decode "BAAAAAAAAAAAAA" = inr e
     end.
Proof.
  assert (Hascii : isASCII "BAAAAAAAAAAAAA" = true) by reflexivity.
  split; [exact Hascii|]. exact (Decode_wraps "BAAAAAAAAAAAAA" Hascii).
Defined.

(** Fourteen symbols already exceed 64 bits: the leading symbol is lost. *)
Lemma Decode_wraps_example :
  Decode "BAAAAAAAAAAAAA" = inl 0 /\ Decode "AAAA" = inl 0
  /\ base32Value "BAAAAAAAAAAAAA" 0 = Some (32 ^ 13).
Proof. vm_compute. auto. Qed.

Lemma upperByte_idempotent (c : ascii) :
  strings.upperByte (strings.upperByte c) = strings.upperByte c.
Proof. destruct c as [[] [] [] [] [] [] [] []]; reflexivity. Qed.

Lemma ToUpper_idempotent (s : string) :
  strings.ToUpper (strings.ToUpper s) = strings.ToUpper s.
Proof.
  induction s as [|c s IH]; cbn; [done|]. by rewrite upperByte_idempotent, IH.
Qed.

Lemma ToUpper_length (s : string) :
  String.length (strings.ToUpper s) = String.length s.
Proof. induction s as [|c s IH]; cbn; [done|]. by rewrite IH. Qed.

Lemma decodeLoop_ok_iff (s : string) :
  forall r, (exists n, decodeLoop s r = inl n) <-> allInAlphabet s = true.
Proof.
  induction s as [|c s IH]; intros r; cbn [decodeLoop allInAlphabet].
  - split; eauto.
  - destruct (alphabetIndex c) as [index|]; [apply IH|].
    split; [intros [n [=]] | discriminate].
Qed.

(** X4. On ASCII strings, [IsValid] accepts exactly the strings of 4 to
    6 bytes that [Decode] decodes, and both ignore the case of the
    letters. *)
Theorem IsValid_iff_Decode (s : string) :
  isASCII s = true ->
  (IsValid s = true <->
   (4 <= String.length s <= 6)%nat /\ exists n, Decode s = inl n)
  /\ Decode (strings.ToUpper s) = Decode s
  /\ IsValid (strings.ToUpper s) = IsValid s.
Proof.
  intros _. split; [|split].
  - unfold IsValid, Decode, MinLength, MaxLength. rewrite decodeLoop_ok_iff.
    destruct (Z.of_nat (String.length s) <? 4)%Z eqn:H1;
      destruct (Z.of_nat (String.length s) >? 6)%Z eqn:H2; cbn;
      split; try discriminate; try (intros [? ?]; lia); intros; try split;
      try tauto; lia.
  - unfold Decode. by rewrite ToUpper_idempotent.
  - unfold IsValid. by rewrite ToUpper_idempotent, ToUpper_length.
Qed.

Lemma IsValid_iff_Decode_witness :
  isASCII "cg62" = true
  /\ (IsValid "cg62" = true <->
      (4 <= String.length "cg62" <= 6)%nat /\ exists n, Decode "cg62" = inl n).
Proof.
  assert (Hascii : isASCII "cg62" = true) by reflexivity.
  split; [exact Hascii|]. exact (proj1 (IsValid_iff_Decode "cg62" Hascii)).
Defined.

Lemma alphabetIndex_Some (c : ascii) (index : Z) :
  alphabetIndex c = Some index -> 0 <= index < 32 /\ alphabetAt index = c.
Proof.
  destruct c as [[] [] [] [] [] [] [] []]; vm_compute;
    intros [= <-]; repeat split; discriminate.
Qed.

Lemma base32Value_bounds (s : string) :
  forall acc v,
    0 <= acc -> base32Value s acc = Some v ->
    acc * 32 ^ Z.of_nat (String.length s) <= v
    < (acc + 1) * 32 ^ Z.of_nat (String.length s).
Proof.
  induction s as [|c s IH]; intros acc v Hacc; cbn [base32Value String.length].
  - intros [= <-]. change (32 ^ Z.of_nat 0) with 1. lia.
  - destruct (alphabetIndex c) as [index|] eqn:Hc; [|done]. intros Hv.
    apply alphabetIndex_Some in Hc as [Hi _].
    apply IH in Hv; [|lia].
    rewrite Nat2Z.inj_succ, Z.pow_succ_r by lia.
    assert (Hp : 0 < 32 ^ Z.of_nat (String.length s))
      by (apply Z.pow_pos_nonneg; lia).
    nia.
Qed.

Lemma encodeLoop_base32Value (s : string) :
  forall (acc v : Z) (j : nat) (rest : string),
    0 <= acc -> base32Value s acc = Some v ->
    encodeLoop (String.length s + j) v rest = encodeLoop j acc (s +:+ rest).
Proof.
  induction s as [|c s IH]; intros acc v j rest Hacc;
    cbn [base32Value String.length].
  - by intros [= <-].
  - destruct (alphabetIndex c) as [index|] eqn:Hc; [|done]. intros Hv.
    apply alphabetIndex_Some in Hc as [Hi Hat].
    replace (S (String.length s) + j)%nat with (String.length s + S j)%nat by lia.
    rewrite (IH (acc * 32 + index) v (S j) rest) by (done || lia).
    cbn [encodeLoop]. rewrite alphabetLen_32.
    replace ((acc * 32 + index) mod 32) with index
      by (rewrite (Z.add_comm (acc * 32)), Z.mod_add, Z.mod_small by lia; done).
    replace ((acc * 32 + index) / 32) with acc
      by (rewrite (Z.add_comm (acc * 32)), Z.div_add, Z.div_small by lia; lia).
    by rewrite Hat.
Qed.

Lemma IsValid_len_chars (s : string) :
  IsValid s = true ->
  (4 <= String.length s <= 6)%nat /\ allInAlphabet (strings.ToUpper s) = true.
Proof.
  unfold IsValid, MinLength, MaxLength.
  destruct (Z.of_nat (String.length s) <? 4)%Z eqn:H1; [done|].
  destruct (Z.of_nat (String.length s) >? 6)%Z eqn:H2; [done|]. cbn.
  intros ->. split; [lia | done].
Qed.

(** X5. The round trip from the string: an ASCII string that [IsValid]
    accepts decodes to a number whose code, at the length of the string,
    is the string in upper case. *)
Theorem Decode_Encode_roundtrip (s : string) :
  isASCII s = true ->
  IsValid s = true ->
  exists n,
    Decode s = inl n
    /\ 0 <= n < 32 ^ Z.of_nat (String.length s)
    /\ Encode n (Z.of_nat (String.length s)) = strings.ToUpper s.
Proof.
  intros _ Hvalid.
  apply IsValid_len_chars in Hvalid as [Hlen Hchars].
  pose proof (Decode_by_base32Value s) as Hd.
  destruct (base32Value (strings.ToUpper s) 0) as [v|] eqn:Hv.
  2:{ destruct Hd as [e He].
      destruct (proj2 (decodeLoop_ok_iff _ 0) Hchars) as [n Hn].
      unfold Decode in He. rewrite He in Hn. discriminate. }
  pose proof (base32Value_bounds _ 0 v (Z.le_refl 0) Hv) as Hb.
  rewrite ToUpper_length in Hb.
  assert (Hpow : 32 ^ Z.of_nat (String.length s) <= 32 ^ 6)
    by (apply Z.pow_le_mono_r; lia).
  rewrite Z.mod_small in Hd by lia.
  exists v. split; [done|]. split; [lia|].
  unfold Encode, clampLength, MinLength, MaxLength.
  destruct (Z.of_nat (String.length s) <? 4)%Z eqn:H1; [lia|].
  destruct (Z.of_nat (String.length s) >? 6)%Z eqn:H2; [lia|]. cbn [orb].
  rewrite Nat2Z.id.
  pose proof (encodeLoop_base32Value _ 0 v 0 EmptyString (Z.le_refl 0) Hv) as He.
  rewrite ToUpper_length, Nat.add_0_r in He. rewrite He. cbn [encodeLoop].
  clear. induction (strings.ToUpper s) as [|c t IH]; [done|].
  change (String c t +:+ "") with (String c (t +:+ "")). by rewrite IH.
Qed.

Lemma Decode_Encode_roundtrip_witness :
  isASCII "cg62" = true
  /\ IsValid "cg62" = true
  /\ exists n, Decode "cg62" = inl n
               /\ 0 <= n < 32 ^ Z.of_nat (String.length "cg62")
               /\ Encode n (Z.of_nat (String.length "cg62")) = "CG62".
Proof.
  assert (Hascii : isASCII "cg62" = true) by reflexivity.
  assert (Hv : IsValid "cg62" = true) by reflexivity.
  split; [exact Hascii|]. split; [exact Hv|].
  exact (Decode_Encode_roundtrip "cg62" Hascii Hv).
Defined.

Lemma capacityLoop_pow (k : nat) :
  forall capacity : Z,
    capacityLoop k capacity = u64 (u64 capacity * 32 ^ Z.of_nat k)
    \/ k = O.
Proof.
  induction k as [|k IH]; intros capacity; [by right|]. left.
  cbn [capacityLoop]. rewrite alphabetLen_32.
  destruct (IH (u64 (capacity * 32))) as [-> | ->].
  - rewrite Nat2Z.inj_succ, Z.pow_succ_r by lia. unfold u64.
    rewrite Z.mod_mod by lia.
    rewrite Z.mul_mod_idemp_l by lia.
    rewrite (Z.mul_mod_idemp_l capacity) by lia. f_equal. ring.
  - cbn [capacityLoop]. change (32 ^ Z.of_nat 1) with 32. unfold u64.
    by rewrite Z.mul_mod_idemp_l by lia.
Qed.

(** X6. [MaxCapacity] is 32^length up to length 12; from length 13 on the
    product overflows 64 bits and the result is 0; for a length that is
    not positive it is 1. *)
Theorem MaxCapacity_value (length : Z) :
  (length <= 0 -> MaxCapacity length = 1)
  /\ (0 <= length <= 12 -> MaxCapacity length = 32 ^ length)
  /\ (13 <= length -> MaxCapacity length = 0).
Proof.
  assert (Hgen : 0 < length ->
                 MaxCapacity length = (32 ^ length) mod 2 ^ 64).
  { intros Hl. unfold MaxCapacity.
    destruct (capacityLoop_pow (Z.to_nat length) 1) as [-> | H0]; [|lia].
    rewrite Z2Nat.id by lia. unfold u64.
    rewrite (Z.mod_small 1) by lia. by rewrite Z.mul_1_l. }
  split; [|split].
  - intros Hl. unfold MaxCapacity.
    replace (Z.to_nat length) with O by lia. reflexivity.
  - intros Hl. destruct (decide (length = 0)) as [-> | Hne]; [reflexivity|].
    rewrite Hgen by lia. apply Z.mod_small. split; [apply Z.pow_nonneg; lia|].
    apply Z.lt_le_trans with (32 ^ 12 + 1); [|lia].
    assert (32 ^ length <= 32 ^ 12) by (apply Z.pow_le_mono_r; lia). lia.
  - intros Hl. rewrite Hgen by lia.
    replace length with (13 + (length - 13)) by lia.
    rewrite Z.pow_add_r by lia.
    change (32 ^ 13) with (2 ^ 64 * 2).
    rewrite <- Z.mul_assoc, Z.mul_comm. apply Z.mod_mul. lia.
Qed.

End EncoderMore.

(** ** The MySQL repository *)

Section MySQLMore.

(** The codes of the table. *)
Local Abbreviation codes r := (map ShortCode (short_links r)).

Lemma existsb_code_In (rows : list ShortLink) (c : string) :
  existsb (fun row => String.eqb (ShortCode row) c) rows = true
  <-> In c (map ShortCode rows).
Proof.
  rewrite existsb_exists, in_map_iff. split.
  - intros (row & Hin & Heq). apply String.eqb_eq in Heq. eauto.
  - intros (row & Heq & Hin). exists row. by rewrite String.eqb_eq.
Qed.

Lemma countRows_zero_iff (cond : ShortLink -> bool) (rows : list ShortLink) :
  countRows cond rows = 0 <-> forall row, In row rows -> cond row = false.
Proof.
  unfold countRows. induction rows as [|row rows IH].
  - cbn. split; [intros _ ? [] | done].
  - rewrite filter_cons. destruct (decide (cond row = true)) as [Hc|Hc].
    + cbn [length]. split; [lia|]. intros Hall.
      specialize (Hall row (or_introl eq_refl)). congruence.
    + rewrite IH. apply not_true_is_false in Hc. split.
      * intros Hall row' [<- | Hin]; auto.
      * intros Hall row' Hin. apply Hall. by right.
Qed.

Lemma countRows_nonneg (cond : ShortLink -> bool) (rows : list ShortLink) :
  0 <= countRows cond rows.
Proof. unfold countRows. lia. Qed.

Lemma CheckExistsByCode_false_iff (r : MySQLRepository) (c : string) :
  db_error r = None ->
  (fst (MySQL_CheckExistsByCode r c) = false <-> ~ In c (codes r)).
Proof.
  intros Hdb. unfold MySQL_CheckExistsByCode. rewrite Hdb. cbn [fst].
  pose proof (countRows_nonneg (fun row => String.eqb (ShortCode row) c)
                (short_links r)) as Hnn.
  rewrite <- existsb_code_In, not_true_iff_false.
  destruct (existsb _ _) eqn:Hex.
  - apply existsb_exists in Hex as (row & Hin & Hrow).
    split; [|done]. intros Hgt. rewrite Z.gtb_ltb in Hgt.
    apply Z.ltb_ge in Hgt.
    assert (H0 : countRows (fun row => String.eqb (ShortCode row) c)
                   (short_links r) = 0) by lia.
    rewrite countRows_zero_iff in H0. rewrite (H0 row Hin) in Hrow. done.
  - split; [done|]. intros _.
    assert (H0 : countRows (fun row => String.eqb (ShortCode row) c)
                   (short_links r) = 0).
    { apply countRows_zero_iff. intros row Hin.
      destruct (String.eqb (ShortCode row) c) eqn:Heq; [|done].
      assert (existsb (fun row => String.eqb (ShortCode row) c)
                (short_links r) = true)
        by (apply existsb_exists; eauto). congruence. }
    rewrite H0. reflexivity.
Qed.

Lemma firstByID_snoc_false (cond : ShortLink -> bool)
    (rows : list ShortLink) (row : ShortLink) :
  cond row = false -> firstByID cond (rows ++ [row]) = firstByID cond rows.
Proof.
  intros Hc. induction rows as [|r0 rows IH]; cbn.
  - by rewrite Hc.
  - by rewrite IH.
Qed.

Lemma countRows_snoc (cond : ShortLink -> bool)
    (rows : list ShortLink) (row : ShortLink) :
  countRows cond (rows ++ [row])
  = countRows cond rows + (if cond row then 1 else 0).
Proof.
  unfold countRows. rewrite filter_app, length_app, filter_cons, filter_nil.
  destruct (decide (cond row = true)) as [->|Hc]; cbn [length]; [lia|].
  apply not_true_is_false in Hc. rewrite Hc. lia.
Qed.

Lemma MySQL_SaveShortLink_codes (r : MySQLRepository) (sl : ShortLink) :
  List.NoDup (codes r) ->
  List.NoDup (codes (fst (MySQL_SaveShortLink r sl))).
Proof.
  intros Hnd. unfold MySQL_SaveShortLink.
  destruct (db_error r) as [e|] eqn:Hdb; [done|].
  pose proof (existsb_code_In (short_links r) (ShortCode sl)) as Hex.
  destruct (existsb _ _) eqn:Hb; cbn [fst]; [done|].
  cbn [short_links]. rewrite map_app. cbn [map ShortCode].
  apply NoDup_ListNoDup, NoDup_app. split; [by apply NoDup_ListNoDup|].
  split; [|apply NoDup_singleton].
  intros c Hc Hc'. apply list_elem_of_singleton in Hc' as ->.
  apply list_elem_of_In, Hex in Hc. discriminate.
Qed.

(** X8. Insert and look up: after a successful [SaveShortLink] of an
    active entry, the code is reported as existing and
    [GetShortLinkByCode] returns a row with the code, the URL and the
    expiry of the entry; the lookups and existence checks of every other
    code answer as before (for codes made of symbols of the alphabet, on
    which the comparison of the column is the equality of strings). *)
Theorem MySQL_Save_then_lookup (r r1 : MySQLRepository) (sl : ShortLink) :
  MySQL_SaveShortLink r sl = (r1, None) ->
  Status sl = 1 ->
  (exists row,
      MySQL_GetShortLinkByCode r1 (ShortCode sl) = inl row
      /\ ShortCode row = ShortCode sl
      /\ OriginalURL row = OriginalURL sl
      /\ ExpireAt row = ExpireAt sl
      /\ Status row = 1)
  /\ MySQL_CheckExistsByCode r1 (ShortCode sl) = (true, None)
  /\ (forall c,
        encoder.allInAlphabet c = true ->
        encoder.allInAlphabet (ShortCode sl) = true ->
        c <> ShortCode sl ->
        MySQL_GetShortLinkByCode r1 c = MySQL_GetShortLinkByCode r c
        /\ MySQL_CheckExistsByCode r1 c = MySQL_CheckExistsByCode r c).
Proof.
  intros Hsave Hstatus. unfold MySQL_SaveShortLink in Hsave.
  destruct (db_error r) as [e|] eqn:Hdb; [done|].
  destruct (existsb _ _) eqn:Hex; [done|]. injection Hsave as <-.
  set (row := {| ID := _ |}).
  assert (Hrow : Status row = 1) by (cbn; by rewrite Hstatus).
  assert (Hnone : forall row', In row' (short_links r) ->
                    String.eqb (ShortCode row') (ShortCode sl) = false).
  { intros row' Hin. destruct (String.eqb _ _) eqn:Heq; [|done].
    assert (existsb (fun row => String.eqb (ShortCode row) (ShortCode sl))
              (short_links r) = true) by (apply existsb_exists; eauto).
    congruence. }
  unfold MySQL_GetShortLinkByCode, MySQL_CheckExistsByCode.
  cbn [db_error short_links]. rewrite Hdb. split; [|split].
  - exists row. rewrite firstByID_snoc.
    + cbn [ShortCode row]. rewrite String.eqb_refl, Hrow. done.
    + apply firstByID_None. intros row' Hin. by rewrite Hnone.
  - rewrite countRows_snoc. cbn [ShortCode row]. rewrite String.eqb_refl.
    pose proof (countRows_nonneg (fun row => String.eqb (ShortCode row)
                                    (ShortCode sl)) (short_links r)).
    f_equal. rewrite Z.gtb_ltb. apply Z.ltb_lt. lia.
  - intros c _ _ Hc.
    assert (Hne : String.eqb (ShortCode row) c = false).
    { cbn. apply String.eqb_neq. congruence. }
    split.
    + by rewrite firstByID_snoc_false by (by rewrite Hne).
    + rewrite countRows_snoc, Hne. by rewrite Z.add_0_r.
Qed.

Lemma MySQL_Save_then_lookup_witness :
  MySQL_SaveShortLink examples.emptyMySQL (examples.rowOther 1)
  = (fst (MySQL_SaveShortLink examples.emptyMySQL (examples.rowOther 1)), None)
  /\ Status (examples.rowOther 1) = 1
  /\ MySQL_CheckExistsByCode
       (fst (MySQL_SaveShortLink examples.emptyMySQL (examples.rowOther 1)))
       "CG62" = (true, None).
Proof.
  assert (Hs : MySQL_SaveShortLink examples.emptyMySQL (examples.rowOther 1)
               = (fst (MySQL_SaveShortLink examples.emptyMySQL
                         (examples.rowOther 1)), None)) by reflexivity.
  split; [exact Hs|]. split; [reflexivity|].
  exact (proj1 (proj2 (MySQL_Save_then_lookup _ _ _ Hs eq_refl))).
Defined.

End MySQLMore.

(** ** The expiry sweep *)

Section Cleanup.

Lemma filter_length_split (cond : ShortLink -> bool) (rows : list ShortLink) :
  Z.of_nat (length rows)
  = countRows cond rows
    + Z.of_nat (length (filter (fun row => cond row = false) rows)).
Proof.
  unfold countRows. induction rows as [|row rows IH]; [done|].
  rewrite !filter_cons. cbn [length].
  destruct (cond row) eqn:Hc.
  - rewrite decide_True by done. rewrite decide_False by done.
    cbn [length]. lia.
  - rewrite decide_False by done. rewrite decide_True by done.
    cbn [length]. lia.
Qed.

Lemma In_filter_false (cond : ShortLink -> bool) (rows : list ShortLink)
    (row : ShortLink) :
  In row (filter (fun row => cond row = false) rows)
  <-> In row rows /\ cond row = false.
Proof.
  rewrite <- !list_elem_of_In, list_elem_of_filter. tauto.
Qed.

Lemma MySQL_CleanupExpiredLinks_sweeps_aux (now : Time) (r : MySQLRepository) :
  db_error r = None ->
  forall row,
    In row (short_links (fst (MySQL_CleanupExpiredLinks now r)))
    <-> In row (short_links r)
        /\ ~ (exists t, ExpireAt row = Some t /\ t < now).
Proof.
  intros Hdb row. unfold MySQL_CleanupExpiredLinks. rewrite Hdb.
  cbn [fst short_links]. rewrite In_filter_false.
  unfold expiredBefore. destruct (ExpireAt row) as [t|].
  - rewrite Z.ltb_ge. split.
    + intros [Hin Hle]. split; [done|]. intros (t' & [= <-] & Hlt). lia.
    + intros [Hin Hno]. split; [done|].
      destruct (Z.lt_ge_cases t now); [|lia]. destruct Hno. eauto.
  - split; intros [Hin _]; split; try done. intros (t & [=] & _).
Qed.

(** X9. On a reachable database [CleanupExpiredLinks] deletes exactly the
    rows whose expiry lies strictly before the current time and returns
    their number; rows without expiry always stay; among the rows that
    stay, the active ones are exactly those of status 1 (a row that
    expires at this very instant is neither deleted nor inactive); and a
    second sweep at the same time deletes nothing. *)
Theorem MySQL_CleanupExpiredLinks_sweeps (now : Time) (r : MySQLRepository) :
  db_error r = None ->
  snd (MySQL_CleanupExpiredLinks now r)
  = (Z.of_nat (length (short_links r))
     - Z.of_nat (length (short_links (fst (MySQL_CleanupExpiredLinks now r)))),
     None)
  /\ (forall row,
        In row (short_links (fst (MySQL_CleanupExpiredLinks now r)))
        <-> In row (short_links r)
            /\ ~ (exists t, ExpireAt row = Some t /\ t < now))
  /\ (forall row,
        In row (short_links (fst (MySQL_CleanupExpiredLinks now r))) ->
        (IsActive now row = true <-> Status row = 1))
  /\ MySQL_CleanupExpiredLinks now (fst (MySQL_CleanupExpiredLinks now r))
     = (fst (MySQL_CleanupExpiredLinks now r), (0, None)).
Proof.
  intros Hdb. unfold MySQL_CleanupExpiredLinks. rewrite Hdb.
  cbn [fst snd short_links db_error].
  assert (Hexp : forall row, expiredBefore now row = false
                   <-> ~ (exists t, ExpireAt row = Some t /\ t < now)).
  { intros row. unfold expiredBefore. destruct (ExpireAt row) as [t|].
    - rewrite Z.ltb_ge. split.
      + intros Hle (t' & [= <-] & Hlt). lia.
      + intros Hno. destruct (Z.lt_ge_cases t now); [|done].
        destruct Hno. eauto.
    - split; [intros _ (t & [=] & _) | done]. }
  split; [|split; [|split]].
  - f_equal.
    pose proof (filter_length_split (expiredBefore now) (short_links r)). lia.
  - intros row. rewrite In_filter_false, Hexp. done.
  - intros row Hin. apply In_filter_false in Hin as [_ Hrow].
    unfold IsActive. unfold expiredBefore in Hrow.
    destruct (Z.eqb_spec (Status row) 1) as [Hs|Hs]; cbn [negb].
    + destruct (ExpireAt row) as [t|]; [|done].
      apply Z.ltb_ge in Hrow.
      destruct (now >? t)%Z eqn:Hgt; [|done].
      rewrite Z.gtb_ltb in Hgt. apply Z.ltb_lt in Hgt. lia.
    + split; [discriminate | done].
  - f_equal.
    + f_equal. clear. induction (short_links r) as [|row rows IH]; [done|].
      rewrite filter_cons. destruct (decide _) as [Hc|Hc]; [|done].
      rewrite filter_cons. rewrite decide_True by done. by rewrite IH.
    + f_equal. apply countRows_zero_iff. intros row Hin.
      by apply In_filter_false in Hin as [_ Hrow].
Qed.

Lemma MySQL_CleanupExpiredLinks_sweeps_witness :
  db_error examples2.sweepTable = None
  /\ snd (MySQL_CleanupExpiredLinks 200 examples2.sweepTable)
     = (Z.of_nat (length (short_links examples2.sweepTable))
        - Z.of_nat (length (short_links
                              (fst (MySQL_CleanupExpiredLinks 200
                                      examples2.sweepTable)))), None)
  /\ MySQL_CleanupExpiredLinks 200 examples2.sweepTable
     = ({| short_links := [examples.rowOther 1]; auto_increment := 3;
           db_error := None |}, (1, None)).
Proof.
  split; [reflexivity|]. split; [|reflexivity].
  exact (proj1 (MySQL_CleanupExpiredLinks_sweeps 200 examples2.sweepTable
                  eq_refl)).
Defined.

Lemma NoDup_map_inj_on {A B : Type} (f : A -> B) (l : list A) (a b : A) :
  List.NoDup (map f l) -> In a l -> In b l -> f a = f b -> a = b.
Proof.
  induction l as [|x l IH]; cbn; [done|].
  intros Hnd. apply List.NoDup_cons_iff in Hnd as [Hx Hnd].
  intros [<- | Ha] [<- | Hb] Heq; try done.
  - destruct Hx. rewrite Heq. by apply in_map.
  - destruct Hx. rewrite <- Heq. by apply in_map.
  - by apply IH.
Qed.

End Cleanup.

Section CleanupAndGet.
Context `{GoStdlib} {R B : Type}.
Context `{RedisRepositoryInterface R, BloomServiceInterface B}.
Implicit Types (s : ShortLinkService (M:=MySQLRepository) (R:=R) (B:=B)).

(** X10. The sweep turns "expired" into "not found" and frees the code:
    for an active row past its expiry, in a table of distinct codes and
    with nothing in the cache, [Get] reports the code as expired before
    the sweep and as not found after it, and after the sweep the existence
    check no longer reserves the code. *)
Theorem Get_before_and_after_cleanup (now : Time) s (row : ShortLink) (t : Time) :
  db_error (mysqlRepo s) = None ->
  List.NoDup (map ShortCode (short_links (mysqlRepo s))) ->
  In row (short_links (mysqlRepo s)) ->
  Status row = 1 -> ExpireAt row = Some t -> t < now ->
  cacheMiss s (ShortCode row) ->
  let swept :=
    {| mysqlRepo := fst (MySQL_CleanupExpiredLinks now (mysqlRepo s));
       redisRepo := redisRepo s; bloomSvc := bloomSvc s;
       domain := domain s |} in
  Get now s (ShortCode row) = (inr ErrShortLinkExpired, s)
  /\ Get now swept (ShortCode row) = (inr ErrShortLinkNotFound, swept)
  /\ CheckExistsByCode (mysqlRepo swept) (ShortCode row) = (false, None).
Proof.
  intros Hdb Hnd Hin Hst Hexp Hlt Hmiss swept.
  assert (Hgone : forall row', In row' (short_links (mysqlRepo swept)) ->
                    ShortCode row' <> ShortCode row).
  { intros row' Hin' Heq.
    destruct (MySQL_CleanupExpiredLinks_sweeps_aux now (mysqlRepo s) Hdb row')
      as [Hfwd _].
    destruct (Hfwd Hin') as [Hin0 Hno].
    assert (row' = row) by (eapply NoDup_map_inj_on; eauto). subst row'.
    destruct Hno. eauto. }
  split; [|split].
  - apply (Get_inactive_entry_expired now s _ row); [done| |right; eauto].
    cbn. unfold MySQL_GetShortLinkByCode. rewrite Hdb.
    destruct (firstByID _ _) as [sl|] eqn:Hf.
    + apply firstByID_Some in Hf as [Hin' Hc].
      apply andb_true_iff in Hc as [Hcode _]. apply String.eqb_eq in Hcode.
      f_equal. eapply NoDup_map_inj_on; eauto.
    + rewrite firstByID_None in Hf. specialize (Hf row Hin).
      rewrite String.eqb_refl, Hst in Hf. discriminate.
  - destruct (MySQL_GetShortLinkByCode_disabled (mysqlRepo swept) (ShortCode row))
      as [err Herr].
    + intros row' Hin' Heq. by destruct (Hgone row' Hin').
    + by apply (Get_not_found now swept _ err).
  - cbn. unfold MySQL_CheckExistsByCode, MySQL_CleanupExpiredLinks.
    rewrite Hdb. cbn [db_error short_links fst].
    f_equal. rewrite Z.gtb_ltb. apply Z.ltb_ge.
    assert (Hzero : countRows
                      (fun r0 => String.eqb (ShortCode r0) (ShortCode row))
                      (short_links (mysqlRepo swept)) = 0).
    { apply countRows_zero_iff. intros row' Hin'. apply String.eqb_neq.
      by apply Hgone. }
    subst swept. cbn in Hzero. unfold MySQL_CleanupExpiredLinks in Hzero.
    rewrite Hdb in Hzero. cbn in Hzero. lia.
Qed.

End CleanupAndGet.

Lemma Get_before_and_after_cleanup_witness :
  db_error examples2.sweepTable = None
  /\ List.NoDup (map ShortCode (short_links examples2.sweepTable))
  /\ In examples2.rowExpired (short_links examples2.sweepTable)
  /\ (150 < 200)
  /\ cacheMiss examples2.sweepService "AAAB"
  /\ Get 200 examples2.sweepService "AAAB"
     = (inr ErrShortLinkExpired, examples2.sweepService).
Proof.
  assert (Hnd : List.NoDup (map ShortCode (short_links examples2.sweepTable))).
  { cbn. constructor; [cbn; intros [? | []]; discriminate|].
    constructor; [intros [] | constructor]. }
  assert (Hin : In examples2.rowExpired (short_links examples2.sweepTable))
    by (cbn; auto).
  assert (Hlt : 150 < 200) by lia.
  assert (Hmiss : cacheMiss examples2.sweepService "AAAB")
    by (left; vm_compute; discriminate).
  split; [reflexivity|]. split; [exact Hnd|]. split; [exact Hin|].
  split; [exact Hlt|]. split; [exact Hmiss|].
  exact (proj1 (Get_before_and_after_cleanup 200 examples2.sweepService
                  examples2.rowExpired 150 eq_refl Hnd Hin eq_refl eq_refl
                  Hlt Hmiss)).
Defined.

(** ** Generation and the table *)

Section GenerateAndTable.
Context `{GoStdlib} {R B : Type}.
Context `{RedisRepositoryInterface R, BloomServiceInterface B}.
Implicit Types (s : ShortLinkService (M:=MySQLRepository) (R:=R) (B:=B)).

(** What the collision loop returns is a candidate of the URL, a valid
    code, and, on a reachable database, a code that no row holds. *)
Lemma generateWithCollision_returns s (url c : string) :
  fst (generateWithCollision s url) = inl c ->
  In c (candidates url)
  /\ encoder.IsValid c = true
  /\ (db_error (mysqlRepo s) = None ->
      ~ In c (map ShortCode (short_links (mysqlRepo s)))).
Proof.
  intros Hret.
  destruct (generateWithCollision_run s url)
    as (tried & _ & Hsub & [(Hr & _) | (pre & c' & -> & Hr & _ & Hfree)]).
  { congruence. }
  rewrite Hret in Hr. injection Hr as <-.
  assert (Hin : In c (candidates url)) by (apply Hsub, in_elt).
  split; [done|]. split.
  - apply In_candidates in Hin as (length & i & _ & _ & ->).
    unfold candidate. apply Encode_valid. unfold u64.
    apply Z.mod_pos_bound. lia.
  - intros Hdb. apply CheckExistsByCode_false_iff; [done|].
    unfold foundUsed in Hfree. by apply orb_false_iff in Hfree as [_ ?].
Qed.

(** X11. On a reachable database, whatever the filter answers, the
    collision loop never returns a code that a row of the table holds,
    active or disabled: the code it returns is one of the candidates of
    the URL, a valid code, and no row has it. *)
Theorem generateWithCollision_returns_unused s (url c : string) :
  db_error (mysqlRepo s) = None ->
  fst (generateWithCollision s url) = inl c ->
  ~ In c (map ShortCode (short_links (mysqlRepo s)))
  /\ In c (candidates url)
  /\ encoder.IsValid c = true.
Proof.
  intros Hdb Hret.
  destruct (generateWithCollision_returns s url c Hret) as (Hcand & Hvalid & Hfree).
  split; [by apply Hfree|done].
Qed.

(** X12. [Generate] never changes or deletes a row: either the table is
    left as it was, or one row is appended, which carries the returned
    code (a valid code, a candidate of the URL), the URL of the request and
    status 1; and when the codes of the table are pairwise distinct, they
    stay so. *)
Theorem Generate_table_effect (now : Time) s (req : GenerateRequest)
    (r : GenerateResponse + error) s1 :
  Generate now s req = (r, s1) ->
  (short_links (mysqlRepo s1) = short_links (mysqlRepo s)
   \/ exists row resp,
        r = inl resp
        /\ short_links (mysqlRepo s1) = short_links (mysqlRepo s) ++ [row]
        /\ ShortCode row = resp_ShortCode resp
        /\ OriginalURL row = req_URL req
        /\ Status row = 1
        /\ encoder.IsValid (ShortCode row) = true
        /\ In (ShortCode row) (candidates (req_URL req)))
  /\ (List.NoDup (map ShortCode (short_links (mysqlRepo s))) ->
      List.NoDup (map ShortCode (short_links (mysqlRepo s1)))).
Proof.
  unfold Generate.
  destruct (decide (req_URL req = "")) as [Hurl|Hurl]; [intros [= <- <-]; auto|].
  destruct (parseExpireAt _); [|intros [= <- <-]; auto].
  destruct (cachedShortLink s _); [intros [= <- <-]; auto|].
  destruct (GetShortLinkByURL _ _).
  { destruct (SaveShortLink _ _ _ _). intros [= <- <-]. cbn. auto. }
  destruct (fst (generateWithCollision s (req_URL req))) as [c|] eqn:Hg;
    [|intros [= <- <-]; auto].
  apply generateWithCollision_returns in Hg as (Hcand & Hvalid & _).
  set (sl := {| ID := 0 |}).
  pose proof (MySQL_SaveShortLink_codes (mysqlRepo s) sl) as Hnd.
  cbn [mysql_SaveShortLink MySQLRepository_impl].
  destruct (MySQL_SaveShortLink (mysqlRepo s) sl) as [mysql1 [serr|]] eqn:Hsave.
  - intros [= <- <-]. cbn [mysqlRepo fst] in *. split; [|done]. left.
    unfold MySQL_SaveShortLink in Hsave.
    destruct (db_error (mysqlRepo s)); [by injection Hsave as <-|].
    destruct (existsb _ _); [by injection Hsave as <-|done].
  - destruct (SaveShortLink _ _ _ _) as [redis1 ?].
    destruct (SaveShortLink redis1 _ _ _) as [redis2 ?].
    destruct (Add _ _) as [bloom1 ?]. intros [= <- <-].
    cbn [mysqlRepo fst] in *. split; [|done]. right.
    apply MySQL_SaveShortLink_ok in Hsave
      as (_ & _ & row & Hrows & Hcode & Hrowurl & Hstatus).
    cbn in Hcode, Hrowurl, Hstatus.
    exists row, (buildResponse s sl). cbn. by rewrite Hcode.
Qed.

End GenerateAndTable.

(** ** Generation, resolution and the cache *)

Lemma GetShortLinkByCode_after_save (r r1 : MySQLRepository) (sl : ShortLink) :
  MySQL_SaveShortLink r sl = (r1, None) ->
  Status sl = 1 ->
  exists row,
    MySQL_GetShortLinkByCode r1 (ShortCode sl) = inl row
    /\ ShortCode row = ShortCode sl
    /\ OriginalURL row = OriginalURL sl
    /\ ExpireAt row = ExpireAt sl
    /\ Status row = 1.
Proof.
  intros Hsave Hstatus. unfold MySQL_SaveShortLink in Hsave.
  destruct (db_error r) as [e|] eqn:Hdb; [done|].
  destruct (existsb _ _) eqn:Hex; [done|]. injection Hsave as <-.
  set (row := {| ID := _ |}).
  assert (Hrow : Status row = 1) by (cbn; by rewrite Hstatus).
  unfold MySQL_GetShortLinkByCode. cbn [db_error short_links].
  exists row. rewrite firstByID_snoc.
  - cbn [ShortCode row]. rewrite String.eqb_refl, Hrow. done.
  - apply firstByID_None. intros row' Hin.
    destruct (String.eqb (ShortCode row') (ShortCode sl)) eqn:Heq; [|done].
    assert (existsb (fun row => String.eqb (ShortCode row) (ShortCode sl))
              (short_links r) = true) by (apply existsb_exists; eauto).
    congruence.
Qed.

Lemma GetShortLinkByURL_after_save (r r1 : MySQLRepository) (sl : ShortLink)
    (err : error) :
  MySQL_SaveShortLink r sl = (r1, None) ->
  Status sl = 1 ->
  MySQL_GetShortLinkByURL r (OriginalURL sl) = inr err ->
  exists row,
    MySQL_GetShortLinkByURL r1 (OriginalURL sl) = inl row
    /\ ShortCode row = ShortCode sl.
Proof.
  intros Hsave Hstatus Hbyurl.
  apply MySQL_SaveShortLink_ok in Hsave
    as (Hdb & Hdb1 & row & Hrows & Hcode & Hrowurl & Hst).
  rewrite Hstatus in Hst. cbn in Hst.
  unfold MySQL_GetShortLinkByURL in *. rewrite Hdb in Hbyurl.
  rewrite Hdb1, Hrows.
  destruct (firstByID _ (short_links r)) eqn:Hfirst; [done|].
  rewrite (firstByID_snoc _ _ row Hfirst), Hrowurl, Hst, String.eqb_refl.
  cbn. eauto.
Qed.

Section GenerateThenResolve.
Context `{GoStdlib}.
Implicit Types
  (s : ShortLinkService (M:=MySQLRepository) (R:=RedisRepository) (B:=BloomService)).

(** What a [Generate] that gets as far as the collision loop and succeeds
    has done. *)
Lemma Generate_new_link (now : Time) s (req : GenerateRequest)
    (resp : GenerateResponse) s1 :
  reachesCollisionLoop s req ->
  Generate now s req = (inl resp, s1) ->
  exists c expireAt sl,
    resp_ShortCode resp = c
    /\ parseExpireAt (req_ExpireAt req) = inl expireAt
    /\ fst (generateWithCollision s (req_URL req)) = inl c
    /\ ShortCode sl = c /\ OriginalURL sl = req_URL req
    /\ ExpireAt sl = expireAt /\ Status sl = 1
    /\ MySQL_SaveShortLink (mysqlRepo s) sl = (mysqlRepo s1, None)
    /\ redisRepo s1
       = fst (Redis_SaveShortLink
                (fst (Redis_SaveShortLink (redisRepo s)
                        (buildCacheKey (req_URL req) (req_Params req)) c
                        ShortLinkCacheTTL))
                c (req_URL req) ShortLinkCacheTTL)
    /\ domain s1 = domain s.
Proof.
  intros (Hurl & [expireAt Hparse] & Hcache & [uerr Hbyurl]). unfold Generate.
  destruct (decide (req_URL req = "")); [done|].
  rewrite Hparse, Hcache, Hbyurl.
  destruct (fst (generateWithCollision s (req_URL req))) as [c|] eqn:Hg; [|done].
  destruct (mysql_SaveShortLink _ _) as [mysql1 [serr|]] eqn:Hsave; [done|].
  destruct (SaveShortLink _ _ _ _) as [redis1 e1] eqn:Hs1.
  destruct (SaveShortLink redis1 _ _ _) as [redis2 e2] eqn:Hs2.
  destruct (Add _ _) as [bloom1 e3]. intros [= <- <-].
  cbn in Hs1, Hs2, Hsave.
  match type of Hsave with
  | MySQL_SaveShortLink _ ?x = _ => exists c, expireAt, x
  end.
  cbn [resp_ShortCode buildResponse mysqlRepo redisRepo domain ShortCode
       OriginalURL ExpireAt Status].
  rewrite Hs1. cbn [fst]. rewrite Hs2. done.
Qed.

(** X13. Generate, then resolve: after a [Generate] that creates a link,
    [Get] on the returned code yields the URL of the request.  With a
    reachable Redis the cache answers, even for a link created with an
    expiry that is already past; with an unreachable Redis the row
    answers, provided the link has not expired. *)
Theorem Generate_then_Get (now1 now2 : Time) s (req : GenerateRequest)
    (resp : GenerateResponse) s1 :
  reachesCollisionLoop s req ->
  Generate now1 s req = (inl resp, s1) ->
  redis_error (redisRepo s) = None
  \/ (forall t, parseExpireAt (req_ExpireAt req) = inl (Some t) -> now2 <= t) ->
  exists sl s2,
    Get now2 s1 (resp_ShortCode resp) = (inl sl, s2)
    /\ ShortCode sl = resp_ShortCode resp
    /\ OriginalURL sl = req_URL req.
Proof.
  intros Hreach Hgen Hok.
  destruct (Generate_new_link now1 s req resp s1 Hreach Hgen)
    as (c & expireAt & sl & -> & Hparse & _ & Hcode & Hslurl & Hexp & Hst
        & Hsave & Hredis & _).
  destruct Hreach as (Hurl & _).
  assert (Herr1 : redis_error (redisRepo s1) = redis_error (redisRepo s))
    by (by rewrite Hredis, !Redis_SaveShortLink_error).
  destruct (redis_error (redisRepo s)) as [e|] eqn:Herr.
  - destruct Hok as [[=] | Hok].
    assert (Hmiss : cacheMiss s1 c).
    { left. cbn. unfold Redis_GetShortLink. by rewrite Herr1. }
    rewrite Get_cache_miss by done.
    destruct (GetShortLinkByCode_after_save _ _ _ Hsave Hst)
      as (row & Hrow & Hrc & Hru & Hre & Hrs).
    rewrite Hcode in Hrow. cbn [GetShortLinkByCode MySQLRepository_impl].
    rewrite Hrow.
    assert (Hact : IsActive now2 row = true).
    { unfold IsActive. rewrite Hrs, Hre, Hexp. cbn.
      destruct expireAt as [t|]; [|done].
      specialize (Hok t Hparse).
      destruct (now2 >? t)%Z eqn:Hgt; [|done].
      rewrite Z.gtb_ltb in Hgt. apply Z.ltb_lt in Hgt. lia. }
    rewrite Hact. cbn [negb].
    eexists _, _. split; [reflexivity|]. split; congruence.
  - unfold Get. cbn [GetShortLink RedisRepository_impl].
    unfold Redis_GetShortLink. rewrite Herr1, Hredis.
    rewrite Redis_SaveShortLink_strs
      by (by rewrite Redis_SaveShortLink_error).
    rewrite lookup_insert_eq. cbn.
    destruct (String.eqb_spec (req_URL req) ""); [done|]. cbn.
    eexists _, _. split; [reflexivity|]. done.
Qed.

(** X14. The URL de-dup ignores the template: once a link has been
    created for a URL, a request for the same URL with any other template
    (or none), whose cache key is not in the cache, gets the code of that
    link and creates no row. *)
Theorem Generate_ignores_template (now1 now2 : Time) s
    (req1 req2 : GenerateRequest) (resp1 : GenerateResponse) s1 :
  reachesCollisionLoop s req1 ->
  Generate now1 s req1 = (inl resp1, s1) ->
  req_URL req2 = req_URL req1 ->
  (exists expireAt, parseExpireAt (req_ExpireAt req2) = inl expireAt) ->
  strs (redisRepo s)
    !! shortLinkKey (buildCacheKey (req_URL req2) (req_Params req2)) = None ->
  exists resp2 s2,
    Generate now2 s1 req2 = (inl resp2, s2)
    /\ resp_ShortCode resp2 = resp_ShortCode resp1
    /\ mysqlRepo s2 = mysqlRepo s1.
Proof.
  intros Hreach Hgen Hsame Hparse2 Hfresh.
  destruct (Generate_new_link now1 s req1 resp1 s1 Hreach Hgen)
    as (c & expireAt & sl & -> & _ & Hg & Hcode & Hslurl & _ & Hst
        & Hsave & Hredis & _).
  destruct (generateWithCollision_returns s _ c Hg) as (Hcand & _ & _).
  apply In_candidates in Hcand as (length & i & _ & _ & Hc).
  assert (Hcolon : strings.Contains c ":" = false)
    by (rewrite Hc; apply candidate_no_colon).
  destruct Hreach as (Hurl & _ & _ & [uerr Hbyurl]).
  apply Generate_known_code; [by rewrite Hsame | done | |].
  - intros sl' Hc'. apply cachedShortLink_Some in Hc' as (code & Hget & _ & Hrow).
    cbn in Hget, Hrow.
    apply MySQL_GetShortLinkByCode_inl in Hrow as (_ & -> & _).
    apply Redis_GetShortLink_ok in Hget as [Herr Hlk].
    rewrite Hredis in Herr, Hlk. rewrite !Redis_SaveShortLink_error in Herr.
    rewrite !Redis_SaveShortLink_strs in Hlk
      by (by rewrite ?Redis_SaveShortLink_error).
    set (key2 := buildCacheKey (req_URL req2) (req_Params req2)) in *.
    destruct (decide (c = key2)) as [Hk|Hk].
    + rewrite <- Hk, lookup_insert_eq in Hlk. injection Hlk as <-.
      subst key2. unfold buildCacheKey in Hk. rewrite Hsame in Hk.
      destruct (req_Params req2) as [p|]; [|done].
      destruct (decide (size p = 0%nat)); [done|].
      rewrite Hk, Contains_colon_app in Hcolon. discriminate.
    + rewrite lookup_insert_ne in Hlk
        by (intros Heq; by apply shortLinkKey_inj in Heq).
      destruct (decide (buildCacheKey (req_URL req1) (req_Params req1) = key2))
        as [Hk1|Hk1].
      * rewrite Hk1, lookup_insert_eq in Hlk. by injection Hlk as <-.
      * rewrite lookup_insert_ne in Hlk
          by (intros Heq; by apply shortLinkKey_inj in Heq).
        rewrite Hfresh in Hlk. discriminate.
  - intros _. rewrite Hsame. cbn in Hbyurl |- *. rewrite <- Hslurl in Hbyurl |- *.
    destruct (GetShortLinkByURL_after_save _ _ _ _ Hsave Hst Hbyurl)
      as (row & Hrow & Hrc).
    exists row. split; [done|]. congruence.
Qed.

End GenerateThenResolve.

Section CacheAfterGet.
Context `{GoStdlib} {M B : Type}.
Context `{MySQLRepositoryInterface M, BloomServiceInterface B}.
Implicit Types (s : ShortLinkService (M:=M) (R:=RedisRepository) (B:=B)).

(** X15. Once [Get] has resolved a code from MySQL on a reachable Redis,
    the cache answers for the code: a later [Get], at any time and
    whatever has become of the row (disabled, expired, deleted), returns
    the URL without asking MySQL and without checking status or expiry,
    for as long as the cache entry lives. *)
Theorem Get_then_cached (now : Time) s (shortCode : string) (sl : ShortLink) s1 :
  redis_error (redisRepo s) = None ->
  cacheMiss s shortCode ->
  Get now s shortCode = (inl sl, s1) ->
  OriginalURL sl <> "" ->
  forall (now' : Time) (mysql' : M),
    let s' := {| mysqlRepo := mysql'; redisRepo := redisRepo s1;
                 bloomSvc := bloomSvc s1; domain := domain s1 |} in
    Get now' s' shortCode
    = (inl {| ID := 0; ShortCode := shortCode; OriginalURL := OriginalURL sl;
              Params := None; CreatedAt := zeroTime; ExpireAt := None;
              Status := 0 |}, s').
Proof.
  intros Herr Hmiss Hget Hurl now' mysql' s'.
  rewrite Get_cache_miss in Hget by done.
  destruct (GetShortLinkByCode (mysqlRepo s) shortCode) as [row|]; [|done].
  destruct (negb (IsActive now row)); [done|]. injection Hget as <- <-.
  subst s'. unfold Get. cbn.
  unfold Redis_GetShortLink, Redis_SaveShortLink. rewrite Herr. cbn.
  rewrite lookup_insert_eq. cbn.
  by destruct (String.eqb_spec (OriginalURL row) "").
Qed.

End CacheAfterGet.

(** ** The Redis repository and the counters *)

Section RedisMore.

Lemma HasPrefix_app (a b c : string) :
  strings.HasPrefix (a +:+ b +:+ c) (a +:+ b) = true.
Proof.
  induction a as [|x a IH].
  - change ("" +:+ b +:+ c) with (b +:+ c). change ("" +:+ b) with b.
    induction b as [|y b IHb]; [by destruct c|].
    change (String y b +:+ c) with (String y (b +:+ c)). cbn.
    by rewrite Ascii.eqb_refl.
  - change (String x a +:+ b +:+ c) with (String x (a +:+ b +:+ c)).
    change (String x a +:+ b) with (String x (a +:+ b)). cbn.
    by rewrite Ascii.eqb_refl.
Qed.

(** Folding a commutative step over a map after one key was written. *)
Lemma map_fold_after_insert {A B : Type} (f : string -> A -> B -> B) (b : B)
    (m : gmap string A) (i : string) (x : A) :
  (forall j1 j2 z1 z2 y, f j1 z1 (f j2 z2 y) = f j2 z2 (f j1 z1 y)) ->
  map_fold f b (<[i := x]> m) = f i x (map_fold f b (delete i m))
  /\ map_fold f b m
     = match m !! i with
       | Some y => f i y (map_fold f b (delete i m))
       | None => map_fold f b (delete i m)
       end.
Proof.
  intros Hcomm. split.
  - rewrite <- insert_delete_eq. apply map_fold_insert_L.
    + intros. apply Hcomm.
    + apply lookup_delete_eq.
  - destruct (m !! i) as [y|] eqn:Hi.
    + apply map_fold_delete_L; [|done]. intros. apply Hcomm.
    + by rewrite delete_id.
Qed.

Lemma pvKey_inj (c c' : string) : pvKey c = pvKey c' -> c = c'.
Proof.
  unfold pvKey, PVKeyPrefix. intros Heq.
  cbv [String.append] in Heq. by injection Heq.
Qed.

Lemma pvKey_not_source (c c' rest : string) :
  pvKey c <> sourceKey c' +:+ rest.
Proof.
  unfold pvKey, sourceKey, PVKeyPrefix, SourceKeyPrefix. intros Heq.
  cbv [String.append] in Heq. discriminate.
Qed.

End RedisMore.

Section Counting.
Context `{GoStdlib}.
Implicit Types (svc : AnalyticsService (R:=RedisRepository)).

(** What [RecordAccess] does to a reachable Redis. *)
Lemma RecordAccess_redis (today : string) svc
    (shortCode clientIP userAgent referer : string) :
  redis_error (as_redisRepo svc) = None ->
  let r := as_redisRepo svc in
  let dailyKey := uvKey shortCode +:+ ":" +:+ clock_day r in
  let r1 := as_redisRepo
              (fst (RecordAccess today svc shortCode clientIP userAgent referer)) in
  redis_error r1 = None
  /\ ints r1 !! pvKey shortCode
     = Some (default 0 (ints r !! pvKey shortCode) + 1)
  /\ (forall c, c <> shortCode -> ints r1 !! pvKey c = ints r !! pvKey c)
  /\ sets r1
     = <[dailyKey := {[today +:+ ":" +:+ clientIP]}
                     ∪ default ∅ (sets r !! dailyKey)]> (sets r).
Proof.
  intros Herr r dailyKey r1. subst r r1 dailyKey. unfold RecordAccess.
  cbn [IncrementPV AddUV AddSource RedisRepository_impl].
  unfold Redis_IncrementPV, Redis_AddUV, Redis_AddSource, incr.
  rewrite Herr. cbn [redis_error sets ints clock_day fst snd].
  destruct (negb _); cbn [as_redisRepo fst redis_error sets ints].
  - split; [done|]. split; [|split; [|done]].
    + rewrite lookup_insert_ne by (symmetry; apply pvKey_not_source).
      by rewrite lookup_insert_eq.
    + intros c Hc.
      rewrite lookup_insert_ne by (symmetry; apply pvKey_not_source).
      rewrite lookup_insert_ne; [done|]. intros Heq. by apply pvKey_inj in Heq.
  - split; [done|]. split; [|split; [|done]].
    + by rewrite lookup_insert_eq.
    + intros c Hc. rewrite lookup_insert_ne; [done|].
      intros Heq. by apply pvKey_inj in Heq.
Qed.

Lemma HasPrefix_nil (s : string) : strings.HasPrefix s "" = true.
Proof. by destruct s. Qed.

Lemma counter_key_prefixes (c rest : string) :
  strings.HasPrefix (pvKey c) PVKeyPrefix = true
  /\ strings.HasPrefix (sourceKey c +:+ rest) SourceKeyPrefix = true
  /\ strings.HasPrefix (uvKey c +:+ rest) UVKeyPrefix = true.
Proof.
  unfold pvKey, sourceKey, uvKey, PVKeyPrefix, SourceKeyPrefix, UVKeyPrefix.
  cbv [String.append]. cbn. by rewrite !HasPrefix_nil.
Qed.

Lemma counter_raised_positive (m : gmap string Z) (key : string) :
  map_Forall (fun key (n : Z) =>
                (strings.HasPrefix key PVKeyPrefix = true
                 \/ strings.HasPrefix key SourceKeyPrefix = true)
                /\ 0 < n) m ->
  0 < default 0 (m !! key) + 1.
Proof.
  intros Hm. destruct (m !! key) as [n|] eqn:Hk; cbn; [|lia].
  destruct (Hm key n Hk) as [_ Hn]. lia.
Qed.

(** [RecordAccess] keeps the keyspace separate. *)
Lemma RecordAccess_separateKeyspace (today : string) svc
    (shortCode clientIP userAgent referer : string) :
  redis_error (as_redisRepo svc) = None ->
  separateKeyspace (as_redisRepo svc) ->
  separateKeyspace
    (as_redisRepo
       (fst (RecordAccess today svc shortCode clientIP userAgent referer))).
Proof.
  intros Herr (Hstrs & Hints & Hsets). unfold RecordAccess.
  cbn [IncrementPV AddUV AddSource RedisRepository_impl].
  unfold Redis_IncrementPV, Redis_AddUV, Redis_AddSource, incr.
  rewrite Herr. cbn [redis_error sets ints clock_day fst snd].
  assert (Hcounted :
            map_Forall (fun key (n : Z) =>
                          (strings.HasPrefix key PVKeyPrefix = true
                           \/ strings.HasPrefix key SourceKeyPrefix = true)
                          /\ 0 < n)
              (<[pvKey shortCode :=
                   default 0 (ints (as_redisRepo svc) !! pvKey shortCode) + 1]>
                 (ints (as_redisRepo svc)))).
  { apply map_Forall_insert_2; [|done].
    split; [left; apply (counter_key_prefixes shortCode "") | by apply counter_raised_positive]. }
  assert (Hvisitors :
            map_Forall (fun key (_ : gset string) =>
                          strings.HasPrefix key UVKeyPrefix = true)
              (<[uvKey shortCode +:+ ":" +:+ clock_day (as_redisRepo svc) :=
                   {[today +:+ ":" +:+ clientIP]}
                   ∪ default ∅ (sets (as_redisRepo svc)
                                  !! (uvKey shortCode +:+ ":"
                                      +:+ clock_day (as_redisRepo svc)))]>
                 (sets (as_redisRepo svc))))
    by (apply map_Forall_insert_2; [apply counter_key_prefixes|done]).
  destruct (negb _); cbn [as_redisRepo fst]; (split; [done|split; [|done]]);
    cbn [ints]; [|done].
  apply map_Forall_insert_2; [|done].
  split; [right; apply counter_key_prefixes | by apply counter_raised_positive].
Qed.

(** X18. Counting a visit of a valid code on a reachable Redis whose
    keyspace is separate and whose PV for the code is below the largest
    int64: [RecordAccess] raises the PV that [GetStats] reports for the
    code by one and leaves the PV of every other code; it raises the UV
    by one when the visitor (the day and the client IP) is not yet in the
    set of the day, and leaves the UV as it is when the visitor is already
    there; and the keyspace stays separate. *)
Theorem RecordAccess_counts (today : string) svc
    (shortCode clientIP userAgent referer : string) :
  redis_error (as_redisRepo svc) = None ->
  encoder.IsValid shortCode = true ->
  separateKeyspace (as_redisRepo svc) ->
  PV (fst (GetStats svc shortCode)) < maxInt64 ->
  let svc1 := fst (RecordAccess today svc shortCode clientIP userAgent referer) in
  let seen :=
    default ∅ (sets (as_redisRepo svc)
                 !! (uvKey shortCode +:+ ":" +:+ clock_day (as_redisRepo svc))) in
  PV (fst (GetStats svc1 shortCode)) = PV (fst (GetStats svc shortCode)) + 1
  /\ (forall c, c <> shortCode ->
        PV (fst (GetStats svc1 c)) = PV (fst (GetStats svc c)))
  /\ UV (fst (GetStats svc1 shortCode))
     = UV (fst (GetStats svc shortCode))
       + (if bool_decide (today +:+ ":" +:+ clientIP ∈ seen) then 0 else 1)
  /\ separateKeyspace (as_redisRepo svc1).
Proof.
  intros Herr _ Hsep _ svc1 seen.
  assert (Hkeep : separateKeyspace (as_redisRepo svc1))
    by (by apply RecordAccess_separateKeyspace).
  destruct (RecordAccess_redis today svc shortCode clientIP userAgent referer Herr)
    as (Herr1 & Hpv & Hother & Hsets).
  fold svc1 in Herr1, Hpv, Hother, Hsets. fold seen in Hsets.
  assert (Hstats : forall (v : AnalyticsService (R:=RedisRepository)) c,
            redis_error (as_redisRepo v) = None ->
            PV (fst (GetStats v c)) = default 0 (ints (as_redisRepo v) !! pvKey c)
            /\ UV (fst (GetStats v c))
               = map_fold (fun key (members : gset string) total =>
                             if strings.HasPrefix key (uvKey c +:+ ":")
                             then total + Z.of_nat (size members) else total)
                   0 (sets (as_redisRepo v))).
  { intros v c Hv. unfold GetStats.
    cbn [GetPV GetUV RedisRepository_impl]. unfold Redis_GetPV, Redis_GetUV.
    rewrite Hv. by destruct (ints (as_redisRepo v) !! pvKey c). }
  pose proof (Hstats svc1 shortCode Herr1) as [Hp1 Hu1].
  pose proof (Hstats svc shortCode Herr) as [Hp0 Hu0].
  split; [by rewrite Hp1, Hp0, Hpv|]. split; [|split; [|exact Hkeep]].
  - intros c Hc. pose proof (Hstats svc1 c Herr1) as [Hq1 _].
    pose proof (Hstats svc c Herr) as [Hq0 _]. by rewrite Hq1, Hq0, Hother.
  - rewrite Hu1, Hu0, Hsets. clear Hstats Hp1 Hu1 Hp0 Hu0 Hkeep.
    set (f := fun key (members : gset string) total =>
                if strings.HasPrefix key (uvKey shortCode +:+ ":")
                then total + Z.of_nat (size members) else total).
    set (dk := uvKey shortCode +:+ ":" +:+ clock_day (as_redisRepo svc)) in *.
    assert (Hcomm : forall j1 j2 (z1 z2 : gset string) y,
              f j1 z1 (f j2 z2 y) = f j2 z2 (f j1 z1 y)).
    { intros. unfold f.
      destruct (strings.HasPrefix j1 _), (strings.HasPrefix j2 _); lia. }
    destruct (map_fold_after_insert f 0 (sets (as_redisRepo svc)) dk
                ({[today +:+ ":" +:+ clientIP]} ∪ seen) Hcomm) as [-> ->].
    assert (Hpre : strings.HasPrefix dk (uvKey shortCode +:+ ":") = true)
      by apply HasPrefix_app.
    assert (Hf : forall (members : gset string) y,
              f dk members y = y + Z.of_nat (size members))
      by (intros; unfold f; by rewrite Hpre).
    rewrite Hf.
    assert (Hsize : Z.of_nat (size ({[today +:+ ":" +:+ clientIP]} ∪ seen))
                    = Z.of_nat (size seen)
                      + (if bool_decide (today +:+ ":" +:+ clientIP ∈ seen)
                         then 0 else 1)).
    { case_bool_decide as Hin.
      - rewrite subseteq_union_1_L by set_solver. lia.
      - rewrite size_union by set_solver. rewrite size_singleton. lia. }
    rewrite Hsize. subst seen.
    destruct (sets (as_redisRepo svc) !! dk) as [members|] eqn:Hdk; cbn [default].
    + rewrite Hf. unfold id. lia.
    + rewrite size_empty. lia.
Qed.

End Counting.

(** ** The source counters *)

Section SourcesMore.

Lemma Contains_colon_cons (c : ascii) (s : string) :
  strings.Contains (String c s) ":" = false ->
  c <> ":"%char /\ strings.Contains s ":" = false.
Proof.
  cbn [strings.Contains strings.HasPrefix].
  destruct (Ascii.eqb_spec ":"%char c) as [<-|Hc].
  - by destruct s.
  - cbn [orb]. intros Hs. split; [congruence|done].
Qed.

Lemma lastIndexColon_no_colon (d : string) : forall i found,
  strings.Contains d ":" = false -> lastIndexColon d i found = found.
Proof.
  induction d as [|c d IH]; intros i found Hd; [done|].
  apply Contains_colon_cons in Hd as [Hc Hd]. cbn [lastIndexColon].
  destruct (Ascii.eqb_spec c ":"%char); [done|]. by apply IH.
Qed.

Lemma lastIndexColon_before_day (a d : string) : forall i found,
  strings.Contains d ":" = false ->
  lastIndexColon (a +:+ ":" +:+ d) i found = Some (i + String.length a)%nat.
Proof.
  induction a as [|c a IH]; intros i found Hd.
  - change ("" +:+ ":" +:+ d) with (String ":" d). cbn [lastIndexColon].
    rewrite Ascii.eqb_refl, lastIndexColon_no_colon by done.
    cbn. f_equal. lia.
  - change (String c a +:+ ":" +:+ d) with (String c (a +:+ ":" +:+ d)).
    cbn [lastIndexColon]. rewrite IH by done. cbn. f_equal. lia.
Qed.

Lemma drop_past_separator (a rest : string) (c : ascii) :
  strings.drop (String.length a + 1) (a +:+ String c rest) = rest.
Proof.
  induction a as [|x a IH]; [done|].
  change (String x a +:+ String c rest) with (String x (a +:+ String c rest)).
  cbn. apply IH.
Qed.

Lemma substring_prefix (a b : string) :
  String.substring 0 (String.length a) (a +:+ b) = a.
Proof.
  induction a as [|x a IH]; [by destruct b|].
  change (String x a +:+ b) with (String x (a +:+ b)). cbn. by rewrite IH.
Qed.

(** A valid code holds no colon. *)
Lemma IsValid_no_colon (s : string) :
  encoder.IsValid s = true -> strings.Contains s ":" = false.
Proof.
  intros Hvalid. apply IsValid_len_chars in Hvalid as [_ Hchars].
  induction s as [|c s IH]; [done|].
  cbn [strings.ToUpper encoder.allInAlphabet] in Hchars.
  destruct (encoder.alphabetIndex (strings.upperByte c)) eqn:Hc; [|done].
  cbn [strings.Contains strings.HasPrefix]. rewrite (IH Hchars).
  destruct (Ascii.eqb_spec ":"%char c) as [<-|]; [|done].
  vm_compute in Hc. discriminate.
Qed.

(** The key that [AddSource] writes reads back as the source. *)
Lemma sourceNameOfKey_dailyKey (shortCode source day : string) :
  source <> "" ->
  strings.Contains day ":" = false ->
  sourceNameOfKey shortCode
    (sourceKey shortCode +:+ ":" +:+ source +:+ ":" +:+ day) = source.
Proof.
  intros Hsrc Hday. unfold sourceNameOfKey.
  change (sourceKey shortCode +:+ ":" +:+ source +:+ ":" +:+ day)
    with (sourceKey shortCode +:+ String ":" (source +:+ ":" +:+ day)).
  rewrite drop_past_separator, lastIndexColon_before_day by done.
  destruct source as [|x source]; [done|]. cbn [String.length Nat.add].
  apply (substring_prefix (String x source)).
Qed.

Lemma HasPrefix_same_code (a b x : string) :
  strings.Contains a ":" = false ->
  strings.Contains b ":" = false ->
  strings.HasPrefix (a +:+ ":" +:+ x) (b +:+ ":") = true -> a = b.
Proof.
  revert b. induction a as [|c a IH]; intros [|p b] Ha Hb.
  - done.
  - apply Contains_colon_cons in Hb as [Hp _].
    change ("" +:+ ":" +:+ x) with (String ":" x).
    change (String p b +:+ ":") with (String p (b +:+ ":")). cbn [strings.HasPrefix].
    destruct (Ascii.eqb_spec p ":"%char); done.
  - apply Contains_colon_cons in Ha as [Hc _].
    change (String c a +:+ ":" +:+ x) with (String c (a +:+ ":" +:+ x)).
    change ("" +:+ ":") with (String ":" ""). cbn [strings.HasPrefix].
    destruct (Ascii.eqb_spec ":"%char c); [congruence|done].
  - apply Contains_colon_cons in Ha as [_ Ha].
    apply Contains_colon_cons in Hb as [_ Hb].
    change (String c a +:+ ":" +:+ x) with (String c (a +:+ ":" +:+ x)).
    change (String p b +:+ ":") with (String p (b +:+ ":")). cbn [strings.HasPrefix].
    destruct (Ascii.eqb_spec p c) as [->|]; [|done].
    intros Hpre. f_equal. by apply IH.
Qed.

Lemma sourceKey_prefix (c c' rest : string) :
  strings.HasPrefix (sourceKey c' +:+ rest) (sourceKey c +:+ ":")
  = strings.HasPrefix (c' +:+ rest) (c +:+ ":").
Proof. reflexivity. Qed.

Local Abbreviation sourcesOf shortCode :=
  (map_fold (fun key count (sources : gmap string Z) =>
               if strings.HasPrefix key (sourceKey shortCode +:+ ":")
               then
                 let name := sourceNameOfKey shortCode key in
                 <[name := default 0 (sources !! name) + count]> sources
               else sources)
     (∅ : gmap string Z)).

(** The step of the loop of [GetSources] commutes with itself. *)
Lemma GetSources_step_comm (shortCode : string) :
  let f := fun key count (sources : gmap string Z) =>
             if strings.HasPrefix key (sourceKey shortCode +:+ ":")
             then
               let name := sourceNameOfKey shortCode key in
               <[name := default 0 (sources !! name) + count]> sources
             else sources in
  forall j1 j2 z1 z2 y, f j1 z1 (f j2 z2 y) = f j2 z2 (f j1 z1 y).
Proof.
  intros f j1 j2 z1 z2 y. unfold f.
  destruct (strings.HasPrefix j1 _), (strings.HasPrefix j2 _); try done.
  cbv zeta.
  destruct (decide (sourceNameOfKey shortCode j1 = sourceNameOfKey shortCode j2))
    as [->|Hne].
  - rewrite !lookup_insert_eq, !insert_insert_eq. cbn. f_equal. lia.
  - rewrite !lookup_insert_ne by done. by apply insert_insert_ne.
Qed.

Lemma Redis_GetSources_ints (r : RedisRepository) (shortCode : string) :
  redis_error r = None ->
  fst (Redis_GetSources r shortCode) = sourcesOf shortCode (ints r).
Proof. intros Herr. unfold Redis_GetSources. by rewrite Herr. Qed.

(** A counter outside the pattern of the code does not show. *)
Lemma sourcesOf_other_key (shortCode key : string) (n : Z) (m : gmap string Z) :
  strings.HasPrefix key (sourceKey shortCode +:+ ":") = false ->
  sourcesOf shortCode (<[key := n]> m) = sourcesOf shortCode m.
Proof.
  intros Hpre.
  destruct (map_fold_after_insert _ ∅ m key n
              (GetSources_step_comm shortCode)) as [-> ->].
  rewrite Hpre. by destruct (m !! key).
Qed.

(** Raising the counter of a key of the pattern raises its source. *)
Lemma sourcesOf_incremented_key (shortCode key : string) (m : gmap string Z) :
  strings.HasPrefix key (sourceKey shortCode +:+ ":") = true ->
  let name := sourceNameOfKey shortCode key in
  sourcesOf shortCode (<[key := default 0 (m !! key) + 1]> m)
  = <[name := default 0 (sourcesOf shortCode m !! name) + 1]>
      (sourcesOf shortCode m).
Proof.
  intros Hpre name.
  destruct (map_fold_after_insert _ ∅ m key (default 0 (m !! key) + 1)
              (GetSources_step_comm shortCode)) as [-> ->].
  rewrite Hpre. cbv zeta. fold name.
  destruct (m !! key) as [n|]; cbn [default].
  - rewrite ?Hpre. cbv zeta. fold name.
    rewrite lookup_insert_eq, insert_insert_eq. cbn. f_equal. lia.
  - done.
Qed.

Context `{GoStdlib}.
Implicit Types (svc : AnalyticsService (R:=RedisRepository)).

(** The counters after [RecordAccess] on a reachable Redis. *)
Lemma RecordAccess_ints (today : string) svc
    (shortCode clientIP userAgent referer : string) :
  redis_error (as_redisRepo svc) = None ->
  let r := as_redisRepo svc in
  let r1 := as_redisRepo
              (fst (RecordAccess today svc shortCode clientIP userAgent referer)) in
  let source := extractSource referer in
  let dailyKey :=
    sourceKey shortCode +:+ ":" +:+ source +:+ ":" +:+ clock_day r in
  let counted :=
    <[pvKey shortCode := default 0 (ints r !! pvKey shortCode) + 1]> (ints r) in
  redis_error r1 = None
  /\ ints r1 = if String.eqb source "" then counted
               else <[dailyKey := default 0 (counted !! dailyKey) + 1]> counted.
Proof.
  intros Herr r r1 source dailyKey counted.
  subst r r1 source dailyKey counted. unfold RecordAccess.
  cbn [IncrementPV AddUV AddSource RedisRepository_impl].
  unfold Redis_IncrementPV, Redis_AddUV, Redis_AddSource, incr.
  rewrite Herr. cbn [redis_error sets ints clock_day fst snd].
  by destruct (String.eqb _ _).
Qed.

(** X19. Counting the source of a visit of a valid code on a reachable
    Redis whose keyspace is separate and whose source counts for the code
    are below the largest int64, on a day whose name has no colon: when
    [extractSource] yields a source, [RecordAccess] raises the count that
    [GetSources] reports for that source by one and leaves every other
    source of the code as it was (the key written, with the source between
    the code and the day, reads back as the source, whatever colons the
    source holds); when it yields the empty string, the sources read as
    before.  The sources of every other valid code are not touched, and
    the keyspace stays separate. *)
Theorem RecordAccess_sources (today : string) svc
    (shortCode clientIP userAgent referer : string) :
  redis_error (as_redisRepo svc) = None ->
  strings.Contains (clock_day (as_redisRepo svc)) ":" = false ->
  encoder.IsValid shortCode = true ->
  separateKeyspace (as_redisRepo svc) ->
  map_Forall (fun _ n => n < maxInt64)
    (fst (GetSources (as_redisRepo svc) shortCode)) ->
  let r := as_redisRepo svc in
  let r1 := as_redisRepo
              (fst (RecordAccess today svc shortCode clientIP userAgent referer)) in
  let source := extractSource referer in
  let before := fst (GetSources r shortCode) in
  (source <> "" ->
   fst (GetSources r1 shortCode)
   = <[source := default 0 (before !! source) + 1]> before)
  /\ (source = "" -> fst (GetSources r1 shortCode) = before)
  /\ (forall c,
        encoder.IsValid c = true ->
        c <> shortCode ->
        fst (GetSources r1 c) = fst (GetSources r c))
  /\ separateKeyspace r1.
Proof.
  intros Herr Hday Hvalid Hsep _ r r1 source before.
  assert (Hkeep : separateKeyspace r1)
    by (by apply RecordAccess_separateKeyspace).
  destruct (RecordAccess_ints today svc shortCode clientIP userAgent referer Herr)
    as [Herr1 Hints].
  fold r r1 source in Herr1, Hints. subst before.
  cbn [GetSources RedisRepository_impl].
  set (counted := <[pvKey shortCode := _]> (ints r)) in Hints.
  assert (Hbefore : forall c, fst (Redis_GetSources r c) = sourcesOf c counted).
  { intros c. rewrite Redis_GetSources_ints by done. symmetry.
    by apply sourcesOf_other_key. }
  assert (Hafter : forall c, fst (Redis_GetSources r1 c) = sourcesOf c (ints r1))
    by (intros c; by apply Redis_GetSources_ints).
  set (dailyKey := sourceKey shortCode +:+ ":" +:+ source +:+ ":" +:+ clock_day r)
    in Hints.
  destruct (String.eqb_spec source "") as [Hempty|Hne].
  { split; [done|]. rewrite Hints in Hafter.
    split; [|split; [|exact Hkeep]]; intros; by rewrite Hafter, Hbefore. }
  split; [|split; [done|split; [|exact Hkeep]]].
  - intros _. rewrite Hafter, Hbefore, Hints.
    rewrite <- (sourceNameOfKey_dailyKey shortCode source (clock_day r)) at 1 2
      by done.
    apply (sourcesOf_incremented_key shortCode dailyKey counted), HasPrefix_app.
  - intros c Hc Hother. rewrite Hafter, Hbefore, Hints.
    apply sourcesOf_other_key.
    subst dailyKey. rewrite sourceKey_prefix.
    destruct (strings.HasPrefix _ _) eqn:Hpre; [|done].
    apply HasPrefix_same_code in Hpre;
      [congruence | by apply IsValid_no_colon..].
Qed.

End SourcesMore.

(** ** The ranking of the sources *)

Section TopSources.
Implicit Types (l stats : list SourceStat) (i j k : nat).

Lemma swapIfGreater_Permutation l i j : swapIfGreater l i j ≡ₚ l.
Proof.
  unfold swapIfGreater.
  destruct (l !! i) as [a|] eqn:Hi, (l !! j) as [b|] eqn:Hj; try done.
  destruct (Count b >? Count a)%Z; [|done].
  by apply Permutation_insert_swap.
Qed.

Lemma swapIfGreater_lookup_ne l i j k :
  k <> i -> k <> j -> swapIfGreater l i j !! k = l !! k.
Proof.
  intros Hki Hkj. unfold swapIfGreater.
  destruct (l !! i) as [a|] eqn:Hi, (l !! j) as [b|] eqn:Hj; try done.
  destruct (Count b >? Count a)%Z; [|done].
  by rewrite !list_lookup_insert_ne.
Qed.

Lemma swapIfGreater_lookup l i j a b :
  i <> j -> l !! i = Some a -> l !! j = Some b ->
  exists a' b',
    swapIfGreater l i j !! i = Some a'
    /\ swapIfGreater l i j !! j = Some b'
    /\ Count b' <= Count a' /\ Count a <= Count a'
    /\ (a' = a /\ b' = b \/ a' = b /\ b' = a).
Proof.
  intros Hij Hi Hj. unfold swapIfGreater. rewrite Hi, Hj.
  destruct (Count b >? Count a)%Z eqn:Hgt.
  - exists b, a. rewrite Z.gtb_ltb in Hgt. apply Z.ltb_lt in Hgt.
    rewrite list_lookup_insert_eq
      by (rewrite length_insert; by eapply lookup_lt_Some).
    rewrite list_lookup_insert_ne by done.
    rewrite list_lookup_insert_eq by (by eapply lookup_lt_Some).
    repeat split; try lia. by right.
  - exists a, b. rewrite Z.gtb_ltb in Hgt. apply Z.ltb_ge in Hgt.
    repeat split; try done; try lia. by left.
Qed.

(** The inner loop: the prefix before [i] is untouched, the elements from
    [i] on are moved among themselves, and the element at [i] ends up with
    a count that no later element exceeds. *)
Lemma sortInner_spec k : forall i j l,
  (i < j)%nat -> (j + k = length l)%nat ->
  (forall b x y, (i < b < j)%nat ->
     l !! i = Some x -> l !! b = Some y -> Count y <= Count x) ->
  sortInner k i j l ≡ₚ l
  /\ (forall q, (q < i)%nat -> sortInner k i j l !! q = l !! q)
  /\ (forall b y, (i <= b)%nat -> sortInner k i j l !! b = Some y ->
        exists b', (i <= b')%nat /\ l !! b' = Some y)
  /\ (forall b x y, (i < b)%nat ->
        sortInner k i j l !! i = Some x -> sortInner k i j l !! b = Some y ->
        Count y <= Count x).
Proof.
  induction k as [|k IH]; intros i j l Hij Hlen Hdom; cbn [sortInner].
  - split; [done|]. split; [done|]. split; [eauto|].
    intros b x y Hb Hx Hy. apply (Hdom b x y); [|done..].
    apply lookup_lt_Some in Hy. lia.
  - destruct (lookup_lt_is_Some_2 l i ltac:(lia)) as [a Ha].
    destruct (lookup_lt_is_Some_2 l j ltac:(lia)) as [c Hc].
    destruct (swapIfGreater_lookup l i j a c ltac:(lia) Ha Hc)
      as (a' & c' & Ha' & Hc' & Hle & Hup & Hswap).
    pose proof (swapIfGreater_Permutation l i j) as Hperm.
    destruct (IH i (S j) (swapIfGreater l i j)) as (Hp & Hpre & Hfrom & Htop).
    + lia.
    + rewrite (Permutation_length Hperm). lia.
    + intros b x y Hb Hx Hy. rewrite Ha' in Hx. injection Hx as <-.
      destruct (decide (b = j)) as [->|Hbj].
      * rewrite Hc' in Hy. by injection Hy as <-.
      * rewrite swapIfGreater_lookup_ne in Hy by lia.
        specialize (Hdom b a y ltac:(lia) Ha Hy). lia.
    + split; [by rewrite Hp|]. split; [|split; [|done]].
      * intros q Hq. rewrite Hpre by done.
        apply swapIfGreater_lookup_ne; lia.
      * intros b y Hb Hy. destruct (Hfrom b y Hb Hy) as (b' & Hb' & Hy').
        destruct (decide (b' = i)) as [->|Hbi].
        { rewrite Ha' in Hy'. injection Hy' as <-.
          destruct Hswap as [[-> _] | [-> _]]; [exists i | exists j];
            split; (lia || done). }
        destruct (decide (b' = j)) as [->|Hbj].
        { rewrite Hc' in Hy'. injection Hy' as <-.
          destruct Hswap as [[_ ->] | [_ ->]]; [exists j | exists i];
            split; (lia || done). }
        exists b'. split; [done|].
        by rewrite swapIfGreater_lookup_ne in Hy'.
Qed.

(** The outer loop sorts: the result is a permutation of the input in
    which no element is followed by one with a greater count. *)
Lemma sortOuter_spec k : forall i l,
  (i + k = length l)%nat ->
  (forall a b x y, (a < i)%nat -> (a < b)%nat ->
     l !! a = Some x -> l !! b = Some y -> Count y <= Count x) ->
  sortOuter k i l ≡ₚ l
  /\ (forall a b x y, (a < b)%nat ->
        sortOuter k i l !! a = Some x -> sortOuter k i l !! b = Some y ->
        Count y <= Count x).
Proof.
  induction k as [|k IH]; intros i l Hlen Hsorted; cbn [sortOuter].
  - split; [done|]. intros a b x y Hab Hx Hy.
    apply (Hsorted a b x y); [|done..]. apply lookup_lt_Some in Hx. lia.
  - destruct (sortInner_spec (length l - S i) i (S i) l)
      as (Hp & Hpre & Hfrom & Htop); [lia | lia | intros; lia |].
    destruct (IH (S i) (sortInner (length l - S i) i (S i) l))
      as (Hp' & Hs').
    + rewrite (Permutation_length Hp). lia.
    + intros a b x y Ha Hab Hx Hy.
      destruct (decide (a = i)) as [->|Hai]; [by apply (Htop b x y)|].
      rewrite Hpre in Hx by lia.
      destruct (decide (b < i)%nat) as [Hbi|Hbi].
      * rewrite Hpre in Hy by done. apply (Hsorted a b x y); (lia || done).
      * destruct (Hfrom b y ltac:(lia) Hy) as (b' & Hb' & Hy').
        apply (Hsorted a b' x y); (lia || done).
    + split; [by rewrite Hp'|done].
Qed.

Lemma getTopSources_take (sources : gmap string Z) (limit : Z) :
  0 <= limit ->
  getTopSources sources limit
  = take (Z.to_nat limit)
      (sortOuter (size sources) 0
         ((fun kv => {| Source := fst kv; Count := snd kv |})
            <$> map_to_list sources)).
Proof.
  intros Hlimit. unfold getTopSources.
  change (map ?f ?l) with (f <$> l).
  rewrite length_fmap, length_map_to_list.
  destruct (decide (size sources = 0%nat)) as [Hz|Hz].
  - rewrite Hz. apply map_size_empty_iff in Hz as ->.
    rewrite map_to_list_empty. cbn. by rewrite take_nil.
  - set (sorted := sortOuter _ _ _).
    destruct (Z.of_nat (length sorted) >? limit)%Z eqn:Hgt; [done|].
    rewrite Z.gtb_ltb in Hgt. apply Z.ltb_ge in Hgt.
    rewrite take_ge; [done|lia].
Qed.

(** X21. [getTopSources] with a limit that is not negative returns the
    top of the ranking: as many entries as the limit allows and the map
    holds, each an entry of the map, no source twice, in descending order
    of the counts, and no source that is left out has a greater count than
    a source that is returned. *)
Theorem getTopSources_top (sources : gmap string Z) (limit : Z) :
  0 <= limit ->
  let top := getTopSources sources limit in
  length top = Nat.min (Z.to_nat limit) (size sources)
  /\ (forall e, In e top -> sources !! Source e = Some (Count e))
  /\ List.NoDup (map Source top)
  /\ (forall i j a b, (i < j)%nat ->
        top !! i = Some a -> top !! j = Some b -> Count b <= Count a)
  /\ (forall name n,
        sources !! name = Some n -> ~ In name (map Source top) ->
        forall e, In e top -> n <= Count e).
Proof.
  intros Hlimit top. subst top. rewrite getTopSources_take by done.
  set (mk := fun kv : string * Z => {| Source := fst kv; Count := snd kv |}).
  set (stats := mk <$> map_to_list sources).
  destruct (sortOuter_spec (size sources) 0 stats) as (Hperm & Hsorted).
  { subst stats. by rewrite length_fmap, length_map_to_list. }
  { intros; lia. }
  set (sorted := sortOuter (size sources) 0 stats) in *.
  assert (Hentry : forall e, e ∈ sorted <->
            sources !! Source e = Some (Count e)).
  { intros e. rewrite Hperm. subst stats. rewrite list_elem_of_fmap. split.
    - intros ([name n] & -> & Hin). by apply elem_of_map_to_list in Hin.
    - intros Hlk. exists (Source e, Count e). split; [by destruct e|].
      by apply elem_of_map_to_list. }
  split; [|split; [|split; [|split]]].
  - rewrite length_take, (Permutation_length Hperm). subst stats.
    by rewrite length_fmap, length_map_to_list.
  - intros e Hin. apply list_elem_of_In in Hin. apply Hentry.
    apply elem_of_take in Hin as (i & Hi & _).
    by eapply list_elem_of_lookup_2.
  - apply NoDup_ListNoDup. change (map Source ?l) with (Source <$> l).
    rewrite fmap_take. eapply sublist_NoDup; [|apply sublist_take].
    rewrite Hperm. subst stats. rewrite <- list_fmap_compose.
    apply NoDup_fst_map_to_list.
  - intros i j a b Hij Ha Hb.
    apply lookup_take_Some in Ha as [Ha _]. apply lookup_take_Some in Hb as [Hb _].
    by apply (Hsorted i j a b).
  - intros name n Hlk Hout e Hin.
    assert (Hx : {| Source := name; Count := n |} ∈ sorted) by by apply Hentry.
    apply list_elem_of_lookup_1 in Hx as [k Hk].
    apply list_elem_of_In, elem_of_take in Hin as (i & Hi & Hlt).
    destruct (decide (k < Z.to_nat limit)%nat) as [Hin'|Hout'].
    + exfalso. apply Hout.
      apply (in_map Source _ {| Source := name; Count := n |}).
      apply list_elem_of_In, elem_of_take. eauto.
    + apply (Hsorted i k e {| Source := name; Count := n |}); [lia|done..].
Qed.

End TopSources.

(** ** Analytics on a failing backend *)

Section AnalyticsFaults.
Context `{GoStdlib} {R : Type} `{RedisRepositoryInterface R}.
Implicit Types (svc : AnalyticsService (R:=R)).

(** X20. The analytics service absorbs every error of its backend,
    whatever implementation of the Redis interface it runs on:
    [RecordAccess] and [GetStats] return no error and [GetAnalytics]
    always returns a response, for the code asked; a counter that cannot be
    read is reported as 0 and a counter that can be read is reported as
    read; and the response lists at most ten sources. *)
Theorem analytics_absorb_backend_errors svc (shortCode : string) :
  (forall today clientIP userAgent referer,
      snd (RecordAccess today svc shortCode clientIP userAgent referer) = None)
  /\ snd (GetStats svc shortCode) = None
  /\ PV (fst (GetStats svc shortCode))
     = (if bool_decide (snd (GetPV (as_redisRepo svc) shortCode) = None)
        then fst (GetPV (as_redisRepo svc) shortCode) else 0)
  /\ UV (fst (GetStats svc shortCode))
     = (if bool_decide (snd (GetUV (as_redisRepo svc) shortCode) = None)
        then fst (GetUV (as_redisRepo svc) shortCode) else 0)
  /\ exists resp,
       GetAnalytics svc shortCode = inl resp
       /\ an_ShortCode resp = shortCode
       /\ an_PV resp = PV (fst (GetStats svc shortCode))
       /\ an_UV resp = UV (fst (GetStats svc shortCode))
       /\ (length (TopSources resp) <= 10)%nat.
Proof.
  split; [|split; [|split; [|split]]].
  - intros today clientIP userAgent referer. unfold RecordAccess.
    destruct (IncrementPV _ _) as [r1 ?]. destruct (AddUV _ _ _) as [r2 ?].
    destruct (negb _); [|done]. by destruct (AddSource _ _ _).
  - unfold GetStats. by destruct (GetPV _ _), (GetUV _ _).
  - unfold GetStats. destruct (GetPV _ _) as [pv [e|]], (GetUV _ _); done.
  - unfold GetStats. destruct (GetPV _ _), (GetUV _ _) as [uv [e|]]; done.
  - unfold GetAnalytics.
    assert (Hnone : snd (GetStats svc shortCode) = None)
      by (unfold GetStats; by destruct (GetPV _ _), (GetUV _ _)).
    destruct (GetStats svc shortCode) as [stats err]. cbn in Hnone. subst err.
    destruct (GetSources _ _) as [sources err]. eexists. split; [reflexivity|].
    cbn [an_ShortCode an_PV an_UV TopSources fst]. repeat split.
    rewrite getTopSources_take by lia. rewrite length_take. lia.
Qed.

End AnalyticsFaults.

(** ** The number of rows *)

Section TotalCount.

(** X22. The row count on a reachable database: [GetTotalLinksCount]
    fails never; [SaveShortLink] raises it by one when it succeeds and
    leaves it when it is rejected; [CleanupExpiredLinks] lowers it by the
    number it returns, which lies between 0 and the count; and a code that
    [CheckExistsByCode] reports, of an active or a disabled row, is
    counted. *)
Theorem MySQL_GetTotalLinksCount_bookkeeping (r : MySQLRepository) :
  db_error r = None ->
  snd (MySQL_GetTotalLinksCount r) = None
  /\ (forall sl,
        fst (MySQL_GetTotalLinksCount (fst (MySQL_SaveShortLink r sl)))
        = fst (MySQL_GetTotalLinksCount r)
          + (if bool_decide (snd (MySQL_SaveShortLink r sl) = None)
             then 1 else 0))
  /\ (forall now,
        fst (MySQL_GetTotalLinksCount (fst (MySQL_CleanupExpiredLinks now r)))
        = fst (MySQL_GetTotalLinksCount r)
          - fst (snd (MySQL_CleanupExpiredLinks now r))
        /\ 0 <= fst (snd (MySQL_CleanupExpiredLinks now r))
           <= fst (MySQL_GetTotalLinksCount r))
  /\ (forall shortCode,
        fst (MySQL_CheckExistsByCode r shortCode) = true ->
        0 < fst (MySQL_GetTotalLinksCount r)).
Proof.
  intros Hdb. unfold MySQL_GetTotalLinksCount at 1. rewrite Hdb.
  split; [done|]. split; [|split].
  - intros sl. unfold MySQL_SaveShortLink. rewrite Hdb.
    destruct (existsb _ _); cbn [fst snd].
    + rewrite bool_decide_eq_false_2 by done. lia.
    + unfold MySQL_GetTotalLinksCount. rewrite Hdb. cbn [db_error short_links fst].
      rewrite bool_decide_eq_true_2 by done. rewrite length_app. cbn. lia.
  - intros now. unfold MySQL_CleanupExpiredLinks, MySQL_GetTotalLinksCount.
    rewrite Hdb. cbn [db_error short_links fst snd].
    pose proof (filter_length_split (expiredBefore now) (short_links r)).
    pose proof (countRows_nonneg (expiredBefore now) (short_links r)).
    split; [lia|split; lia].
  - intros shortCode. unfold MySQL_CheckExistsByCode, MySQL_GetTotalLinksCount.
    rewrite Hdb. cbn [fst]. intros Hgt.
    rewrite Z.gtb_ltb in Hgt. apply Z.ltb_lt in Hgt.
    pose proof (filter_length_split
                  (fun row => String.eqb (ShortCode row) shortCode)
                  (short_links r)) as Hsplit.
    cbv beta in Hsplit.
    set (others := length (filter _ _)) in Hsplit. lia.
Qed.

End TotalCount.

(** ** The collision loop without the filter *)

Section FirstFit.
Context `{GoStdlib} {R B : Type}.
Context `{RedisRepositoryInterface R, BloomServiceInterface B}.
Implicit Types (s : ShortLinkService (M:=MySQLRepository) (R:=R) (B:=B)).

(** The search stops at the first candidate that is not found used. *)
Lemma searchFree_find s (cs : list string) :
  fst (searchFree s cs) = find (fun c => negb (foundUsed s c)) cs.
Proof.
  induction cs as [|c cs IH]; cbn [searchFree find]; [done|].
  pose proof (tryCode_fst s c) as Hf.
  destruct (tryCode s c) as [free calls]. cbn [fst] in Hf. subst free.
  destruct (foundUsed s c); cbn [negb]; [|done].
  by destruct (searchFree s cs).
Qed.

(** X23. With a filter that never answers "present" (down, empty or
    reset) and a reachable database whose codes are made of symbols of the
    alphabet, the collision loop is a first-fit search of the table: it
    returns the first candidate of the URL, in the order of the lengths
    and the attempts, that no row holds, and it fails with
    [ErrMaxCapacityReached] only when rows hold all the candidates. *)
Theorem generateWithCollision_first_fit s (url : string) :
  db_error (mysqlRepo s) = None ->
  Forall (fun c => encoder.allInAlphabet c = true)
    (map ShortCode (short_links (mysqlRepo s))) ->
  (forall c, Exists (bloomSvc s) c <> (true, None)) ->
  fst (generateWithCollision s url)
  = match find (fun c => negb (existsb (String.eqb c)
                                 (map ShortCode (short_links (mysqlRepo s)))))
            (candidates url) with
    | Some c => inl c
    | None => inr ErrMaxCapacityReached
    end.
Proof.
  intros Hdb _ Hbloom. rewrite generateWithCollision_searchFree.
  pose proof (searchFree_find s (candidates url)) as Hfind.
  destruct (searchFree s (candidates url)) as [r calls]. cbn [fst] in *.
  assert (Hsame : forall cs,
            find (fun c => negb (foundUsed s c)) cs
            = find (fun c => negb (existsb (String.eqb c)
                                     (map ShortCode (short_links (mysqlRepo s)))))
                cs).
  { induction cs as [|c cs IH]; [done|]. cbn [find]. rewrite IH.
    replace (foundUsed s c)
      with (existsb (String.eqb c) (map ShortCode (short_links (mysqlRepo s))));
      [done|].
    unfold foundUsed, indexReportsPresent, storeReportsPresent.
    rewrite bool_decide_eq_false_2 by apply Hbloom. cbn [orb].
    pose proof (CheckExistsByCode_false_iff (mysqlRepo s) c Hdb) as Hiff.
    cbn [CheckExistsByCode MySQLRepository_impl].
    destruct (fst (MySQL_CheckExistsByCode (mysqlRepo s) c)) eqn:Hc.
    - apply existsb_exists.
      destruct (in_dec string_dec c (map ShortCode (short_links (mysqlRepo s))))
        as [Hin|Hout].
      + exists c. split; [done|]. apply String.eqb_refl.
      + apply Hiff in Hout. congruence.
    - apply not_true_is_false. intros Hex.
      apply existsb_exists in Hex as (c' & Hin & Heq).
      apply String.eqb_eq in Heq as <-. by apply (proj1 Hiff). }
  rewrite <- Hsame, <- Hfind. by destruct r.
Qed.

End FirstFit.

(** ** The properties on the example states *)

Section FurtherExamples.
Import examples2.

Lemma generateWithCollision_returns_unused_witness :
  db_error (mysqlRepo emptiedBloomService) = None
  /\ fst (generateWithCollision emptiedBloomService "https://a.com") = inl "CG63"
  /\ In "CG62" (map ShortCode (short_links (mysqlRepo emptiedBloomService)))
  /\ ~ In "CG63" (map ShortCode (short_links (mysqlRepo emptiedBloomService))).
Proof.
  assert (Hret : fst (generateWithCollision emptiedBloomService "https://a.com")
                 = inl "CG63") by (vm_compute; reflexivity).
  split; [reflexivity|]. split; [exact Hret|]. split; [cbn; auto|].
  exact (proj1 (generateWithCollision_returns_unused emptiedBloomService
                  "https://a.com" "CG63" eq_refl Hret)).
Defined.

Lemma Generate_table_effect_witness :
  Generate 5 freshService requestA
  = (inl {| resp_ShortLink := "https://s.example.com/CG62";
            resp_ShortCode := "CG62";
            resp_OriginalURL := "https://a.com";
            resp_ExpireAt := 0 |},
     snd (Generate 5 freshService requestA))
  /\ (List.NoDup (map ShortCode (short_links (mysqlRepo freshService))) ->
      List.NoDup
        (map ShortCode
           (short_links (mysqlRepo (snd (Generate 5 freshService requestA)))))).
Proof.
  assert (Hgen : Generate 5 freshService requestA
                 = (inl {| resp_ShortLink := "https://s.example.com/CG62";
                           resp_ShortCode := "CG62";
                           resp_OriginalURL := "https://a.com";
                           resp_ExpireAt := 0 |},
                    snd (Generate 5 freshService requestA)))
    by (vm_compute; reflexivity).
  split; [exact Hgen|].
  exact (proj2 (Generate_table_effect 5 freshService requestA _ _ Hgen)).
Defined.

Lemma Generate_then_Get_witness :
  reachesCollisionLoop freshService requestA
  /\ Generate 5 freshService requestA
     = (inl {| resp_ShortLink := "https://s.example.com/CG62";
               resp_ShortCode := "CG62";
               resp_OriginalURL := "https://a.com";
               resp_ExpireAt := 0 |},
        snd (Generate 5 freshService requestA))
  /\ exists sl s2,
       Get 9 (snd (Generate 5 freshService requestA)) "CG62" = (inl sl, s2)
       /\ ShortCode sl = "CG62"
       /\ OriginalURL sl = "https://a.com".
Proof.
  assert (Hreach : reachesCollisionLoop freshService requestA).
  { split; [discriminate|]. split; [by exists None|].
    split; [reflexivity|]. by exists ErrRecordNotFound. }
  assert (Hgen : Generate 5 freshService requestA
                 = (inl {| resp_ShortLink := "https://s.example.com/CG62";
                           resp_ShortCode := "CG62";
                           resp_OriginalURL := "https://a.com";
                           resp_ExpireAt := 0 |},
                    snd (Generate 5 freshService requestA)))
    by (vm_compute; reflexivity).
  split; [exact Hreach|]. split; [exact Hgen|].
  exact (Generate_then_Get 5 9 freshService requestA _ _ Hreach Hgen
           (or_introl eq_refl)).
Defined.

Lemma Generate_ignores_template_witness :
  reachesCollisionLoop freshService requestA
  /\ strs (redisRepo freshService)
       !! shortLinkKey (buildCacheKey (req_URL requestB) (req_Params requestB))
     = None
  /\ exists resp2 s2,
       Generate 6 (snd (Generate 5 freshService requestA)) requestB
       = (inl resp2, s2)
       /\ resp_ShortCode resp2 = "CG62"
       /\ mysqlRepo s2 = mysqlRepo (snd (Generate 5 freshService requestA)).
Proof.
  assert (Hreach : reachesCollisionLoop freshService requestA).
  { split; [discriminate|]. split; [by exists None|].
    split; [reflexivity|]. by exists ErrRecordNotFound. }
  assert (Hgen : Generate 5 freshService requestA
                 = (inl {| resp_ShortLink := "https://s.example.com/CG62";
                           resp_ShortCode := "CG62";
                           resp_OriginalURL := "https://a.com";
                           resp_ExpireAt := 0 |},
                    snd (Generate 5 freshService requestA)))
    by (vm_compute; reflexivity).
  assert (Hfresh : strs (redisRepo freshService)
             !! shortLinkKey (buildCacheKey (req_URL requestB) (req_Params requestB))
           = None) by apply lookup_empty.
  split; [exact Hreach|]. split; [exact Hfresh|].
  exact (Generate_ignores_template 5 6 freshService requestA requestB _ _
           Hreach Hgen eq_refl (ex_intro _ None eq_refl) Hfresh).
Defined.

Lemma Get_then_cached_witness :
  redis_error (redisRepo emptiedBloomService) = None
  /\ cacheMiss emptiedBloomService "CG62"
  /\ Get 5 emptiedBloomService "CG62"
     = (inl (rowOther 1), snd (Get 5 emptiedBloomService "CG62"))
  /\ Get 9 {| mysqlRepo := emptyMySQL;
              redisRepo := redisRepo (snd (Get 5 emptiedBloomService "CG62"));
              bloomSvc := bloomSvc (snd (Get 5 emptiedBloomService "CG62"));
              domain := domain (snd (Get 5 emptiedBloomService "CG62")) |} "CG62"
     = (inl {| ID := 0; ShortCode := "CG62"; OriginalURL := "https://other.com";
               Params := None; CreatedAt := zeroTime; ExpireAt := None;
               Status := 0 |},
        {| mysqlRepo := emptyMySQL;
           redisRepo := redisRepo (snd (Get 5 emptiedBloomService "CG62"));
           bloomSvc := bloomSvc (snd (Get 5 emptiedBloomService "CG62"));
           domain := domain (snd (Get 5 emptiedBloomService "CG62")) |}).
Proof.
  assert (Hmiss : cacheMiss emptiedBloomService "CG62")
    by (left; vm_compute; discriminate).
  assert (Hget : Get 5 emptiedBloomService "CG62"
                 = (inl (rowOther 1), snd (Get 5 emptiedBloomService "CG62")))
    by (vm_compute; reflexivity).
  assert (Hurl : OriginalURL (rowOther 1) <> "") by discriminate.
  split; [reflexivity|]. split; [exact Hmiss|]. split; [exact Hget|].
  exact (Get_then_cached 5 emptiedBloomService "CG62" (rowOther 1) _
           eq_refl Hmiss Hget Hurl 9 emptyMySQL).
Defined.

Lemma visitedRedis_separate : separateKeyspace visitedRedis.
Proof.
  split; [|split]; cbn [strs ints sets visitedRedis].
  - apply map_Forall_empty.
  - repeat (apply map_Forall_insert_2; [split; [auto|lia]|]).
    apply map_Forall_empty.
  - repeat (apply map_Forall_insert_2; [reflexivity|]). apply map_Forall_empty.
Qed.

Lemma RecordAccess_counts_witness :
  redis_error (as_redisRepo visitedService) = None
  /\ encoder.IsValid "CG62" = true
  /\ separateKeyspace (as_redisRepo visitedService)
  /\ PV (fst (GetStats visitedService "CG62")) < maxInt64
  /\ PV (fst (GetStats visitedService "CG62")) = 7
  /\ PV (fst (GetStats
                (fst (RecordAccess "2024-05-01" visitedService "CG62" "10.0.0.3"
                        "curl" "https://www.google.com/search")) "CG62"))
     = PV (fst (GetStats visitedService "CG62")) + 1.
Proof.
  assert (Hpv : PV (fst (GetStats visitedService "CG62")) < maxInt64)
    by (vm_compute; reflexivity).
  split; [reflexivity|]. split; [reflexivity|].
  split; [exact visitedRedis_separate|]. split; [exact Hpv|].
  split; [vm_compute; reflexivity|].
  exact (proj1 (RecordAccess_counts "2024-05-01" visitedService "CG62"
                  "10.0.0.3" "curl" "https://www.google.com/search"
                  eq_refl eq_refl visitedRedis_separate Hpv)).
Defined.

Lemma getTopSources_top_witness :
  0 <= 2
  /\ getTopSources threeSources 2
     = [{| Source := "bing"; Count := 9 |}; {| Source := "google"; Count := 5 |}]
  /\ length (getTopSources threeSources 2) = Nat.min (Z.to_nat 2) (size threeSources).
Proof.
  assert (Hlimit : 0 <= 2) by lia.
  split; [exact Hlimit|]. split; [vm_compute; reflexivity|].
  exact (proj1 (getTopSources_top threeSources 2 Hlimit)).
Defined.

Lemma RecordAccess_sources_witness :
  redis_error (as_redisRepo visitedService) = None
  /\ strings.Contains (clock_day (as_redisRepo visitedService)) ":" = false
  /\ encoder.IsValid "CG62" = true
  /\ separateKeyspace (as_redisRepo visitedService)
  /\ map_Forall (fun _ n => n < maxInt64)
       (fst (GetSources (as_redisRepo visitedService) "CG62"))
  /\ extractSource "https://www.google.com/search" = "google"
  /\ fst (GetSources (as_redisRepo visitedService) "CG62") !! "google" = Some 5
  /\ fst (GetSources
            (as_redisRepo
               (fst (RecordAccess "2024-05-01" visitedService "CG62" "10.0.0.3"
                       "curl" "https://www.google.com/search"))) "CG62")
     = <[extractSource "https://www.google.com/search" :=
           default 0 (fst (GetSources (as_redisRepo visitedService) "CG62")
                        !! extractSource "https://www.google.com/search") + 1]>
         (fst (GetSources (as_redisRepo visitedService) "CG62")).
Proof.
  assert (Hsrc : extractSource "https://www.google.com/search" = "google")
    by (vm_compute; reflexivity).
  assert (Hne : extractSource "https://www.google.com/search" <> "")
    by (rewrite Hsrc; discriminate).
  assert (Hrange : map_Forall (fun _ n => n < maxInt64)
                     (fst (GetSources (as_redisRepo visitedService) "CG62"))).
  { assert (Hmap : fst (GetSources (as_redisRepo visitedService) "CG62")
                   = {["google" := 5; "direct" := 2]})
      by (apply (bool_decide_eq_true_1 _); vm_compute; reflexivity).
    rewrite Hmap.
    repeat (apply map_Forall_insert_2; [reflexivity|]). apply map_Forall_empty. }
  split; [reflexivity|]. split; [reflexivity|]. split; [reflexivity|].
  split; [exact visitedRedis_separate|]. split; [exact Hrange|].
  split; [exact Hsrc|]. split; [vm_compute; reflexivity|].
  exact (proj1 (RecordAccess_sources "2024-05-01" visitedService "CG62"
                  "10.0.0.3" "curl" "https://www.google.com/search"
                  eq_refl eq_refl eq_refl visitedRedis_separate Hrange) Hne).
Defined.

Lemma MySQL_GetTotalLinksCount_bookkeeping_witness :
  db_error sweepTable = None
  /\ MySQL_GetTotalLinksCount sweepTable = (2, None)
  /\ fst (MySQL_GetTotalLinksCount
            (fst (MySQL_CleanupExpiredLinks 200 sweepTable)))
     = fst (MySQL_GetTotalLinksCount sweepTable)
       - fst (snd (MySQL_CleanupExpiredLinks 200 sweepTable)).
Proof.
  split; [reflexivity|]. split; [reflexivity|].
  exact (proj1 (proj1 (proj2 (proj2
           (MySQL_GetTotalLinksCount_bookkeeping sweepTable eq_refl)))
           200)).
Defined.

Lemma generateWithCollision_first_fit_witness :
  db_error (mysqlRepo emptiedBloomService) = None
  /\ Forall (fun c => encoder.allInAlphabet c = true)
       (map ShortCode (short_links (mysqlRepo emptiedBloomService)))
  /\ (forall c, Exists (bloomSvc emptiedBloomService) c <> (true, None))
  /\ fst (generateWithCollision emptiedBloomService "https://a.com") = inl "CG63"
  /\ fst (generateWithCollision emptiedBloomService "https://a.com")
     = match find (fun c => negb (existsb (String.eqb c)
                                    (map ShortCode
                                       (short_links
                                          (mysqlRepo emptiedBloomService)))))
               (candidates "https://a.com") with
       | Some c => inl c
       | None => inr ErrMaxCapacityReached
       end.
Proof.
  assert (Hcodes : Forall (fun c => encoder.allInAlphabet c = true)
                     (map ShortCode
                        (short_links (mysqlRepo emptiedBloomService))))
    by (repeat constructor).
  assert (Hbloom : forall c,
            Exists (bloomSvc emptiedBloomService) c <> (true, None)).
  { intros c Hc. unfold emptiedBloomService, emptyBloom in Hc.
    cbn [Exists BloomService_impl bloomSvc] in Hc. unfold Bloom_Exists in Hc.
    cbn [bloom_error module_loaded reported] in Hc.
    injection Hc as Hc. apply bool_decide_eq_true in Hc. set_solver. }
  split; [reflexivity|]. split; [exact Hcodes|]. split; [exact Hbloom|].
  split; [vm_compute; reflexivity|].
  exact (generateWithCollision_first_fit emptiedBloomService "https://a.com"
           eq_refl Hcodes Hbloom).
Defined.

End FurtherExamples.
